(** * OsmosisSimulator: the concentrated-liquidity pool of [pair.py]

    A shallow embedding of [Pair] (src/pair.py), [Position]
    (src/position.py) and [Tick] (src/tick.py), and the properties of the
    pool engine stated over it.

    Layout of the development:
    - Python values: exceptions, results, the number interface [PyNum];
    - containers: insertion-ordered dictionaries, Python list indexing;
    - the objects: [Tick.t], [Position.t], [Pair.t] and the object store;
    - the methods of [Pair], in the order of the source;
    - Python's numbers: int and IEEE double, and the tick codec on them
      by table;
    - the properties. *)

From Stdlib Require Import ZArith List String Bool Lia.
From Stdlib Require Import Sorted Permutation.
From Stdlib Require Import Floats.
Import ListNotations.

Local Open Scope Z_scope.

(** ** Python exceptions and results *)

(** The two exception classes of pair.py and the built-in ones its
    statements can raise. *)
Inductive exn : Type :=
| InsufficientLiquidityException
| SlippageTooHighException
| KeyError
| IndexError
| ZeroDivisionError
| UnboundLocalError
| ValueError
| OverflowError.

(** The outcome of running a piece of code: a value, a raised exception, or
    [Diverge] when a [while] loop is still running after the fuel given to
    it.  [Diverge] is not an exception: no [except] clause catches it. *)
Inductive Res (A : Type) : Type :=
| Ok (a : A)
| Raise (e : exn)
| Diverge.
Arguments Ok {A} a.
Arguments Raise {A} e.
Arguments Diverge {A}.

Definition res_bind {A B} (r : Res A) (k : A -> Res B) : Res B :=
  match r with
  | Ok a => k a
  | Raise e => Raise e
  | Diverge => Diverge
  end.

Definition of_sum {A} (x : exn + A) : Res A :=
  match x with
  | inl e => Raise e
  | inr a => Ok a
  end.

Definition of_option {A} (e : exn) (x : option A) : Res A :=
  match x with
  | Some a => Ok a
  | None => Raise e
  end.

(** ** Numbers

    pair.py computes with Python numbers: ints (liquidity, tick indices,
    truncated fees) and floats (prices, fee growth).  The methods are
    written once against this interface.  [ndiv] is [/] (None:
    ZeroDivisionError), [nint] is [int(.)], [nround] is [round(.)],
    [npow10 e] is [10 ** e] for an int [e], [nsqrt x] is [x ** (1/2)];
    [x ** 2] is [nmul x x]. *)
Class PyNum (num : Type) : Type := {
  of_int : Z -> num;
  nadd : num -> num -> num;
  nsub : num -> num -> num;
  nmul : num -> num -> num;
  ndiv : num -> num -> option num;
  nneg : num -> num;
  nabs : num -> num;
  neqb : num -> num -> bool;
  nltb : num -> num -> bool;
  nleb : num -> num -> bool;
  nint : num -> exn + Z;
  nround : num -> exn + Z;
  npow10 : Z -> num;
  nsqrt : num -> num
}.

(** ** Containers *)

(** A Python [dict]: an association list in insertion order.  Assigning to
    a present key keeps its place, assigning to a new key appends. *)
Section Dict.
Context {K V : Type} (keq : K -> K -> bool).

Fixpoint dict_get (k : K) (d : list (K * V)) : option V :=
  match d with
  | [] => None
  | (k', v) :: d' => if keq k k' then Some v else dict_get k d'
  end.

Definition dict_mem (k : K) (d : list (K * V)) : bool :=
  match dict_get k d with
  | Some _ => true
  | None => false
  end.

Fixpoint dict_set (k : K) (v : V) (d : list (K * V)) : list (K * V) :=
  match d with
  | [] => [(k, v)]
  | (k', v') :: d' =>
      if keq k k' then (k', v) :: d' else (k', v') :: dict_set k v d'
  end.

Fixpoint dict_del (k : K) (d : list (K * V)) : list (K * V) :=
  match d with
  | [] => []
  | (k', v') :: d' => if keq k k' then d' else (k', v') :: dict_del k d'
  end.

Definition dict_keys (d : list (K * V)) : list K := map fst d.
End Dict.

(** [sorted(d.items())] for int keys (the keys of a dict are distinct, so
    the values are never compared). *)
Fixpoint insert_sorted {V : Type} (kv : Z * V) (d : list (Z * V))
  : list (Z * V) :=
  match d with
  | [] => [kv]
  | kv' :: d' =>
      if fst kv <=? fst kv' then kv :: kv' :: d'
      else kv' :: insert_sorted kv d'
  end.

Definition sort_items {V : Type} (d : list (Z * V)) : list (Z * V) :=
  fold_right insert_sorted [] d.

(** [l.index(x)]: the first position of [x] (ValueError when absent). *)
Fixpoint list_index (x : Z) (l : list Z) : option Z :=
  match l with
  | [] => None
  | y :: l' =>
      if x =? y then Some 0
      else match list_index x l' with
           | Some i => Some (i + 1)
           | None => None
           end
  end.

(** [l[i]]: a negative index counts from the end; out of range raises
    IndexError. *)
Definition list_item (l : list Z) (i : Z) : Res Z :=
  let n := Z.of_nat (List.length l) in
  if (0 <=? i) && (i <? n) then of_option IndexError (nth_error l (Z.to_nat i))
  else if (- n <=? i) && (i <? 0) then
         of_option IndexError (nth_error l (Z.to_nat (n + i)))
  else Raise IndexError.

(** Objects are held in a store and named by their position in it. *)
Definition ref : Type := nat.

Fixpoint store_upd {A : Type} (r : ref) (f : A -> A) (l : list A) : list A :=
  match l, r with
  | [], _ => []
  | a :: l', O => f a :: l'
  | a :: l', S r' => a :: store_upd r' f l'
  end.

(** ** The objects *)

Module Tick.
(** class Tick (src/tick.py) *)
Record t (num : Type) : Type := mk {
  idx : Z;
  liquidity_net : num;
  liquidity_gross : num;
  fee_growth_outside_x : num;
  fee_growth_outside_y : num
}.
Arguments mk {num}.
Arguments idx {num}.
Arguments liquidity_net {num}.
Arguments liquidity_gross {num}.
Arguments fee_growth_outside_x {num}.
Arguments fee_growth_outside_y {num}.

Definition add_net {num} (f : num -> num) (k : t num) : t num :=
  mk (idx k) (f (liquidity_net k)) (liquidity_gross k)
     (fee_growth_outside_x k) (fee_growth_outside_y k).
Definition add_gross {num} (f : num -> num) (k : t num) : t num :=
  mk (idx k) (liquidity_net k) (f (liquidity_gross k))
     (fee_growth_outside_x k) (fee_growth_outside_y k).
Definition set_outside {num} (x y : num) (k : t num) : t num :=
  mk (idx k) (liquidity_net k) (liquidity_gross k) x y.
End Tick.

Module Position.
(** class Position (src/position.py); [lower_tick] and [upper_tick] are
    references to Tick objects. *)
Record t (num : Type) : Type := mk {
  owner : string;
  liquidity : num;
  lower_tick : ref;
  upper_tick : ref;
  fee_growth_inside_x : num;
  fee_growth_inside_y : num;
  fees_x : num;
  fees_y : num
}.
Arguments mk {num}.
Arguments owner {num}.
Arguments liquidity {num}.
Arguments lower_tick {num}.
Arguments upper_tick {num}.
Arguments fee_growth_inside_x {num}.
Arguments fee_growth_inside_y {num}.
Arguments fees_x {num}.
Arguments fees_y {num}.

Definition set_liquidity {num} (l : num) (p : t num) : t num :=
  mk (owner p) l (lower_tick p) (upper_tick p)
     (fee_growth_inside_x p) (fee_growth_inside_y p) (fees_x p) (fees_y p).
Definition set_fee_growth_inside {num} (x y : num) (p : t num) : t num :=
  mk (owner p) (liquidity p) (lower_tick p) (upper_tick p)
     x y (fees_x p) (fees_y p).
Definition set_fees {num} (x y : num) (p : t num) : t num :=
  mk (owner p) (liquidity p) (lower_tick p) (upper_tick p)
     (fee_growth_inside_x p) (fee_growth_inside_y p) x y.
End Position.

(** The key of [self.positions]: (owner, lower_tick_idx, upper_tick_idx). *)
Definition pos_key : Type := (string * Z * Z)%type.

Definition pos_key_eqb (a b : pos_key) : bool :=
  let '(o1, l1, u1) := a in
  let '(o2, l2, u2) := b in
  String.eqb o1 o2 && (l1 =? l2) && (u1 =? u2).

Module Pair.
(** The attributes of a Pair instance (its [__dict__]).  The three
    dictionaries hold references to the Tick and Position objects. *)
Record t (num : Type) : Type := mk {
  token_x : string;
  token_y : string;
  liquidity : num;
  init_sqrt_price : num;
  fee_tier : num;
  std_increment_distance : Z;
  exp_at_price_one : Z;
  tick_spacing : Z;
  curr_sqrt_price : num;
  curr_tick_idx : Z;
  positions : list (pos_key * ref);
  ticks : list (Z * ref);
  all_ticks : list (Z * ref);
  fee_growth_global_x : num;
  fee_growth_global_y : num;
  token_x_balance : num;
  token_y_balance : num
}.
Arguments mk {num}.
Arguments token_x {num}.
Arguments token_y {num}.
Arguments liquidity {num}.
Arguments init_sqrt_price {num}.
Arguments fee_tier {num}.
Arguments std_increment_distance {num}.
Arguments exp_at_price_one {num}.
Arguments tick_spacing {num}.
Arguments curr_sqrt_price {num}.
Arguments curr_tick_idx {num}.
Arguments positions {num}.
Arguments ticks {num}.
Arguments all_ticks {num}.
Arguments fee_growth_global_x {num}.
Arguments fee_growth_global_y {num}.
Arguments token_x_balance {num}.
Arguments token_y_balance {num}.

Section Setters.
Context {num : Type}.
Implicit Types p : t num.

Definition set_liquidity (v : num) p : t num :=
  mk (token_x p) (token_y p) v (init_sqrt_price p) (fee_tier p)
     (std_increment_distance p) (exp_at_price_one p) (tick_spacing p)
     (curr_sqrt_price p) (curr_tick_idx p) (positions p) (ticks p)
     (all_ticks p) (fee_growth_global_x p) (fee_growth_global_y p)
     (token_x_balance p) (token_y_balance p).
Definition set_curr_sqrt_price (v : num) p : t num :=
  mk (token_x p) (token_y p) (liquidity p) (init_sqrt_price p) (fee_tier p)
     (std_increment_distance p) (exp_at_price_one p) (tick_spacing p)
     v (curr_tick_idx p) (positions p) (ticks p)
     (all_ticks p) (fee_growth_global_x p) (fee_growth_global_y p)
     (token_x_balance p) (token_y_balance p).
Definition set_curr_tick_idx (v : Z) p : t num :=
  mk (token_x p) (token_y p) (liquidity p) (init_sqrt_price p) (fee_tier p)
     (std_increment_distance p) (exp_at_price_one p) (tick_spacing p)
     (curr_sqrt_price p) v (positions p) (ticks p)
     (all_ticks p) (fee_growth_global_x p) (fee_growth_global_y p)
     (token_x_balance p) (token_y_balance p).
Definition set_positions (v : list (pos_key * ref)) p : t num :=
  mk (token_x p) (token_y p) (liquidity p) (init_sqrt_price p) (fee_tier p)
     (std_increment_distance p) (exp_at_price_one p) (tick_spacing p)
     (curr_sqrt_price p) (curr_tick_idx p) v (ticks p)
     (all_ticks p) (fee_growth_global_x p) (fee_growth_global_y p)
     (token_x_balance p) (token_y_balance p).
Definition set_ticks (v : list (Z * ref)) p : t num :=
  mk (token_x p) (token_y p) (liquidity p) (init_sqrt_price p) (fee_tier p)
     (std_increment_distance p) (exp_at_price_one p) (tick_spacing p)
     (curr_sqrt_price p) (curr_tick_idx p) (positions p) v
     (all_ticks p) (fee_growth_global_x p) (fee_growth_global_y p)
     (token_x_balance p) (token_y_balance p).
Definition set_all_ticks (v : list (Z * ref)) p : t num :=
  mk (token_x p) (token_y p) (liquidity p) (init_sqrt_price p) (fee_tier p)
     (std_increment_distance p) (exp_at_price_one p) (tick_spacing p)
     (curr_sqrt_price p) (curr_tick_idx p) (positions p) (ticks p)
     v (fee_growth_global_x p) (fee_growth_global_y p)
     (token_x_balance p) (token_y_balance p).
Definition set_fee_growth_global_x (v : num) p : t num :=
  mk (token_x p) (token_y p) (liquidity p) (init_sqrt_price p) (fee_tier p)
     (std_increment_distance p) (exp_at_price_one p) (tick_spacing p)
     (curr_sqrt_price p) (curr_tick_idx p) (positions p) (ticks p)
     (all_ticks p) v (fee_growth_global_y p)
     (token_x_balance p) (token_y_balance p).
Definition set_fee_growth_global_y (v : num) p : t num :=
  mk (token_x p) (token_y p) (liquidity p) (init_sqrt_price p) (fee_tier p)
     (std_increment_distance p) (exp_at_price_one p) (tick_spacing p)
     (curr_sqrt_price p) (curr_tick_idx p) (positions p) (ticks p)
     (all_ticks p) (fee_growth_global_x p) v
     (token_x_balance p) (token_y_balance p).
Definition set_token_x_balance (v : num) p : t num :=
  mk (token_x p) (token_y p) (liquidity p) (init_sqrt_price p) (fee_tier p)
     (std_increment_distance p) (exp_at_price_one p) (tick_spacing p)
     (curr_sqrt_price p) (curr_tick_idx p) (positions p) (ticks p)
     (all_ticks p) (fee_growth_global_x p) (fee_growth_global_y p)
     v (token_y_balance p).
Definition set_token_y_balance (v : num) p : t num :=
  mk (token_x p) (token_y p) (liquidity p) (init_sqrt_price p) (fee_tier p)
     (std_increment_distance p) (exp_at_price_one p) (tick_spacing p)
     (curr_sqrt_price p) (curr_tick_idx p) (positions p) (ticks p)
     (all_ticks p) (fee_growth_global_x p) (fee_growth_global_y p)
     (token_x_balance p) v.
End Setters.
End Pair.

(** The world a method runs in: the attributes of the pool ([self]) and the
    store of the Tick and Position objects they refer to. *)
Record World (num : Type) : Type := mkWorld {
  self : Pair.t num;
  tick_objs : list (Tick.t num);
  position_objs : list (Position.t num)
}.
Arguments mkWorld {num}.
Arguments self {num}.
Arguments tick_objs {num}.
Arguments position_objs {num}.

(** ** Running code: state and exceptions

    A method is a function from the world to an outcome and the world it
    leaves behind.  An exception keeps the writes done before it was
    raised, as in Python. *)
Definition M (num A : Type) : Type := World num -> Res A * World num.

Definition ret {num A} (a : A) : M num A := fun w => (Ok a, w).

Definition bind {num A B} (m : M num A) (k : A -> M num B) : M num B :=
  fun w =>
    match m w with
    | (Ok a, w') => k a w'
    | (Raise e, w') => (Raise e, w')
    | (Diverge, w') => (Diverge, w')
    end.

Definition raise {num A} (e : exn) : M num A := fun w => (Raise e, w).

Definition lift {num A} (r : Res A) : M num A := fun w => (r, w).

Declare Scope py_scope.
Delimit Scope py_scope with py.
Notation "x <- m ;; k" := (bind m (fun x => k))
  (at level 61, m at next level, right associativity) : py_scope.
Notation "' pat <- m ;; k" := (bind m (fun x => match x with pat => k end))
  (at level 61, pat pattern, m at next level, right associativity) : py_scope.
Notation "m ;; k" := (bind m (fun _ => k))
  (at level 61, right associativity) : py_scope.
Notation "x <~ r ;; k" := (res_bind r (fun x => k))
  (at level 61, r at next level, right associativity) : py_scope.
Notation "' pat <~ r ;; k" := (res_bind r (fun x => match x with pat => k end))
  (at level 61, pat pattern, r at next level, right associativity) : py_scope.
Local Open Scope py_scope.

Section Model.
Context {num : Type} `{PyNum num}.

Abbreviation Mn := (M num).

(** *** Access to [self] and to the objects *)

Definition get_self : Mn (Pair.t num) := fun w => (Ok (self w), w).

Definition upd_self (f : Pair.t num -> Pair.t num) : Mn unit :=
  fun w => (Ok tt, mkWorld (f (self w)) (tick_objs w) (position_objs w)).

Definition default_tick : Tick.t num :=
  Tick.mk 0 (of_int 0) (of_int 0) (of_int 0) (of_int 0).

Definition default_position : Position.t num :=
  Position.mk EmptyString (of_int 0) O O
              (of_int 0) (of_int 0) (of_int 0) (of_int 0).

Definition tick_obj (r : ref) : Mn (Tick.t num) :=
  fun w => (Ok (nth r (tick_objs w) default_tick), w).

Definition upd_tick (r : ref) (f : Tick.t num -> Tick.t num) : Mn unit :=
  fun w =>
    (Ok tt, mkWorld (self w) (store_upd r f (tick_objs w)) (position_objs w)).

(** [Tick(...)]: a new object. *)
Definition new_tick (k : Tick.t num) : Mn ref :=
  fun w =>
    (Ok (List.length (tick_objs w)),
     mkWorld (self w) (tick_objs w ++ [k]) (position_objs w)).

Definition position_obj (r : ref) : Mn (Position.t num) :=
  fun w => (Ok (nth r (position_objs w) default_position), w).

Definition upd_position (r : ref) (f : Position.t num -> Position.t num)
  : Mn unit :=
  fun w =>
    (Ok tt, mkWorld (self w) (tick_objs w) (store_upd r f (position_objs w))).

(** [Position(...)]: a new object. *)
Definition new_position (p : Position.t num) : Mn ref :=
  fun w =>
    (Ok (List.length (position_objs w)),
     mkWorld (self w) (tick_objs w) (position_objs w ++ [p])).

(** [self.ticks[i]], [self.all_ticks[i]], [self.positions[k]] and
    [del self.positions[k]], [del self.ticks[i]]. *)
Definition ticks_item (i : Z) : Mn ref :=
  fun w => (of_option KeyError (dict_get Z.eqb i (Pair.ticks (self w))), w).

Definition all_ticks_item (i : Z) : Mn ref :=
  fun w =>
    (of_option KeyError (dict_get Z.eqb i (Pair.all_ticks (self w))), w).

Definition positions_item (k : pos_key) : Mn ref :=
  fun w =>
    (of_option KeyError (dict_get pos_key_eqb k (Pair.positions (self w))), w).

Definition positions_del (k : pos_key) : Mn unit :=
  p <- get_self ;;
  if dict_mem pos_key_eqb k (Pair.positions p)
  then upd_self (Pair.set_positions (dict_del pos_key_eqb k (Pair.positions p)))
  else raise KeyError.

Definition ticks_del (i : Z) : Mn unit :=
  p <- get_self ;;
  if dict_mem Z.eqb i (Pair.ticks p)
  then upd_self (Pair.set_ticks (dict_del Z.eqb i (Pair.ticks p)))
  else raise KeyError.

(** [self.ticks[i].attr = f(self.ticks[i].attr)] *)
Definition ticks_item_upd (i : Z) (f : Tick.t num -> Tick.t num) : Mn unit :=
  r <- ticks_item i ;;
  upd_tick r f.

Definition div (a b : num) : Mn num :=
  lift (of_option ZeroDivisionError (ndiv a b)).

Definition rdiv (a b : num) : Res num :=
  of_option ZeroDivisionError (ndiv a b).

(** [max(a, b)] keeps [a] unless [b > a]. *)
Definition nmax (a b : num) : num := if nltb a b then b else a.

(** *** Pair.sort_tick_map *)
Definition sort_tick_map : Mn unit :=
  upd_self (fun p => Pair.set_ticks (sort_items (Pair.ticks p)) p).

(** *** Pair.tick_to_sqrt_price *)
Definition tick_to_sqrt_price (p : Pair.t num) (tick : Z) : Res (num * num) :=
  q <~ rdiv (of_int tick) (of_int (Pair.std_increment_distance p)) ;;
  curr_increment_lvl <~ of_sum (nint (nabs q)) ;;
  if 0 <? tick then
    let exp_at_curr_tick := Pair.exp_at_price_one p + curr_increment_lvl in
    let curr_additive_increment := npow10 exp_at_curr_tick in
    let num_additive_ticks :=
      tick - curr_increment_lvl * Pair.std_increment_distance p in
    let price :=
      nadd (npow10 curr_increment_lvl)
           (nmul (of_int num_additive_ticks) curr_additive_increment) in
    Ok (nsqrt price, nsqrt (nadd price curr_additive_increment))
  else
    let exp_at_curr_tick :=
      Pair.exp_at_price_one p - (curr_increment_lvl + 1) in
    let curr_additive_increment := npow10 exp_at_curr_tick in
    let num_additive_ticks :=
      - tick - curr_increment_lvl * Pair.std_increment_distance p in
    let price :=
      nsub (npow10 (- curr_increment_lvl))
           (nmul (of_int num_additive_ticks) curr_additive_increment) in
    Ok (nsqrt price, nsqrt (nadd price curr_additive_increment)).

(** *** Pair.sqrt_price_to_tick *)

(** [[10**i for i in range(50)]] and [[10**-i for i in range(50)]] *)
Definition price_levels_up : list num :=
  map (fun i => npow10 (Z.of_nat i)) (seq 0 50).
Definition price_levels_down : list num :=
  map (fun i => npow10 (- Z.of_nat i)) (seq 0 50).

(** The [for i, pl in enumerate(price_levels)] loop.  [up] selects the
    test [price > pl and price <= price_levels[i+1]] of the first branch,
    otherwise [price < pl and price >= price_levels[i+1]].  The second
    conjunct is only evaluated when the first holds; [price_levels[i+1]]
    raises IndexError at the last level.  When the loop ends without
    [break], the first use of [price_level_index] raises
    UnboundLocalError. *)
Fixpoint find_level (up : bool) (price : num) (price_levels : list num)
         (i : nat) (rest : list num) : Res (num * Z) :=
  match rest with
  | [] => Raise UnboundLocalError
  | pl :: rest' =>
      if (if up then nltb pl price else nltb price pl) then
        nx <~ of_option IndexError (nth_error price_levels (S i)) ;;
        if (if up then nleb price nx else nleb nx price)
        then Ok (pl, Z.of_nat i)
        else find_level up price price_levels (S i) rest'
      else find_level up price price_levels (S i) rest'
  end.

Definition sqrt_price_to_tick (p : Pair.t num) (sqrt_price : num) : Res Z :=
  let price := nmul sqrt_price sqrt_price in
  if neqb price (of_int 1) then Ok 0
  else if nltb (of_int 1) price then
    '(price_level, price_level_index) <~
       find_level true price price_levels_up 0 price_levels_up ;;
    let exp_at_curr_tick := price_level_index - 6 in
    let curr_additive_increment := npow10 exp_at_curr_tick in
    let tick_level := price_level_index * Pair.std_increment_distance p in
    q <~ rdiv (nsub price price_level) curr_additive_increment ;;
    additive_ticks <~ of_sum (nround q) ;;
    Ok (tick_level + additive_ticks)
  else
    '(price_level, price_level_index) <~
       find_level false price price_levels_down 0 price_levels_down ;;
    let exp_at_curr_tick := -1 * (price_level_index + 7) in
    let curr_additive_increment := npow10 exp_at_curr_tick in
    let tick_level := - price_level_index * Pair.std_increment_distance p in
    q <~ rdiv (nsub price_level price) curr_additive_increment ;;
    additive_ticks <~ of_sum (nround q) ;;
    Ok (tick_level - additive_ticks).

(** *** Pair.tick_by_tick_spacing

    [tick_step] is an int, so the test [tick_step % 1 != 0] is on an int. *)
Definition tick_by_tick_spacing (p : Pair.t num) (precise_tick : num)
  : Res Z :=
  q <~ rdiv precise_tick (of_int (Pair.tick_spacing p)) ;;
  tick_step <~ of_sum (nint q) ;;
  if nleb (of_int 0) precise_tick then Ok (tick_step * Pair.tick_spacing p)
  else if negb (tick_step mod 1 =? 0)
       then Ok ((tick_step - 1) * Pair.tick_spacing p)
       else Ok (tick_step * Pair.tick_spacing p).

(** *** Pair.__init__ *)
Definition init (token_x token_y : string) (init_sqrt_price fee_tier : num)
           (tick_spacing : Z) : Res (World num) :=
  let p :=
    Pair.mk token_x token_y (of_int 0) init_sqrt_price fee_tier
            9000000 (-6) tick_spacing init_sqrt_price 0 [] [] []
            (of_int 0) (of_int 0) (of_int 0) (of_int 0) in
  tick <~ sqrt_price_to_tick p init_sqrt_price ;;
  Ok (mkWorld (Pair.set_curr_tick_idx tick p) [] []).

(** *** Pair.find_next_tick *)
Fixpoint find_next_loop (keys : list Z) (tick_idx : Z) (higher : bool)
         (rest : list Z) (next_tick : option Z) : Res (option Z) :=
  match rest with
  | [] => Ok next_tick
  | key :: rest' =>
      if (key <? tick_idx) && negb higher then
        find_next_loop keys tick_idx higher rest' (Some key)
      else if key =? tick_idx then
        position <~ of_option ValueError (list_index tick_idx keys) ;;
        if higher then
          n <~ list_item keys (position + 1) ;; Ok (Some n)
        else
          n <~ list_item keys (position - 1) ;; Ok (Some n)
      else if (tick_idx <? key) && higher then Ok (Some key)
      else find_next_loop keys tick_idx higher rest' next_tick
  end.

Definition find_next_tick_keys (keys : list Z) (tick_idx : Z) (higher : bool)
  : Res (option Z) :=
  find_next_loop keys tick_idx higher keys None.

Definition find_next_tick (tick_idx : Z) (higher : bool) : Mn (option Z) :=
  p <- get_self ;;
  lift (find_next_tick_keys (dict_keys (Pair.ticks p)) tick_idx higher).

(** *** Pair.fee_growth_outside *)
Definition fee_growth_outside (tick_idx : Z) : Mn (num * num) :=
  p <- get_self ;;
  match dict_get Z.eqb tick_idx (Pair.ticks p) with
  | None =>
      if tick_idx <=? Pair.curr_tick_idx p
      then ret (Pair.fee_growth_global_x p, Pair.fee_growth_global_y p)
      else ret (of_int 0, of_int 0)
  | Some r =>
      k <- tick_obj r ;;
      ret (nsub (Pair.fee_growth_global_x p) (Tick.fee_growth_outside_x k),
           nsub (Pair.fee_growth_global_y p) (Tick.fee_growth_outside_y k))
  end.

(** *** Pair.fee_within_range *)
Definition fee_within_range (lower_tick upper_tick : ref) : Mn (num * num) :=
  p <- get_self ;;
  lo <- tick_obj lower_tick ;;
  up <- tick_obj upper_tick ;;
  let fee_below_lower :=
    if Tick.idx lo <=? Pair.curr_tick_idx p
    then (Tick.fee_growth_outside_x lo, Tick.fee_growth_outside_y lo)
    else (nsub (Pair.fee_growth_global_x p) (Tick.fee_growth_outside_x lo),
          nsub (Pair.fee_growth_global_y p) (Tick.fee_growth_outside_y lo)) in
  let fee_above_upper :=
    if Tick.idx up <=? Pair.curr_tick_idx p
    then (nsub (Pair.fee_growth_global_x p) (Tick.fee_growth_outside_x up),
          nsub (Pair.fee_growth_global_y p) (Tick.fee_growth_outside_y up))
    else (Tick.fee_growth_outside_x up, Tick.fee_growth_outside_y up) in
  let fee_within_range_x :=
    nsub (nsub (Pair.fee_growth_global_x p) (fst fee_above_upper))
         (fst fee_below_lower) in
  let fee_within_range_y :=
    nsub (nsub (Pair.fee_growth_global_y p) (snd fee_above_upper))
         (snd fee_below_lower) in
  ret (fee_within_range_x, fee_within_range_y).

(** [self.all_ticks[position.lower_tick.idx]] and the same for the upper
    tick: the two arguments of the calls to fee_within_range in get_fees
    and collect_fees. *)
Definition boundary_ticks (position : ref) : Mn (ref * ref) :=
  pos <- position_obj position ;;
  lo <- tick_obj (Position.lower_tick pos) ;;
  lower <- all_ticks_item (Tick.idx lo) ;;
  up <- tick_obj (Position.upper_tick pos) ;;
  upper <- all_ticks_item (Tick.idx up) ;;
  ret (lower, upper).

(** *** Pair.get_fees *)
Definition get_fees (position : ref) : Mn (num * num) :=
  '(lower, upper) <- boundary_ticks position ;;
  '(fee_within_range_x, fee_within_range_y) <-
     fee_within_range lower upper ;;
  pos <- position_obj position ;;
  let fees_x :=
    nmul (nsub fee_within_range_x (Position.fee_growth_inside_x pos))
         (Position.liquidity pos) in
  let fees_y :=
    nmul (nsub fee_within_range_y (Position.fee_growth_inside_y pos))
         (Position.liquidity pos) in
  ret (fees_x, fees_y).

(** *** Pair.collect_fees *)
Definition collect_fees (position : ref) : Mn (num * num) :=
  '(fees_x, fees_y) <- get_fees position ;;
  '(lower, upper) <- boundary_ticks position ;;
  '(fee_within_range_x, fee_within_range_y) <-
     fee_within_range lower upper ;;
  upd_position position
    (Position.set_fee_growth_inside fee_within_range_x fee_within_range_y) ;;
  upd_position position
    (fun pos => Position.set_fees (nadd (Position.fees_x pos) fees_x)
                                  (Position.fees_y pos) pos) ;;
  upd_position position
    (fun pos => Position.set_fees (Position.fees_x pos)
                                  (nadd (Position.fees_y pos) fees_y) pos) ;;
  ret (fees_x, fees_y).

(** The key (position.owner, position.lower_tick.idx,
    position.upper_tick.idx). *)
Definition key_of (position : ref) : Mn pos_key :=
  pos <- position_obj position ;;
  lo <- tick_obj (Position.lower_tick pos) ;;
  up <- tick_obj (Position.upper_tick pos) ;;
  ret (Position.owner pos, Tick.idx lo, Tick.idx up).

(** *** Pair.withdraw_fees *)
Definition withdraw_fees (position : ref) : Mn (num * num) :=
  collect_fees position ;;
  pos <- position_obj position ;;
  let fees_x := Position.fees_x pos in
  let fees_y := Position.fees_y pos in
  upd_position position
    (fun pos => Position.set_fees (of_int 0) (Position.fees_y pos) pos) ;;
  upd_position position
    (fun pos => Position.set_fees (Position.fees_x pos) (of_int 0) pos) ;;
  (if neqb (Position.liquidity pos) (of_int 0)
   then key <- key_of position ;; positions_del key
   else ret tt) ;;
  upd_self (fun p =>
    Pair.set_token_x_balance (nsub (Pair.token_x_balance p) fees_x) p) ;;
  upd_self (fun p =>
    Pair.set_token_y_balance (nsub (Pair.token_y_balance p) fees_y) p) ;;
  ret (fees_x, fees_y).

(** *** Pair.liquidity_to_tokens
    [sqrt_price = None] is the default argument. *)
Definition liquidity_to_tokens (liquidity : num)
           (lower_tick_idx upper_tick_idx : Z) (sqrt_price : option num)
  : Mn (num * num) :=
  p <- get_self ;;
  '(p_b, _) <- lift (tick_to_sqrt_price p upper_tick_idx) ;;
  '(p_a, _) <- lift (tick_to_sqrt_price p lower_tick_idx) ;;
  let p_c :=
    match sqrt_price with
    | None => Pair.curr_sqrt_price p
    | Some s => s
    end in
  delta_x <- div (nmul liquidity (nsub p_b p_c)) (nmul p_b p_c) ;;
  let delta_y := nmul liquidity (nsub p_c p_a) in
  ret (nmax delta_x (of_int 0), nmax delta_y (of_int 0)).

(** *** Pair.update_tick_map *)
Definition update_tick_map (tick_idx : Z) : Mn unit :=
  r <- ticks_item tick_idx ;;
  k <- tick_obj r ;;
  (if neqb (Tick.liquidity_gross k) (of_int 0)
   then ticks_del tick_idx
   else ret tt) ;;
  sort_tick_map.

(** [self.ticks[i].liquidity_net += a; self.ticks[i].liquidity_gross += b]
    with the signs of the call site. *)
Definition bump_tick (i : Z) (net gross : num -> num) : Mn unit :=
  ticks_item_upd i (Tick.add_net net) ;;
  ticks_item_upd i (Tick.add_gross gross).

(** *** Pair.add_liquidity *)

(** The [if b not in self.ticks: ... else: ...] statement of one boundary
    [b], with [net0] the initial liquidity_net ([liquidity] for the lower
    tick, [-liquidity] for the upper one). *)
Definition touch_boundary (b : Z) (liquidity net0 : num)
           (net : num -> num) : Mn unit :=
  p <- get_self ;;
  if negb (dict_mem Z.eqb b (Pair.ticks p)) then
    '(outside_x, outside_y) <- fee_growth_outside b ;;
    r <- new_tick (Tick.mk b net0 liquidity outside_x outside_y) ;;
    upd_self (fun p => Pair.set_ticks (dict_set Z.eqb b r (Pair.ticks p)) p) ;;
    r' <- ticks_item b ;;
    upd_self (fun p =>
      Pair.set_all_ticks (dict_set Z.eqb b r' (Pair.all_ticks p)) p)
  else
    bump_tick b net (fun g => nadd g liquidity).

Definition add_liquidity (owner : string) (liquidity : num)
           (lower_tick_idx upper_tick_idx : Z) : Mn ref :=
  p <- get_self ;;
  (if (lower_tick_idx <=? Pair.curr_tick_idx p)
      && (Pair.curr_tick_idx p <? upper_tick_idx)
   then upd_self (Pair.set_liquidity (nadd (Pair.liquidity p) liquidity))
   else ret tt) ;;
  let key := (owner, lower_tick_idx, upper_tick_idx) in
  p <- get_self ;;
  position <-
    (if dict_mem pos_key_eqb key (Pair.positions p)
        && dict_mem Z.eqb lower_tick_idx (Pair.ticks p)
        && dict_mem Z.eqb upper_tick_idx (Pair.ticks p)
     then
       r <- positions_item key ;;
       collect_fees r ;;
       r <- positions_item key ;;
       upd_position r (fun pos =>
         Position.set_liquidity (nadd (Position.liquidity pos) liquidity) pos) ;;
       position <- positions_item key ;;
       bump_tick lower_tick_idx (fun n => nadd n liquidity)
                 (fun g => nadd g liquidity) ;;
       bump_tick upper_tick_idx (fun n => nsub n liquidity)
                 (fun g => nadd g liquidity) ;;
       ret position
     else
       touch_boundary lower_tick_idx liquidity liquidity
                      (fun n => nadd n liquidity) ;;
       touch_boundary upper_tick_idx liquidity (nneg liquidity)
                      (fun n => nsub n liquidity) ;;
       p <- get_self ;;
       position <-
         (if dict_mem pos_key_eqb key (Pair.positions p) then
            r <- positions_item key ;;
            collect_fees r ;;
            r <- positions_item key ;;
            upd_position r (fun pos =>
              Position.set_liquidity
                (nadd (Position.liquidity pos) liquidity) pos) ;;
            positions_item key
          else
            lo <- ticks_item lower_tick_idx ;;
            up <- ticks_item upper_tick_idx ;;
            '(fee_within_range_x, fee_within_range_y) <-
               fee_within_range lo up ;;
            lo <- ticks_item lower_tick_idx ;;
            up <- ticks_item upper_tick_idx ;;
            new_position
              (Position.mk owner liquidity lo up
                           fee_within_range_x fee_within_range_y
                           (of_int 0) (of_int 0))) ;;
       upd_self (fun p =>
         Pair.set_positions
           (dict_set pos_key_eqb key position (Pair.positions p)) p) ;;
       ret position) ;;
  sort_tick_map ;;
  '(delta_x, delta_y) <-
     liquidity_to_tokens liquidity lower_tick_idx upper_tick_idx None ;;
  upd_self (fun p =>
    Pair.set_token_x_balance (nadd (Pair.token_x_balance p) delta_x) p) ;;
  upd_self (fun p =>
    Pair.set_token_y_balance (nadd (Pair.token_y_balance p) delta_y) p) ;;
  ret position.

(** *** Pair.remove_liquidity *)
Definition remove_liquidity (position : ref) (liquidity : num) : Mn unit :=
  '(_, lower_idx, upper_idx) <- key_of position ;;
  p <- get_self ;;
  (if (lower_idx <=? Pair.curr_tick_idx p)
      && (Pair.curr_tick_idx p <? upper_idx)
   then upd_self (Pair.set_liquidity (nsub (Pair.liquidity p) liquidity))
   else ret tt) ;;
  '(fees_x, fees_y) <- get_fees position ;;
  pos <- position_obj position ;;
  (if neqb (Position.liquidity pos) liquidity
      && neqb fees_x (of_int 0) && neqb fees_y (of_int 0)
   then key <- key_of position ;; positions_del key
   else
     collect_fees position ;;
     upd_position position (fun pos =>
       Position.set_liquidity (nsub (Position.liquidity pos) liquidity) pos)) ;;
  bump_tick lower_idx (fun n => nsub n liquidity) (fun g => nsub g liquidity) ;;
  update_tick_map lower_idx ;;
  bump_tick upper_idx (fun n => nadd n liquidity) (fun g => nsub g liquidity) ;;
  update_tick_map upper_idx ;;
  '(delta_x, delta_y) <-
     liquidity_to_tokens liquidity lower_idx upper_idx None ;;
  upd_self (fun p =>
    Pair.set_token_x_balance (nsub (Pair.token_x_balance p) delta_x) p) ;;
  upd_self (fun p =>
    Pair.set_token_y_balance (nsub (Pair.token_y_balance p) delta_y) p).

(** *** Pair.deduct_fees and Pair.add_fees *)
Definition deduct_fees (p : Pair.t num) (amount_in : num) : Res (num * Z) :=
  fees_deducted <~ of_sum (nint (nmul amount_in (Pair.fee_tier p))) ;;
  let amount_leftover := nsub amount_in (of_int fees_deducted) in
  Ok (amount_leftover, fees_deducted).

Definition add_fees (p : Pair.t num) (amount_used_for_swap : num)
  : Res (num * num) :=
  amount_used <~
    rdiv amount_used_for_swap (nsub (of_int 1) (Pair.fee_tier p)) ;;
  let fees := nsub amount_used amount_used_for_swap in
  Ok (amount_used, fees).

(** *** Pair.revert_swap: [self.__dict__.update(original_state)] *)
Definition revert_swap (original_state : Pair.t num) : Mn unit :=
  upd_self (fun _ => original_state).

(** *** Pair.swap_x_for_y

    The loop variables are amount_out, amount_remaining, next_tick and
    lower_tick_sqrt_price. *)
Definition loop_vars : Type := (num * num * Z * num)%type.

(** Lines 685-692: the price the remaining amount would lead to. *)
Definition x_updated_sqrt_price (amount_remaining : num) : Mn (Z * num) :=
  p <- get_self ;;
  '(amount_remaining_after_fees, fees_deducted) <-
     lift (deduct_fees p amount_remaining) ;;
  delta_inv_sqrt_price <- div amount_remaining_after_fees (Pair.liquidity p) ;;
  inv_sqrt_price <- div (of_int 1) (Pair.curr_sqrt_price p) ;;
  let updated_inv_sqrt_price := nadd inv_sqrt_price delta_inv_sqrt_price in
  updated_sqrt_price <- div (of_int 1) updated_inv_sqrt_price ;;
  ret (fees_deducted, updated_sqrt_price).

(** The branch [if updated_sqrt_price >= lower_tick_sqrt_price]. *)
Definition x_within (amount_out : num) (next_tick : Z)
           (lower_tick_sqrt_price : num) (fees_deducted : Z)
           (updated_sqrt_price : num) : Mn loop_vars :=
  p <- get_self ;;
  let delta_sqrt_price := nsub (Pair.curr_sqrt_price p) updated_sqrt_price in
  out <- lift (of_sum (nint (nmul delta_sqrt_price (Pair.liquidity p)))) ;;
  let amount_out := nadd amount_out (of_int out) in
  fee <- div (of_int fees_deducted) (Pair.liquidity p) ;;
  upd_self (fun p =>
    Pair.set_fee_growth_global_x (nadd (Pair.fee_growth_global_x p) fee) p) ;;
  upd_self (Pair.set_curr_sqrt_price updated_sqrt_price) ;;
  p <- get_self ;;
  tick <- lift (sqrt_price_to_tick p (Pair.curr_sqrt_price p)) ;;
  upd_self (Pair.set_curr_tick_idx tick) ;;
  ret (amount_out, of_int 0, next_tick, lower_tick_sqrt_price).

(** The tuple assignment to fee_growth_outside_x and fee_growth_outside_y
    of self.ticks[self.curr_tick_idx] that ends both crossing branches. *)
Definition flip_fee_growth_outside : Mn unit :=
  p <- get_self ;;
  '(outside_x, outside_y) <- fee_growth_outside (Pair.curr_tick_idx p) ;;
  ticks_item_upd (Pair.curr_tick_idx p)
    (fun k => Tick.set_outside outside_x (Tick.fee_growth_outside_y k) k) ;;
  ticks_item_upd (Pair.curr_tick_idx p)
    (fun k => Tick.set_outside (Tick.fee_growth_outside_x k) outside_y k).

(** The argument of the second [print] of a crossing branch; it is
    evaluated, so its lookup and its division can raise. *)
Definition print_liquidity_pct_change : Mn unit :=
  p <- get_self ;;
  r <- ticks_item (Pair.curr_tick_idx p) ;;
  k <- tick_obj r ;;
  div (nmul (Tick.liquidity_net k) (of_int 100)) (Pair.liquidity p) ;;
  ret tt.

(** The [else] branch: the price reaches the next tick and crosses it. *)
Definition x_cross (amount_out amount_remaining : num) (next_tick : Z)
           (lower_tick_sqrt_price : num) : Mn loop_vars :=
  p <- get_self ;;
  inv_lower <- div (of_int 1) lower_tick_sqrt_price ;;
  inv_curr <- div (of_int 1) (Pair.curr_sqrt_price p) ;;
  let amount_used_for_swap :=
    nmul (nsub inv_lower inv_curr) (Pair.liquidity p) in
  '(amount_used, fees_deducted) <- lift (add_fees p amount_used_for_swap) ;;
  let delta_sqrt_price :=
    nsub (Pair.curr_sqrt_price p) lower_tick_sqrt_price in
  out <- lift (of_sum (nint (nmul delta_sqrt_price (Pair.liquidity p)))) ;;
  let amount_out := nadd amount_out (of_int out) in
  let amount_remaining := nsub amount_remaining amount_used in
  fee <- div fees_deducted (Pair.liquidity p) ;;
  upd_self (fun p =>
    Pair.set_fee_growth_global_x (nadd (Pair.fee_growth_global_x p) fee) p) ;;
  upd_self (Pair.set_curr_tick_idx next_tick) ;;
  print_liquidity_pct_change ;;
  p <- get_self ;;
  next <- find_next_tick (Pair.curr_tick_idx p) false ;;
  match next with
  | None => raise InsufficientLiquidityException
  | Some next_tick =>
      upd_self (Pair.set_curr_sqrt_price lower_tick_sqrt_price) ;;
      r <- ticks_item (Pair.curr_tick_idx p) ;;
      k <- tick_obj r ;;
      upd_self (fun p =>
        Pair.set_liquidity
          (nsub (Pair.liquidity p) (Tick.liquidity_net k)) p) ;;
      p <- get_self ;;
      if neqb (Pair.liquidity p) (of_int 0)
      then raise InsufficientLiquidityException
      else
        '(lower_tick_sqrt_price, _) <-
           lift (tick_to_sqrt_price p next_tick) ;;
        flip_fee_growth_outside ;;
        ret (amount_out, amount_remaining, next_tick, lower_tick_sqrt_price)
  end.

(** One turn of the [while] loop, with the slippage test that ends it. *)
Definition x_body (sqrt_price_limit : num) (v : loop_vars) : Mn loop_vars :=
  let '(amount_out, amount_remaining, next_tick, lower_tick_sqrt_price) := v in
  '(fees_deducted, updated_sqrt_price) <-
     x_updated_sqrt_price amount_remaining ;;
  v' <- (if nleb lower_tick_sqrt_price updated_sqrt_price
         then x_within amount_out next_tick lower_tick_sqrt_price
                       fees_deducted updated_sqrt_price
         else x_cross amount_out amount_remaining next_tick
                      lower_tick_sqrt_price) ;;
  p <- get_self ;;
  if nleb (Pair.curr_sqrt_price p) sqrt_price_limit
  then raise SlippageTooHighException
  else ret v'.

(** [while amount_remaining > 0: body]; [fuel] bounds the number of
    turns. *)
Fixpoint while_remaining (body : loop_vars -> Mn loop_vars) (fuel : nat)
         (v : loop_vars) : Mn num :=
  let '(amount_out, amount_remaining, _, _) := v in
  if nltb (of_int 0) amount_remaining then
    match fuel with
    | O => lift Diverge
    | S fuel' => v' <- body v ;; while_remaining body fuel' v'
    end
  else ret amount_out.

Definition swap_x_for_y (fuel : nat) (amount_in sqrt_price_limit : num)
  : Mn num :=
  p <- get_self ;;
  next <- find_next_tick (Pair.curr_tick_idx p) false ;;
  match next with
  | None => raise InsufficientLiquidityException
  | Some next_tick =>
      '(lower_tick_sqrt_price, _) <- lift (tick_to_sqrt_price p next_tick) ;;
      while_remaining (x_body sqrt_price_limit) fuel
        (of_int 0, amount_in, next_tick, lower_tick_sqrt_price)
  end.

(** *** Pair.swap_y_for_x *)

(** Lines 774-778. *)
Definition y_updated_sqrt_price (amount_remaining : num) : Mn (Z * num) :=
  p <- get_self ;;
  '(amount_remaining_after_fees, fees_deducted) <-
     lift (deduct_fees p amount_remaining) ;;
  delta_sqrt_price <- div amount_remaining_after_fees (Pair.liquidity p) ;;
  let updated_sqrt_price := nadd (Pair.curr_sqrt_price p) delta_sqrt_price in
  ret (fees_deducted, updated_sqrt_price).

(** The branch [if updated_sqrt_price <= lower_tick_sqrt_price]. *)
Definition y_within (amount_out : num) (next_tick : Z)
           (lower_tick_sqrt_price : num) (fees_deducted : Z)
           (updated_sqrt_price : num) : Mn loop_vars :=
  p <- get_self ;;
  inv_curr <- div (of_int 1) (Pair.curr_sqrt_price p) ;;
  inv_updated <- div (of_int 1) updated_sqrt_price ;;
  let delta_inv_sqrt_price := nsub inv_curr inv_updated in
  let amount_out :=
    nadd amount_out (nmul delta_inv_sqrt_price (Pair.liquidity p)) in
  fee <- div (of_int fees_deducted) (Pair.liquidity p) ;;
  upd_self (fun p =>
    Pair.set_fee_growth_global_y (nadd (Pair.fee_growth_global_y p) fee) p) ;;
  upd_self (Pair.set_curr_sqrt_price updated_sqrt_price) ;;
  p <- get_self ;;
  tick <- lift (sqrt_price_to_tick p (Pair.curr_sqrt_price p)) ;;
  upd_self (Pair.set_curr_tick_idx tick) ;;
  ret (amount_out, of_int 0, next_tick, lower_tick_sqrt_price).

Definition y_cross (amount_out amount_remaining : num) (next_tick : Z)
           (lower_tick_sqrt_price : num) : Mn loop_vars :=
  p <- get_self ;;
  let amount_used_for_swap :=
    nmul (nsub lower_tick_sqrt_price (Pair.curr_sqrt_price p))
         (Pair.liquidity p) in
  '(amount_used, fees_deducted) <- lift (add_fees p amount_used_for_swap) ;;
  inv_curr <- div (of_int 1) (Pair.curr_sqrt_price p) ;;
  inv_lower <- div (of_int 1) lower_tick_sqrt_price ;;
  let delta_inv_sqrt_price := nsub inv_curr inv_lower in
  let amount_out :=
    nadd amount_out (nmul delta_inv_sqrt_price (Pair.liquidity p)) in
  let amount_remaining := nsub amount_remaining amount_used in
  fee <- div fees_deducted (Pair.liquidity p) ;;
  upd_self (fun p =>
    Pair.set_fee_growth_global_y (nadd (Pair.fee_growth_global_y p) fee) p) ;;
  upd_self (Pair.set_curr_tick_idx next_tick) ;;
  print_liquidity_pct_change ;;
  p <- get_self ;;
  next <- find_next_tick (Pair.curr_tick_idx p) true ;;
  match next with
  | None => raise InsufficientLiquidityException
  | Some next_tick =>
      upd_self (Pair.set_curr_sqrt_price lower_tick_sqrt_price) ;;
      r <- ticks_item (Pair.curr_tick_idx p) ;;
      k <- tick_obj r ;;
      upd_self (fun p =>
        Pair.set_liquidity
          (nadd (Pair.liquidity p) (Tick.liquidity_net k)) p) ;;
      p <- get_self ;;
      if neqb (Pair.liquidity p) (of_int 0)
      then raise InsufficientLiquidityException
      else
        '(lower_tick_sqrt_price, _) <-
           lift (tick_to_sqrt_price p next_tick) ;;
        flip_fee_growth_outside ;;
        ret (amount_out, amount_remaining, next_tick, lower_tick_sqrt_price)
  end.

Definition y_body (sqrt_price_limit : num) (v : loop_vars) : Mn loop_vars :=
  let '(amount_out, amount_remaining, next_tick, lower_tick_sqrt_price) := v in
  '(fees_deducted, updated_sqrt_price) <-
     y_updated_sqrt_price amount_remaining ;;
  v' <- (if nleb updated_sqrt_price lower_tick_sqrt_price
         then y_within amount_out next_tick lower_tick_sqrt_price
                       fees_deducted updated_sqrt_price
         else y_cross amount_out amount_remaining next_tick
                      lower_tick_sqrt_price) ;;
  p <- get_self ;;
  if nleb sqrt_price_limit (Pair.curr_sqrt_price p)
  then raise SlippageTooHighException
  else ret v'.

Definition swap_y_for_x (fuel : nat) (amount_in sqrt_price_limit : num)
  : Mn num :=
  p <- get_self ;;
  next <- find_next_tick (Pair.curr_tick_idx p) true ;;
  match next with
  | None => raise InsufficientLiquidityException
  | Some next_tick =>
      '(lower_tick_sqrt_price, _) <- lift (tick_to_sqrt_price p next_tick) ;;
      while_remaining (y_body sqrt_price_limit) fuel
        (of_int 0, amount_in, next_tick, lower_tick_sqrt_price)
  end.

(** *** Pair.swap

    The statements of the [try] block.  [original_state] is
    [self.__dict__.copy()]: the attribute values at the call, the three
    dictionaries by reference.  No statement reachable from the [try]
    block assigns to an item of these dictionaries or rebinds them, so
    the reference and the contents it had at the call are the same
    thing here; the Tick objects behind the references are not part of
    the copy. *)
Definition swap_try (fuel : nat) (original_state : Pair.t num)
           (token_in_addr : string) (amount_in sqrt_price_limit : num)
           (simulate : bool) : Mn num :=
  p <- get_self ;;
  amount_out <-
    (if String.eqb token_in_addr (Pair.token_x p) then
       amount_out <- swap_x_for_y fuel amount_in sqrt_price_limit ;;
       (if negb simulate then
          upd_self (fun p =>
            Pair.set_token_x_balance
              (nadd (Pair.token_x_balance p) amount_in) p) ;;
          upd_self (fun p =>
            Pair.set_token_y_balance
              (nsub (Pair.token_y_balance p) amount_out) p)
        else ret tt) ;;
       ret amount_out
     else
       amount_out <- swap_y_for_x fuel amount_in sqrt_price_limit ;;
       (if negb simulate then
          upd_self (fun p =>
            Pair.set_token_y_balance
              (nadd (Pair.token_y_balance p) amount_in) p) ;;
          upd_self (fun p =>
            Pair.set_token_x_balance
              (nsub (Pair.token_x_balance p) amount_out) p)
        else ret tt) ;;
       ret amount_out) ;;
  (if simulate then revert_swap original_state else ret tt) ;;
  ret amount_out.

(** [try: ... except Exception: print(...); self.revert_swap(...)].  The
    handler has no [raise] and no [return]: after it the method ends and
    the call evaluates to None. *)
Definition swap (fuel : nat) (token_in_addr : string)
           (amount_in sqrt_price_limit : num) (simulate : bool)
  : Mn (option num) :=
  fun w =>
    let original_state := self w in
    match swap_try fuel original_state token_in_addr amount_in
                   sqrt_price_limit simulate w with
    | (Ok amount_out, w') => (Ok (Some amount_out), w')
    | (Raise _, w') =>
        match revert_swap original_state w' with
        | (_, w'') => (Ok None, w'')
        end
    | (Diverge, w') => (Diverge, w')
    end.

End Model.

(** ** Python's numbers

    An int is exact and unbounded, a float is an IEEE 754 double.  An
    operation on two ints stays an int, except [/]; any other mix converts
    the int to the nearest double first.  Three points are taken at their
    documented accuracy rather than bit for bit: [10 ** e] for a negative
    [e] and [x ** (1/2)] go through the C library's [pow] and are modelled
    by the correctly rounded power and square root, and a comparison of an
    int with a float compares the int's nearest double.  An int beyond
    the range of a double becomes an infinity where Python raises
    OverflowError. *)
Module PyNumber.
Inductive t : Type :=
| PyInt (z : Z)
| PyFloat (f : float).

Definition float_of_Z (z : Z) : float :=
  SF2Prim (binary_normalize prec emax z 0 false).

Definition to_float (a : t) : float :=
  match a with
  | PyInt z => float_of_Z z
  | PyFloat f => f
  end.

Definition add (a b : t) : t :=
  match a, b with
  | PyInt x, PyInt y => PyInt (x + y)
  | _, _ => PyFloat (to_float a + to_float b)
  end.

Definition sub (a b : t) : t :=
  match a, b with
  | PyInt x, PyInt y => PyInt (x - y)
  | _, _ => PyFloat (to_float a - to_float b)
  end.

Definition mul (a b : t) : t :=
  match a, b with
  | PyInt x, PyInt y => PyInt (x * y)
  | _, _ => PyFloat (to_float a * to_float b)
  end.

Definition is_zero (a : t) : bool :=
  match a with
  | PyInt z => z =? 0
  | PyFloat f => PrimFloat.eqb f 0
  end.

Definition truediv (a b : t) : option t :=
  if is_zero b then None else Some (PyFloat (to_float a / to_float b)).

Definition neg (a : t) : t :=
  match a with
  | PyInt z => PyInt (- z)
  | PyFloat f => PyFloat (- f)
  end.

Definition abs (a : t) : t :=
  match a with
  | PyInt z => PyInt (Z.abs z)
  | PyFloat f => PyFloat (PrimFloat.abs f)
  end.

Definition eqb (a b : t) : bool :=
  match a, b with
  | PyInt x, PyInt y => x =? y
  | _, _ => PrimFloat.eqb (to_float a) (to_float b)
  end.

Definition ltb (a b : t) : bool :=
  match a, b with
  | PyInt x, PyInt y => x <? y
  | _, _ => PrimFloat.ltb (to_float a) (to_float b)
  end.

Definition leb (a b : t) : bool :=
  match a, b with
  | PyInt x, PyInt y => x <=? y
  | _, _ => PrimFloat.leb (to_float a) (to_float b)
  end.

(** [int(x)]: truncation toward zero. *)
Definition int (a : t) : exn + Z :=
  match a with
  | PyInt z => inr z
  | PyFloat f =>
      match Prim2SF f with
      | S754_zero _ => inr 0
      | S754_infinity _ => inl OverflowError
      | S754_nan => inl ValueError
      | S754_finite s m e =>
          let v := if 0 <=? e then Zpos m * 2 ^ e else Zpos m / 2 ^ (- e) in
          inr (if s then - v else v)
      end
  end.

(** [round(x)]: to the nearest int, ties to the even one. *)
Definition round (a : t) : exn + Z :=
  match a with
  | PyInt z => inr z
  | PyFloat f =>
      match Prim2SF f with
      | S754_zero _ => inr 0
      | S754_infinity _ => inl OverflowError
      | S754_nan => inl ValueError
      | S754_finite s m e =>
          let v :=
            if 0 <=? e then Zpos m * 2 ^ e
            else
              let q := Zpos m / 2 ^ (- e) in
              let r := Zpos m mod 2 ^ (- e) in
              let half := 2 ^ (- e - 1) in
              if r <? half then q
              else if half <? r then q + 1
              else if Z.even q then q else q + 1 in
          inr (if s then - v else v)
      end
  end.

(** The double nearest to 10^-n: the quotient 2^k / 10^n with a sticky
    bit, rounded once. *)
Definition pow10_neg (n : Z) : float :=
  let k := 64 + 4 * n in
  let q := 2 ^ k / 10 ^ n in
  let r := 2 ^ k mod 10 ^ n in
  SF2Prim (binary_normalize prec emax
             (2 * q + (if r =? 0 then 0 else 1)) (- (k + 1)) false).

Definition pow10 (e : Z) : t :=
  if 0 <=? e then PyInt (10 ^ e) else PyFloat (pow10_neg (- e)).

Definition sqrt (a : t) : t := PyFloat (PrimFloat.sqrt (to_float a)).
End PyNumber.

#[export] Instance PyNumber_PyNum : PyNum PyNumber.t := {
  of_int := PyNumber.PyInt;
  nadd := PyNumber.add;
  nsub := PyNumber.sub;
  nmul := PyNumber.mul;
  ndiv := PyNumber.truediv;
  nneg := PyNumber.neg;
  nabs := PyNumber.abs;
  neqb := PyNumber.eqb;
  nltb := PyNumber.ltb;
  nleb := PyNumber.leb;
  nint := PyNumber.int;
  nround := PyNumber.round;
  npow10 := PyNumber.pow10;
  nsqrt := PyNumber.sqrt
}.

(** ** The tick codec on doubles, by table

    [Pair.tick_to_sqrt_price] and [Pair.sqrt_price_to_tick] once more, on
    Python's numbers and with the constants of the constructor
    (std_increment_distance 9000000, exp_at_price_one -6), written to be
    evaluated over many ticks: the powers of ten are read from tables, an
    int below 2^62 becomes a double by the machine conversion, and the
    integer part of a double is taken by shifts.  The methods of the pool
    are the ones above; these functions are shown to compute the same
    results, and serve to run the methods over a grid of ticks. *)
Module Tabulated.

(** [10 ** e] for [-64 <= e < 64] *)
Definition pow10_table : list PyNumber.t := Eval vm_compute in
  map (fun i => PyNumber.pow10 (Z.of_nat i - 64)) (seq 0 128).

Definition pow10 (e : Z) : PyNumber.t :=
  if (-64 <=? e) && (e <? 64)
  then nth (Z.to_nat (e + 64)) pow10_table (PyNumber.PyInt 0)
  else PyNumber.pow10 e.

(** The two lists of price levels, as the doubles they are compared as. *)
Definition levels_up : list float := Eval vm_compute in
  map PyNumber.to_float (@price_levels_up PyNumber.t _).

Definition levels_down : list float := Eval vm_compute in
  map PyNumber.to_float (@price_levels_down PyNumber.t _).

Definition float_of_Z (z : Z) : float :=
  if (0 <=? z) && (z <? 4611686018427387904)
  then PrimFloat.of_uint63 (Uint63.of_Z z)
  else PyNumber.float_of_Z z.

Definition to_float (a : PyNumber.t) : float :=
  match a with
  | PyNumber.PyInt z => float_of_Z z
  | PyNumber.PyFloat f => f
  end.

Definition add (a b : PyNumber.t) : PyNumber.t :=
  match a, b with
  | PyNumber.PyInt x, PyNumber.PyInt y => PyNumber.PyInt (x + y)
  | _, _ => PyNumber.PyFloat (to_float a + to_float b)
  end.

Definition sub (a b : PyNumber.t) : PyNumber.t :=
  match a, b with
  | PyNumber.PyInt x, PyNumber.PyInt y => PyNumber.PyInt (x - y)
  | _, _ => PyNumber.PyFloat (to_float a - to_float b)
  end.

Definition mul (a b : PyNumber.t) : PyNumber.t :=
  match a, b with
  | PyNumber.PyInt x, PyNumber.PyInt y => PyNumber.PyInt (x * y)
  | _, _ => PyNumber.PyFloat (to_float a * to_float b)
  end.

Definition int (f : float) : exn + Z :=
  match Prim2SF f with
  | S754_zero _ => inr 0
  | S754_infinity _ => inl OverflowError
  | S754_nan => inl ValueError
  | S754_finite s m e =>
      let v :=
        if 0 <=? e then Z.shiftl (Zpos m) e else Z.shiftr (Zpos m) (- e) in
      inr (if s then - v else v)
  end.

Definition round (f : float) : exn + Z :=
  match Prim2SF f with
  | S754_zero _ => inr 0
  | S754_infinity _ => inl OverflowError
  | S754_nan => inl ValueError
  | S754_finite s m e =>
      let v :=
        if 0 <=? e then Z.shiftl (Zpos m) e
        else
          let q := Z.shiftr (Zpos m) (- e) in
          let r := Z.land (Zpos m) (Z.ones (- e)) in
          let half := Z.shiftl 1 (- e - 1) in
          if r <? half then q
          else if half <? r then q + 1
          else if Z.even q then q else q + 1 in
      inr (if s then - v else v)
  end.

(** The first component of [tick_to_sqrt_price]. *)
Definition tick_to_sqrt_price (tick : Z) : Res float :=
  curr_increment_lvl <~
    of_sum (int (PrimFloat.abs (float_of_Z tick / 9000000))) ;;
  if 0 <? tick then
    let curr_additive_increment := pow10 (-6 + curr_increment_lvl) in
    let num_additive_ticks := tick - curr_increment_lvl * 9000000 in
    let price :=
      add (pow10 curr_increment_lvl)
          (mul (PyNumber.PyInt num_additive_ticks) curr_additive_increment) in
    Ok (PrimFloat.sqrt (to_float price))
  else
    let curr_additive_increment := pow10 (-6 - (curr_increment_lvl + 1)) in
    let num_additive_ticks := - tick - curr_increment_lvl * 9000000 in
    let price :=
      sub (pow10 (- curr_increment_lvl))
          (mul (PyNumber.PyInt num_additive_ticks) curr_additive_increment) in
    Ok (PrimFloat.sqrt (to_float price)).

Fixpoint find_level (up : bool) (price : float) (price_levels : list float)
         (i : nat) (rest : list float) : Res (float * Z) :=
  match rest with
  | [] => Raise UnboundLocalError
  | pl :: rest' =>
      if (if up then PrimFloat.ltb pl price else PrimFloat.ltb price pl) then
        nx <~ of_option IndexError (nth_error price_levels (S i)) ;;
        if (if up then PrimFloat.leb price nx else PrimFloat.leb nx price)
        then Ok (pl, Z.of_nat i)
        else find_level up price price_levels (S i) rest'
      else find_level up price price_levels (S i) rest'
  end.

Definition truediv (a : float) (b : PyNumber.t) : Res float :=
  if PyNumber.is_zero b then Raise ZeroDivisionError
  else Ok (a / to_float b)%float.

Definition sqrt_price_to_tick (sqrt_price : float) : Res Z :=
  let price := (sqrt_price * sqrt_price)%float in
  if PrimFloat.eqb price 1 then Ok 0
  else if PrimFloat.ltb 1 price then
    '(price_level, price_level_index) <~
       find_level true price levels_up 0 levels_up ;;
    q <~ truediv (price - price_level) (pow10 (price_level_index - 6)) ;;
    additive_ticks <~ of_sum (round q) ;;
    Ok (price_level_index * 9000000 + additive_ticks)
  else
    '(price_level, price_level_index) <~
       find_level false price levels_down 0 levels_down ;;
    q <~ truediv (price_level - price)
                 (pow10 (-1 * (price_level_index + 7))) ;;
    additive_ticks <~ of_sum (round q) ;;
    Ok (- price_level_index * 9000000 - additive_ticks).


(** [checks n prev tick step] runs over the [n] ticks [tick],
    [tick + step], ...: the sqrt-price of each is above 0 and above the
    sqrt-price of the tick before it ([prev] for the first), and
    [sqrt_price_to_tick] takes it back to the tick. *)
Fixpoint checks (n : nat) (prev : float) (tick step : Z) : bool :=
  match n with
  | O => true
  | S n' =>
      match tick_to_sqrt_price tick with
      | Ok sqrt_price =>
          PrimFloat.ltb 0 sqrt_price
          && PrimFloat.ltb prev sqrt_price
          && match sqrt_price_to_tick sqrt_price with
             | Ok tick' => tick' =? tick
             | _ => false
             end
          && checks n' sqrt_price (tick + step) step
      | _ => false
      end
  end.
End Tabulated.

(** ** The specification's liquidity_to_tokens

    Section 4.6 of the specification: with [pa] and [pb] the sqrt-prices of
    the lower and upper tick and [pc = clamp(p, pa, pb)], the deltas are
    [L (pb - pc) / (pb pc)] and [L (pc - pa)], both floored at 0. *)
Section SpecSide.
Context {num : Type} `{PyNum num}.

Definition clamp (p lo hi : num) : num :=
if nltb p lo then lo else if nltb hi p then hi else p.

Definition liquidity_to_tokens_spec (liquidity : num)
       (lower_tick_idx upper_tick_idx : Z) (sqrt_price : num)
: M num (num * num) :=
p <- get_self ;;
'(p_b, _) <- lift (tick_to_sqrt_price p upper_tick_idx) ;;
'(p_a, _) <- lift (tick_to_sqrt_price p lower_tick_idx) ;;
let p_c := clamp sqrt_price p_a p_b in
delta_x <- div (nmul liquidity (nsub p_b p_c)) (nmul p_b p_c) ;;
let delta_y := nmul liquidity (nsub p_c p_a) in
ret (nmax delta_x (of_int 0), nmax delta_y (of_int 0)).
End SpecSide.

(** ** The life of a pool

  A pool is created by [Pair(...)] and then driven by calls of its
  methods, with any arguments; a Position argument is an object the pool
  has handed out before.  A call that raises leaves the pool as it was
  when the exception left the method. *)
Section Reachable.
Context {num : Type} `{PyNum num}.

Inductive step : World num -> World num -> Prop :=
| step_add_liquidity w owner liquidity lower upper r w' :
add_liquidity owner liquidity lower upper w = (r, w') -> step w w'
| step_remove_liquidity w position liquidity r w' :
(position < List.length (position_objs w))%nat ->
remove_liquidity position liquidity w = (r, w') -> step w w'
| step_collect_fees w position r w' :
(position < List.length (position_objs w))%nat ->
collect_fees position w = (r, w') -> step w w'
| step_withdraw_fees w position r w' :
(position < List.length (position_objs w))%nat ->
withdraw_fees position w = (r, w') -> step w w'
| step_swap w fuel token_in_addr amount_in sqrt_price_limit simulate r w' :
swap fuel token_in_addr amount_in sqrt_price_limit simulate w = (r, w') ->
r <> Diverge -> step w w'.

Inductive reachable : World num -> Prop :=
| reachable_init token_x token_y init_sqrt_price fee_tier tick_spacing w :
init token_x token_y init_sqrt_price fee_tier tick_spacing = Ok w ->
reachable w
| reachable_step w w' : reachable w -> step w w' -> reachable w'.

(** The index of the Tick object behind a reference. *)
Definition tick_idx_at (w : World num) (r : ref) : Z :=
Tick.idx (nth r (tick_objs w) default_tick).

(** What every pool keeps true of its tick maps and Position objects. *)
Record inv (w : World num) : Prop := {
inv_ticks :
forall i r, In (i, r) (Pair.ticks (self w)) ->
  (r < List.length (tick_objs w))%nat /\ tick_idx_at w r = i;
inv_all_ticks :
forall i r, In (i, r) (Pair.all_ticks (self w)) ->
  (r < List.length (tick_objs w))%nat;
inv_subset :
forall i, In i (dict_keys (Pair.ticks (self w))) ->
  In i (dict_keys (Pair.all_ticks (self w)));
inv_positions_dict :
forall k r, In (k, r) (Pair.positions (self w)) ->
  (r < List.length (position_objs w))%nat;
inv_positions :
forall pos, In pos (position_objs w) ->
  (Position.lower_tick pos < List.length (tick_objs w))%nat
  /\ (Position.upper_tick pos < List.length (tick_objs w))%nat
  /\ In (tick_idx_at w (Position.lower_tick pos))
        (dict_keys (Pair.all_ticks (self w)))
  /\ In (tick_idx_at w (Position.upper_tick pos))
        (dict_keys (Pair.all_ticks (self w)))
}.
End Reachable.

(** ** Concrete pools

  Pools over Python's numbers.  Ticks 54000000, 55250000, 59250000 and
  62000000 lie in the price level [10^6, 10^7), where a tick is worth 1:
  their prices are 1000^2, 1500^2, 2500^2 and 3000^2, so their
  sqrt-prices are the doubles 1000, 1500, 2500 and 3000. *)
Module Scenario.
Import PyNumber.
Local Open Scope string_scope.

Definition blank : World t :=
mkWorld (Pair.mk "" "" (PyInt 0) (PyInt 0) (PyInt 0) 0 0 0 (PyInt 0) 0
               [] [] [] (PyInt 0) (PyInt 0) (PyInt 0) (PyInt 0)) [] [].

Definition created (r : Res (World t)) : World t :=
match r with
| Ok w => w
| _ => blank
end.

(** The pool an operation leaves behind. *)
Definition after {A : Type} (m : M t A) (w : World t) : World t := snd (m w).

(** Pair("X", "Y", 1000.0, 0.5, 250000) *)
Definition pool0 : World t :=
created (init "X" "Y" (PyFloat 1000) (PyFloat 0.5) 250000).

(** add_liquidity("A", 2, 54000000, 62000000) *)
Definition pool_A : World t :=
after (add_liquidity "A" (PyInt 2) 54000000 62000000) pool0.

(** add_liquidity("B", 6, 55250000, 59250000) *)
Definition pool_AB : World t :=
after (add_liquidity "B" (PyInt 6) 55250000 59250000) pool_A.

(** The Position objects returned by the two calls. *)
Definition position_A : ref := 0%nat.
Definition position_B : ref := 1%nat.

(** The Tick object of tick 55250000. *)
Definition tick_55250000 : ref := 2%nat.

(** swap("Y", 2000, 1e9): 1000 after fees, over liquidity 2, takes the
sqrt-price from 1000 to 1500, the sqrt-price of tick 55250000. *)
Definition pool_at_boundary : World t :=
after (swap 10 "Y" (PyInt 2000) (PyFloat 1000000000) false) pool_AB.

(** remove_liquidity(position_B, 6) *)
Definition pool_B_removed : World t :=
after (remove_liquidity position_B (PyInt 6)) pool_at_boundary.

(** swap("Y", 2, 1e9) *)
Definition pool_last : World t :=
after (swap 10 "Y" (PyInt 2) (PyFloat 1000000000) false) pool_B_removed.
End Scenario.

(** ** Reasoning about methods

    [stable P m]: [P] holds after [m] whenever it held before, whatever
    the outcome.  [readonly m]: [m] writes nothing. *)
Section Reasoning.
Context {num : Type} `{PyNum num}.

Definition stable {A : Type} (P : World num -> Prop) (m : M num A) : Prop :=
  forall w r w', P w -> m w = (r, w') -> P w'.

Definition readonly {A : Type} (m : M num A) : Prop :=
  forall w, snd (m w) = w.

(** [hoare P m Q E]: from a world in [P], [m] ends in [Q a] when it returns
    [a] and in [E] otherwise. *)
Definition hoare {A : Type} (P : World num -> Prop) (m : M num A)
           (Q : A -> World num -> Prop) (E : World num -> Prop) : Prop :=
  forall w r w', P w -> m w = (r, w') ->
    match r with
    | Ok a => Q a w'
    | _ => E w'
    end.

(** The invariant read with the attributes [p] in place of the current
    ones: what the snapshot of a swap must satisfy to be restored. *)
Definition frame_inv (p : Pair.t num) (w : World num) : Prop :=
  inv (mkWorld p (tick_objs w) (position_objs w)).

Definition swap_inv (p : Pair.t num) (w : World num) : Prop :=
  inv w /\ frame_inv p w.

(** The fields of a Tick that a swap never writes. *)
Definition tick_core (k : Tick.t num) : Z * num * num :=
  (Tick.idx k, Tick.liquidity_net k, Tick.liquidity_gross k).

(** What a swap leaves alone in the object store. *)
Definition store_frame (w0 w : World num) : Prop :=
  position_objs w = position_objs w0
  /\ map tick_core (tick_objs w) = map tick_core (tick_objs w0).


(** A property of the active tick map. *)
Definition on_ticks (T : list (Z * ref) -> Prop) (w : World num) : Prop :=
  T (Pair.ticks (self w)).

(** The keys of the active tick map are distinct, as the keys of a dict
    are. *)
Definition ticks_distinct : World num -> Prop :=
  on_ticks (fun d => NoDup (dict_keys d)).

(** The active ticks are in increasing order, as sort_tick_map leaves
    them. *)
Definition ticks_sorted : World num -> Prop :=
  on_ticks (fun d => StronglySorted Z.lt (dict_keys d)).

(** The active liquidity of the pool is [v]. *)
Definition liquidity_is (v : num) (w : World num) : Prop :=
  Pair.liquidity (self w) = v.
End Reasoning.

(** * Properties *)

(** ** Containers *)

Lemma dict_get_In {V : Type} (i : Z) (r : V) (d : list (Z * V)) :
  dict_get Z.eqb i d = Some r -> In (i, r) d.
Proof.
  induction d as [|[k v] d IH]; simpl; [discriminate|].
  destruct (Z.eqb_spec i k) as [->|Hne]; intros E.
  - injection E as ->. now left.
  - right. now apply IH.
Qed.

Lemma dict_get_keys {V : Type} (i : Z) (d : list (Z * V)) :
  In i (dict_keys d) -> exists r, dict_get Z.eqb i d = Some r.
Proof.
  induction d as [|[k v] d IH]; simpl; [contradiction|].
  intros [->|Hin].
  - rewrite Z.eqb_refl. now exists v.
  - destruct (Z.eqb_spec i k); [now exists v | now apply IH].
Qed.

Lemma In_dict_keys {K V : Type} (k : K) (v : V) (d : list (K * V)) :
  In (k, v) d -> In k (dict_keys d).
Proof. intros Hin. unfold dict_keys. now apply (in_map fst) in Hin. Qed.

Lemma dict_mem_keys {V : Type} (i : Z) (d : list (Z * V)) :
  dict_mem Z.eqb i d = true <-> In i (dict_keys d).
Proof.
  unfold dict_mem. split.
  - destruct (dict_get Z.eqb i d) eqn:E; [|discriminate].
    intros _. eapply In_dict_keys, dict_get_In, E.
  - intros [r ->]%dict_get_keys. reflexivity.
Qed.

Lemma dict_get_set_same {V : Type} (i : Z) (v : V) (d : list (Z * V)) :
  dict_get Z.eqb i (dict_set Z.eqb i v d) = Some v.
Proof.
  induction d as [|[k v'] d IH]; simpl.
  - now rewrite Z.eqb_refl.
  - destruct (Z.eqb_spec i k) as [->|Hne]; simpl.
    + now rewrite Z.eqb_refl.
    + destruct (Z.eqb_spec i k); [contradiction | exact IH].
Qed.

Lemma In_dict_set_Z {V : Type} (i k : Z) (r v : V) (d : list (Z * V)) :
  In (i, r) (dict_set Z.eqb k v d) -> (i = k /\ r = v) \/ In (i, r) d.
Proof.
  induction d as [|[k' v'] d IH]; simpl.
  - intros [E|[]]. injection E as <- <-. now left.
  - destruct (Z.eqb_spec k k') as [->|Hne]; simpl.
    + intros [E|Hin]; [injection E as <- <-; now left | right; now right].
    + intros [E|Hin]; [right; now left|].
      destruct (IH Hin) as [?|?]; [now left | right; now right].
Qed.

Lemma keys_dict_set_Z {V : Type} (i k : Z) (v : V) (d : list (Z * V)) :
  In i (dict_keys (dict_set Z.eqb k v d)) <-> i = k \/ In i (dict_keys d).
Proof.
  induction d as [|[k' v'] d IH]; simpl.
  - intuition.
  - destruct (Z.eqb_spec k k') as [->|Hne]; simpl.
    + intuition.
    + rewrite IH. intuition.
Qed.

Lemma In_dict_set_val {K V : Type} (keq : K -> K -> bool) (k0 k : K) (r v : V)
      (d : list (K * V)) :
  In (k0, r) (dict_set keq k v d) -> r = v \/ In (k0, r) d.
Proof.
  induction d as [|[k' v'] d IH]; simpl.
  - intros [E|[]]. injection E as _ <-. now left.
  - destruct (keq k k'); simpl.
    + intros [E|Hin]; [injection E as _ <-; now left | right; now right].
    + intros [E|Hin]; [right; now left|].
      destruct (IH Hin) as [?|?]; [now left | right; now right].
Qed.

Lemma In_dict_del {K V : Type} (keq : K -> K -> bool) (k : K) (x : K * V)
      (d : list (K * V)) :
  In x (dict_del keq k d) -> In x d.
Proof.
  induction d as [|[k' v'] d IH]; simpl; [easy|].
  destruct (keq k k'); simpl; intuition.
Qed.

Lemma In_insert_sorted {V : Type} (x kv : Z * V) (d : list (Z * V)) :
  In x (insert_sorted kv d) <-> x = kv \/ In x d.
Proof.
  induction d as [|kv' d IH]; simpl.
  - intuition.
  - destruct (fst kv <=? fst kv'); simpl; [intuition|].
    rewrite IH. intuition.
Qed.

Lemma In_sort_items {V : Type} (x : Z * V) (d : list (Z * V)) :
  In x (sort_items d) <-> In x d.
Proof.
  induction d as [|kv d IH]; simpl; [easy|].
  rewrite In_insert_sorted, IH. intuition.
Qed.

Lemma keys_sort_items {V : Type} (i : Z) (d : list (Z * V)) :
  In i (dict_keys (sort_items d)) <-> In i (dict_keys d).
Proof.
  unfold dict_keys. rewrite !in_map_iff.
  split; intros [x [E Hin]]; exists x; split; trivial; now apply In_sort_items.
Qed.

Lemma keys_dict_del {K V : Type} (keq : K -> K -> bool) (k i : K)
      (d : list (K * V)) :
  In i (dict_keys (dict_del keq k d)) -> In i (dict_keys d).
Proof.
  unfold dict_keys. rewrite !in_map_iff.
  intros [x [E Hin]]. exists x. split; trivial. eapply In_dict_del, Hin.
Qed.

(** ** The object store *)

Lemma store_upd_length {A : Type} (r : ref) (f : A -> A) (l : list A) :
  List.length (store_upd r f l) = List.length l.
Proof.
  revert r. induction l as [|a l IH]; intros [|r]; simpl; auto.
Qed.

Lemma store_upd_nth {A : Type} (r r' : ref) (f : A -> A) (l : list A) (d : A) :
  nth r' (store_upd r f l) d =
  if (Nat.eqb r' r && Nat.ltb r (List.length l))%bool
  then f (nth r' l d) else nth r' l d.
Proof.
  revert r r'. induction l as [|a l IH]; intros [|r] [|r']; simpl; auto.
  all: try (destruct (Nat.eqb r' r); reflexivity).
  all: try (rewrite andb_false_r; reflexivity).
Qed.

Lemma store_upd_In {A : Type} (r : ref) (f : A -> A) (l : list A) (x : A) :
  In x (store_upd r f l) -> In x l \/ exists y, In y l /\ x = f y.
Proof.
  revert r. induction l as [|a l IH]; intros [|r]; simpl; try tauto.
  - intros [<-|Hin]; [right; exists a; auto | auto].
  - intros [<-|Hin]; [auto|].
    destruct (IH _ Hin) as [?|[y [? ?]]]; [auto | right; exists y; auto].
Qed.

Lemma store_upd_map {A B : Type} (g : A -> B) (r : ref) (f : A -> A)
      (l : list A) :
  (forall a, g (f a) = g a) -> map g (store_upd r f l) = map g l.
Proof.
  intros Hg. revert r.
  induction l as [|a l IH]; intros [|r]; simpl; try reflexivity.
  - now rewrite Hg.
  - now rewrite IH.
Qed.

(** ** Rules for [stable] and [readonly] *)
Section Rules.
Context {num : Type} `{PyNum num}.
Implicit Types P Q : World num -> Prop.

Lemma world_eta (w : World num) :
  mkWorld (self w) (tick_objs w) (position_objs w) = w.
Proof. destruct w; reflexivity. Qed.

Lemma stable_ret {A : Type} P (a : A) : stable P (ret a).
Proof. intros w r w' HP E. injection E as _ <-. exact HP. Qed.

Lemma stable_raise {A : Type} P (e : exn) : stable P (@raise num A e).
Proof. intros w r w' HP E. injection E as _ <-. exact HP. Qed.

Lemma stable_lift {A : Type} P (x : Res A) : stable P (lift x).
Proof. intros w r w' HP E. injection E as _ <-. exact HP. Qed.

Lemma stable_bind {A B : Type} P (m : M num A) (k : A -> M num B) :
  stable P m -> (forall a, stable P (k a)) -> stable P (bind m k).
Proof.
  intros Hm Hk w r w' HP. unfold bind.
  destruct (m w) as [[a|e|] w1] eqn:E; intros E2.
  - eapply Hk; [eapply Hm; eauto | exact E2].
  - injection E2 as _ <-. eapply Hm; eauto.
  - injection E2 as _ <-. eapply Hm; eauto.
Qed.

Lemma stable_readonly {A : Type} P (m : M num A) : readonly m -> stable P m.
Proof.
  intros Hm w r w' HP E. specialize (Hm w). rewrite E in Hm. simpl in Hm.
  now subst.
Qed.

Lemma stable_conj {A : Type} P Q (m : M num A) :
  stable P m -> stable Q m -> stable (fun w => P w /\ Q w) m.
Proof. intros HP HQ w r w' [? ?] E. split; [eapply HP | eapply HQ]; eauto. Qed.

Lemma stable_upd_self P (f : Pair.t num -> Pair.t num) :
  (forall w, P w -> P (mkWorld (f (self w)) (tick_objs w) (position_objs w))) ->
  stable P (upd_self f).
Proof. intros Hf w r w' HP E. injection E as _ <-. now apply Hf. Qed.

Lemma stable_upd_tick P (r : ref) (f : Tick.t num -> Tick.t num) :
  (forall w, P w ->
     P (mkWorld (self w) (store_upd r f (tick_objs w)) (position_objs w))) ->
  stable P (upd_tick r f).
Proof. intros Hf w x w' HP E. injection E as _ <-. now apply Hf. Qed.

Lemma stable_upd_position P (r : ref) (f : Position.t num -> Position.t num) :
  (forall w, P w ->
     P (mkWorld (self w) (tick_objs w) (store_upd r f (position_objs w)))) ->
  stable P (upd_position r f).
Proof. intros Hf w x w' HP E. injection E as _ <-. now apply Hf. Qed.

Lemma stable_while P (body : loop_vars -> M num loop_vars) (fuel : nat) :
  (forall v, stable P (body v)) ->
  forall v, stable P (while_remaining body fuel v).
Proof.
  intros Hb. induction fuel as [|fuel IH]; intros [[[ao ar] nt] lp]; simpl.
  - destruct (nltb (of_int 0) ar); [apply stable_lift | apply stable_ret].
  - destruct (nltb (of_int 0) ar); [|apply stable_ret].
    apply stable_bind; [apply Hb | apply IH].
Qed.

Lemma readonly_ret {A : Type} (a : A) : readonly (@ret num A a).
Proof. intros w. reflexivity. Qed.

Lemma readonly_raise {A : Type} (e : exn) : readonly (@raise num A e).
Proof. intros w. reflexivity. Qed.

Lemma readonly_lift {A : Type} (x : Res A) : readonly (@lift num A x).
Proof. intros w. reflexivity. Qed.

Lemma readonly_bind {A B : Type} (m : M num A) (k : A -> M num B) :
  readonly m -> (forall a, readonly (k a)) -> readonly (bind m k).
Proof.
  intros Hm Hk w. unfold bind. specialize (Hm w).
  destruct (m w) as [[a|e|] w1]; simpl in *; subst; auto.
  apply Hk.
Qed.

Lemma readonly_get_self : readonly (@get_self num).
Proof. intros w. reflexivity. Qed.

Lemma readonly_tick_obj (r : ref) : readonly (tick_obj r).
Proof. intros w. reflexivity. Qed.

Lemma readonly_position_obj (r : ref) : readonly (position_obj r).
Proof. intros w. reflexivity. Qed.

Lemma readonly_ticks_item (i : Z) : readonly (@ticks_item num i).
Proof. intros w. reflexivity. Qed.

Lemma readonly_all_ticks_item (i : Z) : readonly (@all_ticks_item num i).
Proof. intros w. reflexivity. Qed.

Lemma readonly_positions_item (k : pos_key) : readonly (@positions_item num k).
Proof. intros w. reflexivity. Qed.

Lemma readonly_div (a b : num) : readonly (div a b).
Proof. intros w. reflexivity. Qed.

(** A method that writes nothing returns the world it was given. *)
Lemma readonly_run {A : Type} (m : M num A) (w : World num) :
  readonly m -> m w = (fst (m w), w).
Proof. intros Hm. specialize (Hm w). destruct (m w); simpl in *. now subst. Qed.

End Rules.

Create HintDb readonly.

#[export] Hint Resolve readonly_ret readonly_raise readonly_lift
  readonly_get_self readonly_tick_obj readonly_position_obj
  readonly_ticks_item readonly_all_ticks_item readonly_positions_item
  readonly_div : readonly.

(** Splits a method along its binds and branches. *)
Ltac split_method rule_bind :=
  repeat first
    [ progress cbv beta zeta
    | apply rule_bind; [|intros]
    | match goal with
      | |- _ (match ?x with _ => _ end) => destruct x
      end ].

Ltac prove_readonly :=
  repeat first
    [ progress cbv beta zeta
    | solve [auto with readonly]
    | apply readonly_bind; [|intros]
    | match goal with
      | |- readonly (match ?x with _ => _ end) => destruct x
      end ].

Section ReadonlyMethods.
Context {num : Type} `{PyNum num}.

Lemma readonly_fee_growth_outside (i : Z) : readonly (fee_growth_outside i).
Proof. unfold fee_growth_outside. prove_readonly. Qed.

Lemma readonly_fee_within_range (lo up : ref) : readonly (fee_within_range lo up).
Proof. unfold fee_within_range. prove_readonly. Qed.

Lemma readonly_boundary_ticks (position : ref) :
  readonly (boundary_ticks position).
Proof. unfold boundary_ticks. prove_readonly. Qed.

Lemma readonly_key_of (position : ref) : readonly (key_of position).
Proof. unfold key_of. prove_readonly. Qed.

Lemma readonly_find_next_tick (i : Z) (higher : bool) :
  readonly (@find_next_tick num i higher).
Proof. unfold find_next_tick. prove_readonly. Qed.

Lemma readonly_liquidity_to_tokens (l : num) (lo up : Z) (s : option num) :
  readonly (liquidity_to_tokens l lo up s).
Proof. unfold liquidity_to_tokens. prove_readonly. Qed.

Lemma readonly_x_updated_sqrt_price (a : num) : readonly (x_updated_sqrt_price a).
Proof. unfold x_updated_sqrt_price. prove_readonly. Qed.

Lemma readonly_y_updated_sqrt_price (a : num) : readonly (y_updated_sqrt_price a).
Proof. unfold y_updated_sqrt_price. prove_readonly. Qed.

Lemma readonly_print_liquidity_pct_change :
  readonly (@print_liquidity_pct_change num _).
Proof. unfold print_liquidity_pct_change. prove_readonly. Qed.

End ReadonlyMethods.

#[export] Hint Resolve readonly_fee_growth_outside readonly_fee_within_range
  readonly_boundary_ticks readonly_key_of readonly_find_next_tick
  readonly_liquidity_to_tokens readonly_x_updated_sqrt_price
  readonly_y_updated_sqrt_price readonly_print_liquidity_pct_change : readonly.

Section ReadonlyFees.
Context {num : Type} `{PyNum num}.

Lemma readonly_get_fees (position : ref) : readonly (get_fees position).
Proof. unfold get_fees. prove_readonly. Qed.

End ReadonlyFees.

#[export] Hint Resolve readonly_get_fees : readonly.

(** ** The invariant under the writes of the methods *)
Section InvariantWrites.
Context {num : Type} `{PyNum num}.
Implicit Types (p : Pair.t num) (ts : list (Tick.t num))
         (ps : list (Position.t num)).

Lemma inv_change_self p p' ts ps :
  Pair.ticks p' = Pair.ticks p ->
  Pair.all_ticks p' = Pair.all_ticks p ->
  Pair.positions p' = Pair.positions p ->
  inv (mkWorld p ts ps) -> inv (mkWorld p' ts ps).
Proof.
  intros Et Ea Ep [I1 I2 I3 I4 I5].
  constructor; unfold tick_idx_at in *; simpl in *;
    rewrite ?Et, ?Ea, ?Ep; assumption.
Qed.

Lemma inv_store_tick p ts ps (r : ref) (f : Tick.t num -> Tick.t num) :
  (forall k, Tick.idx (f k) = Tick.idx k) ->
  inv (mkWorld p ts ps) -> inv (mkWorld p (store_upd r f ts) ps).
Proof.
  intros Hf [I1 I2 I3 I4 I5].
  assert (Hidx : forall r', Tick.idx (nth r' (store_upd r f ts) default_tick)
                            = Tick.idx (nth r' ts default_tick)).
  { intros r'. rewrite store_upd_nth.
    destruct (Nat.eqb r' r && Nat.ltb r (List.length ts))%bool; auto. }
  constructor; unfold tick_idx_at in *; simpl in *;
    intros; rewrite ?store_upd_length, ?Hidx; eauto.
Qed.

Lemma inv_store_position p ts ps (r : ref)
      (f : Position.t num -> Position.t num) :
  (forall q, Position.lower_tick (f q) = Position.lower_tick q
             /\ Position.upper_tick (f q) = Position.upper_tick q) ->
  inv (mkWorld p ts ps) -> inv (mkWorld p ts (store_upd r f ps)).
Proof.
  intros Hf [I1 I2 I3 I4 I5].
  constructor; unfold tick_idx_at in *; simpl in *; eauto.
  - intros k r' Hin. rewrite store_upd_length. eauto.
  - intros pos [Hin|[q [Hin ->]]]%store_upd_In; [auto|].
    destruct (Hf q) as [-> ->]. auto.
Qed.

Lemma inv_sub_ticks p ts ps (d : list (Z * ref)) :
  (forall x, In x d -> In x (Pair.ticks p)) ->
  inv (mkWorld p ts ps) -> inv (mkWorld (Pair.set_ticks d p) ts ps).
Proof.
  intros Hd [I1 I2 I3 I4 I5].
  constructor; unfold tick_idx_at in *; simpl in *; auto.
  intros i Hin. apply I3. unfold dict_keys in *.
  apply in_map_iff in Hin as [x [E Hin]]. apply in_map_iff.
  exists x. auto.
Qed.

Lemma inv_sub_positions p ts ps (d : list (pos_key * ref)) :
  (forall x, In x d -> In x (Pair.positions p)) ->
  inv (mkWorld p ts ps) -> inv (mkWorld (Pair.set_positions d p) ts ps).
Proof.
  intros Hd [I1 I2 I3 I4 I5].
  constructor; unfold tick_idx_at in *; simpl in *; eauto.
Qed.

Lemma inv_set_position p ts ps (key : pos_key) (r : ref) :
  (r < List.length ps)%nat ->
  inv (mkWorld p ts ps) ->
  inv (mkWorld (Pair.set_positions
                  (dict_set pos_key_eqb key r (Pair.positions p)) p) ts ps).
Proof.
  intros Hr [I1 I2 I3 I4 I5].
  constructor; unfold tick_idx_at in *; simpl in *; auto.
  intros k r' [->|Hin]%In_dict_set_val; eauto.
Qed.

(** A new Tick object entered in both maps under its own index. *)
Lemma inv_new_tick p ts ps (k : Tick.t num) :
  inv (mkWorld p ts ps) ->
  inv (mkWorld
         (Pair.set_all_ticks
            (dict_set Z.eqb (Tick.idx k) (List.length ts) (Pair.all_ticks p))
            (Pair.set_ticks
               (dict_set Z.eqb (Tick.idx k) (List.length ts) (Pair.ticks p)) p))
         (ts ++ [k]) ps).
Proof.
  intros [I1 I2 I3 I4 I5].
  assert (Hold : forall r, (r < List.length ts)%nat ->
                   nth r (ts ++ [k]) default_tick = nth r ts default_tick).
  { intros r Hr. now apply app_nth1. }
  assert (Hnew : nth (List.length ts) (ts ++ [k]) default_tick = k).
  { rewrite app_nth2, Nat.sub_diag by lia. reflexivity. }
  constructor; unfold tick_idx_at in *; simpl in *;
    rewrite ?length_app; simpl.
  - intros i r [[-> ->]|Hin]%In_dict_set_Z.
    + rewrite Hnew. split; [lia | reflexivity].
    + destruct (I1 _ _ Hin) as [Hr Hi]. rewrite Hold by exact Hr.
      split; [lia | exact Hi].
  - intros i r [[-> ->]|Hin]%In_dict_set_Z; [lia|].
    specialize (I2 _ _ Hin). lia.
  - intros i Hin. apply keys_dict_set_Z.
    apply keys_dict_set_Z in Hin as [->|Hin]; auto.
  - exact I4.
  - intros pos Hin. destruct (I5 _ Hin) as (Hl & Hu & Hil & Hiu).
    rewrite !Hold by assumption.
    repeat split; try lia; apply keys_dict_set_Z; auto.
Qed.

Lemma inv_new_position p ts ps (pos : Position.t num) :
  (Position.lower_tick pos < List.length ts)%nat ->
  (Position.upper_tick pos < List.length ts)%nat ->
  In (Tick.idx (nth (Position.lower_tick pos) ts default_tick))
     (dict_keys (Pair.all_ticks p)) ->
  In (Tick.idx (nth (Position.upper_tick pos) ts default_tick))
     (dict_keys (Pair.all_ticks p)) ->
  inv (mkWorld p ts ps) -> inv (mkWorld p ts (ps ++ [pos])).
Proof.
  intros Hl Hu Hil Hiu [I1 I2 I3 I4 I5].
  constructor; unfold tick_idx_at in *; simpl in *; auto.
  - intros k r Hin. rewrite length_app. specialize (I4 _ _ Hin). lia.
  - intros q [Hin|[<-|[]]]%in_app_or; auto.
Qed.

(** *** The writes as [stable] facts *)

Lemma stable_inv_upd_self (f : Pair.t num -> Pair.t num) :
  (forall p, Pair.ticks (f p) = Pair.ticks p
             /\ Pair.all_ticks (f p) = Pair.all_ticks p
             /\ Pair.positions (f p) = Pair.positions p) ->
  stable inv (upd_self f).
Proof.
  intros Hf. apply stable_upd_self. intros w Hw.
  destruct (Hf (self w)) as (? & ? & ?).
  eapply inv_change_self; eauto. now rewrite world_eta.
Qed.

Lemma stable_inv_upd_tick (r : ref) (f : Tick.t num -> Tick.t num) :
  (forall k, Tick.idx (f k) = Tick.idx k) -> stable inv (upd_tick r f).
Proof.
  intros Hf. apply stable_upd_tick. intros w Hw.
  apply inv_store_tick; trivial. now rewrite world_eta.
Qed.

Lemma stable_inv_upd_position (r : ref)
      (f : Position.t num -> Position.t num) :
  (forall q, Position.lower_tick (f q) = Position.lower_tick q
             /\ Position.upper_tick (f q) = Position.upper_tick q) ->
  stable inv (upd_position r f).
Proof.
  intros Hf. apply stable_upd_position. intros w Hw.
  apply inv_store_position; trivial. now rewrite world_eta.
Qed.

Lemma stable_inv_sort_tick_map : stable inv (@sort_tick_map num).
Proof.
  apply stable_upd_self. intros w Hw. apply inv_sub_ticks.
  - intros x. apply In_sort_items.
  - now rewrite world_eta.
Qed.

Lemma stable_inv_ticks_del (i : Z) : stable inv (@ticks_del num i).
Proof.
  intros w r w' Hw. unfold ticks_del, bind, get_self, upd_self, raise.
  destruct (dict_mem Z.eqb i (Pair.ticks (self w))); intros E;
    injection E as _ <-; trivial.
  apply inv_sub_ticks; [intros x; apply In_dict_del | now rewrite world_eta].
Qed.

Lemma stable_inv_positions_del (k : pos_key) : stable inv (@positions_del num k).
Proof.
  intros w r w' Hw. unfold positions_del, bind, get_self, upd_self, raise.
  destruct (dict_mem pos_key_eqb k (Pair.positions (self w))); intros E;
    injection E as _ <-; trivial.
  apply inv_sub_positions; [intros x; apply In_dict_del | now rewrite world_eta].
Qed.

(** The same writes against a fixed snapshot of the attributes. *)
Lemma stable_frame_upd_self p (f : Pair.t num -> Pair.t num) :
  stable (frame_inv p) (upd_self f).
Proof. apply stable_upd_self. intros w Hw. exact Hw. Qed.

Lemma stable_frame_upd_tick p (r : ref) (f : Tick.t num -> Tick.t num) :
  (forall k, Tick.idx (f k) = Tick.idx k) ->
  stable (frame_inv p) (upd_tick r f).
Proof.
  intros Hf. apply stable_upd_tick. intros w Hw.
  apply inv_store_tick; trivial.
Qed.

End InvariantWrites.

Create HintDb stable_inv.
Create HintDb stable_frame.

#[export] Hint Resolve stable_inv_sort_tick_map stable_inv_ticks_del
  stable_inv_positions_del : stable_inv.

(** Goes through a method: [leaf] closes the writes, the binds and branches
    are split, a part that writes nothing is closed at once. *)
Ltac stable_method leaf :=
  repeat first
    [ progress cbv beta zeta
    | apply stable_ret
    | apply stable_raise
    | apply stable_lift
    | apply stable_readonly; solve [auto with readonly]
    | leaf
    | apply stable_bind; [|intros]
    | match goal with
      | |- stable _ (match ?x with _ => _ end) => destruct x
      end ].

Ltac inv_leaf :=
  first
    [ solve [auto with stable_inv]
    | apply stable_inv_upd_self; solve [intros; repeat split; reflexivity]
    | apply stable_inv_upd_tick; solve [intros; reflexivity]
    | apply stable_inv_upd_position; solve [intros; split; reflexivity] ].

Ltac frame_leaf :=
  first
    [ solve [auto with stable_frame]
    | apply stable_frame_upd_self
    | apply stable_frame_upd_tick; solve [intros; reflexivity] ].

Section InvariantMethods.
Context {num : Type} `{PyNum num}.

Lemma stable_inv_ticks_item_upd (i : Z) (f : Tick.t num -> Tick.t num) :
  (forall k, Tick.idx (f k) = Tick.idx k) -> stable inv (ticks_item_upd i f).
Proof.
  intros Hf. unfold ticks_item_upd. apply stable_bind.
  - apply stable_readonly. auto with readonly.
  - intros r. now apply stable_inv_upd_tick.
Qed.

Lemma stable_inv_bump_tick (i : Z) (net gross : num -> num) :
  stable inv (bump_tick i net gross).
Proof.
  unfold bump_tick.
  apply stable_bind; [|intros _];
    apply stable_inv_ticks_item_upd; intros; reflexivity.
Qed.

Lemma stable_inv_update_tick_map (i : Z) : stable inv (update_tick_map i).
Proof. unfold update_tick_map. stable_method inv_leaf. Qed.

Lemma stable_inv_collect_fees (position : ref) :
  stable inv (collect_fees position).
Proof. unfold collect_fees. stable_method inv_leaf. Qed.

End InvariantMethods.

#[export] Hint Resolve stable_inv_bump_tick stable_inv_update_tick_map
  stable_inv_collect_fees : stable_inv.

(** ** Rules for [hoare] *)
Section HoareRules.
Context {num : Type} `{PyNum num}.
Implicit Types P E : World num -> Prop.

Lemma hoare_bind {A B : Type} P E (Q : A -> World num -> Prop)
      (R : B -> World num -> Prop) (m : M num A) (k : A -> M num B) :
  hoare P m Q E -> (forall a, hoare (Q a) (k a) R E) -> hoare P (bind m k) R E.
Proof.
  intros Hm Hk w r w' HP. unfold bind.
  destruct (m w) as [[a|e|] w1] eqn:Em; intros E2.
  - eapply Hk; [|exact E2]. exact (Hm _ _ _ HP Em).
  - injection E2 as <- <-. exact (Hm _ _ _ HP Em).
  - injection E2 as <- <-. exact (Hm _ _ _ HP Em).
Qed.

Lemma hoare_of_stable {A : Type} P (m : M num A) :
  stable P m -> hoare P m (fun _ => P) P.
Proof. intros Hm w r w' HP E. destruct r; eapply Hm; eauto. Qed.

Lemma stable_of_hoare {A : Type} P (Q : A -> World num -> Prop) (m : M num A) :
  hoare P m Q P -> (forall a w, Q a w -> P w) -> stable P m.
Proof.
  intros Hm HQ w r w' HP E. specialize (Hm _ _ _ HP E).
  destruct r; eauto.
Qed.

Lemma hoare_pre {A : Type} P P' E (Q : A -> World num -> Prop) (m : M num A) :
  (forall w, P' w -> P w) -> hoare P m Q E -> hoare P' m Q E.
Proof. intros HPP Hm w r w' HP. apply Hm. auto. Qed.

(** A method that writes nothing keeps what held, and tells what it read. *)
Lemma hoare_read {A : Type} P E (m : M num A) :
  readonly m -> (forall w, P w -> E w) ->
  hoare P m (fun a w => P w /\ fst (m w) = Ok a) E.
Proof.
  intros Hm HE w r w' HP Em. rewrite (readonly_run m w Hm) in Em.
  injection Em as <- <-. destruct (fst (m w)); auto.
Qed.

End HoareRules.

(** ** The invariant under the liquidity methods *)
Section InvariantLiquidity.
Context {num : Type} `{PyNum num}.

Lemma dict_get_In_val {K V : Type} (keq : K -> K -> bool) (k : K) (v : V)
      (d : list (K * V)) :
  dict_get keq k d = Some v -> exists k', In (k', v) d.
Proof.
  induction d as [|[k' v'] d IH]; simpl; [discriminate|].
  destruct (keq k k').
  - intros E. injection E as ->. exists k'. now left.
  - intros E. destruct (IH E) as [k0 ?]. exists k0. now right.
Qed.

Lemma stable_inv_touch_boundary (b : Z) (liquidity net0 : num)
      (net : num -> num) :
  stable inv (touch_boundary b liquidity net0 net).
Proof.
  unfold touch_boundary.
  apply stable_bind; [apply stable_readonly; auto with readonly|].
  intros p.
  destruct (negb (dict_mem Z.eqb b (Pair.ticks p)));
    [|apply stable_inv_bump_tick].
  apply stable_bind; [apply stable_readonly; auto with readonly|].
  intros [outside_x outside_y] w r w' Hw.
  unfold bind, new_tick, upd_self, ticks_item. simpl.
  rewrite dict_get_set_same. simpl. intros E. injection E as _ <-.
  apply (inv_new_tick _ _ _ (Tick.mk b net0 liquidity outside_x outside_y)).
  now rewrite world_eta.
Qed.

(** The position that add_liquidity creates or updates is an object of the
    store. *)
Lemma hoare_positions_item (k : pos_key) :
  hoare inv (positions_item k)
        (fun r w => inv w /\ (r < List.length (position_objs w))%nat) inv.
Proof.
  intros w r w' Hw. unfold positions_item.
  destruct (dict_get pos_key_eqb k (Pair.positions (self w))) as [r0|] eqn:E;
    simpl; intros E2; injection E2 as <- <-; trivial.
  split; trivial. destruct (dict_get_In_val _ _ _ _ E) as [k' Hin].
  eapply inv_positions_dict; eauto.
Qed.

Lemma hoare_new_position (owner : string) (liquidity fx fy : num)
      (lower upper : Z) (lo up : ref) :
  hoare (fun w => (inv w /\ fst (ticks_item lower w) = Ok lo)
                  /\ fst (ticks_item upper w) = Ok up)
        (new_position (Position.mk owner liquidity lo up fx fy
                                   (of_int 0) (of_int 0)))
        (fun r w => inv w /\ (r < List.length (position_objs w))%nat) inv.
Proof.
  intros w r w' [[Hw Hlo] Hup]. unfold new_position.
  intros E. injection E as Er Ew. subst r w'. simpl.
  unfold ticks_item in Hlo, Hup. simpl in Hlo, Hup.
  destruct (dict_get Z.eqb lower (Pair.ticks (self w))) as [lo'|] eqn:El;
    [|discriminate]. injection Hlo as ->.
  destruct (dict_get Z.eqb upper (Pair.ticks (self w))) as [up'|] eqn:Eu;
    [|discriminate]. injection Hup as ->.
  apply dict_get_In in El, Eu.
  destruct (inv_ticks _ Hw _ _ El) as [Hl1 Hl2].
  destruct (inv_ticks _ Hw _ _ Eu) as [Hu1 Hu2].
  split; [|rewrite length_app; simpl; lia].
  apply inv_new_position; simpl; trivial.
  - unfold tick_idx_at in Hl2. rewrite Hl2.
    eapply inv_subset, In_dict_keys; eauto.
  - unfold tick_idx_at in Hu2. rewrite Hu2.
    eapply inv_subset, In_dict_keys; eauto.
  - now rewrite world_eta.
Qed.

Lemma stable_inv_add_liquidity (owner : string) (liquidity : num)
      (lower upper : Z) :
  stable inv (add_liquidity owner liquidity lower upper).
Proof.
  unfold add_liquidity.
  apply stable_bind; [apply stable_readonly; auto with readonly|]. intros p0.
  apply stable_bind; [stable_method inv_leaf|]. intros _.
  apply stable_bind; [apply stable_readonly; auto with readonly|]. intros p.
  apply stable_bind; [|intros; stable_method inv_leaf].
  match goal with |- stable _ (if ?b then _ else _) => destruct b end.
  { stable_method inv_leaf. }
  apply stable_bind; [apply stable_inv_touch_boundary|]. intros _.
  apply stable_bind; [apply stable_inv_touch_boundary|]. intros _.
  apply stable_bind; [apply stable_readonly; auto with readonly|]. intros p1.
  (* the position, then its entry in self.positions *)
  apply stable_of_hoare
    with (Q := fun (_ : ref) => inv); [|auto].
  eapply hoare_bind
    with (Q := fun r w => inv w /\ (r < List.length (position_objs w))%nat).
  - destruct (dict_mem pos_key_eqb (owner, lower, upper) (Pair.positions p1)).
    + eapply hoare_bind; [apply hoare_of_stable; stable_method inv_leaf|].
      intros r; cbv beta.
      eapply hoare_bind; [apply hoare_of_stable; stable_method inv_leaf|].
      intros ?; cbv beta.
      eapply hoare_bind; [apply hoare_of_stable; stable_method inv_leaf|].
      intros r'; cbv beta.
      eapply hoare_bind; [apply hoare_of_stable; stable_method inv_leaf|].
      intros ?; cbv beta. apply hoare_positions_item.
    + eapply hoare_bind; [apply hoare_of_stable; stable_method inv_leaf|].
      intros lo0; cbv beta.
      eapply hoare_bind; [apply hoare_of_stable; stable_method inv_leaf|].
      intros up0; cbv beta.
      eapply hoare_bind; [apply hoare_of_stable; stable_method inv_leaf|].
      intros [fx fy]; cbv beta.
      eapply hoare_bind;
        [apply hoare_read; [auto with readonly | trivial]|].
      intros lo; cbv beta.
      eapply hoare_bind;
        [apply hoare_read; [auto with readonly | intros w [? _]; trivial]|].
      intros up; cbv beta. apply hoare_new_position.
  - intros position w r w' [Hw Hr].
    unfold bind, upd_self, ret. intros E. injection E as <- <-.
    apply inv_set_position; trivial. now rewrite world_eta.
Qed.

Lemma stable_inv_remove_liquidity (position : ref) (liquidity : num) :
  stable inv (remove_liquidity position liquidity).
Proof. unfold remove_liquidity. stable_method inv_leaf. Qed.

Lemma stable_inv_withdraw_fees (position : ref) :
  stable inv (withdraw_fees position).
Proof. unfold withdraw_fees. stable_method inv_leaf. Qed.

End InvariantLiquidity.

(** ** What a swap writes

    A swap assigns attributes other than the three dictionaries and the
    fee_growth_outside fields of Tick objects.  Any property kept by these
    two kinds of writes is kept by the swap loops. *)
Section SwapWrites.
Context {num : Type} `{PyNum num}.
Variable P : World num -> Prop.
Hypothesis P_self :
  forall f : Pair.t num -> Pair.t num,
    (forall p, Pair.ticks (f p) = Pair.ticks p
               /\ Pair.all_ticks (f p) = Pair.all_ticks p
               /\ Pair.positions (f p) = Pair.positions p) ->
    stable P (upd_self f).
Hypothesis P_tick :
  forall (r : ref) (f : Tick.t num -> Tick.t num),
    (forall k, tick_core (f k) = tick_core k) -> stable P (upd_tick r f).

Ltac swap_leaf :=
  first
    [ apply P_self; solve [intros; repeat split; reflexivity]
    | apply P_tick; solve [intros; reflexivity] ].

Lemma stable_flip_fee_growth_outside : stable P flip_fee_growth_outside.
Proof.
  unfold flip_fee_growth_outside, ticks_item_upd. stable_method swap_leaf.
Qed.

Lemma stable_x_within (ao : num) (nt : Z) (lp : num) (fd : Z) (up : num) :
  stable P (x_within ao nt lp fd up).
Proof. unfold x_within. stable_method swap_leaf. Qed.

Lemma stable_y_within (ao : num) (nt : Z) (lp : num) (fd : Z) (up : num) :
  stable P (y_within ao nt lp fd up).
Proof. unfold y_within. stable_method swap_leaf. Qed.

Lemma stable_x_cross (ao ar : num) (nt : Z) (lp : num) :
  stable P (x_cross ao ar nt lp).
Proof.
  unfold x_cross.
  stable_method ltac:(first [swap_leaf | apply stable_flip_fee_growth_outside]).
Qed.

Lemma stable_y_cross (ao ar : num) (nt : Z) (lp : num) :
  stable P (y_cross ao ar nt lp).
Proof.
  unfold y_cross.
  stable_method ltac:(first [swap_leaf | apply stable_flip_fee_growth_outside]).
Qed.

Lemma stable_x_body (limit : num) (v : loop_vars) : stable P (x_body limit v).
Proof.
  unfold x_body. destruct v as [[[ao ar] nt] lp].
  stable_method ltac:(first [apply stable_x_within | apply stable_x_cross]).
Qed.

Lemma stable_y_body (limit : num) (v : loop_vars) : stable P (y_body limit v).
Proof.
  unfold y_body. destruct v as [[[ao ar] nt] lp].
  stable_method ltac:(first [apply stable_y_within | apply stable_y_cross]).
Qed.

Lemma stable_swap_x_for_y (fuel : nat) (amount_in limit : num) :
  stable P (swap_x_for_y fuel amount_in limit).
Proof.
  unfold swap_x_for_y.
  stable_method ltac:(apply stable_while; intros; apply stable_x_body).
Qed.

Lemma stable_swap_y_for_x (fuel : nat) (amount_in limit : num) :
  stable P (swap_y_for_x fuel amount_in limit).
Proof.
  unfold swap_y_for_x.
  stable_method ltac:(apply stable_while; intros; apply stable_y_body).
Qed.

(** The [try] block, given that restoring the snapshot keeps [P]. *)
Lemma stable_swap_try (fuel : nat) (original_state : Pair.t num)
      (token : string) (amount_in limit : num) (simulate : bool) :
  stable P (revert_swap original_state) ->
  stable P (swap_try fuel original_state token amount_in limit simulate).
Proof.
  intros Hrev. unfold swap_try.
  stable_method
    ltac:(first [ swap_leaf | apply stable_swap_x_for_y
                | apply stable_swap_y_for_x | apply Hrev ]).
Qed.

End SwapWrites.

Section InvariantSwap.
Context {num : Type} `{PyNum num}.

Lemma tick_core_idx (f : Tick.t num -> Tick.t num) :
  (forall k, tick_core (f k) = tick_core k) ->
  forall k, Tick.idx (f k) = Tick.idx k.
Proof.
  intros Hf k. specialize (Hf k). unfold tick_core in Hf. congruence.
Qed.

Lemma swap_inv_self (p0 : Pair.t num) (f : Pair.t num -> Pair.t num) :
  (forall p, Pair.ticks (f p) = Pair.ticks p
             /\ Pair.all_ticks (f p) = Pair.all_ticks p
             /\ Pair.positions (f p) = Pair.positions p) ->
  stable (swap_inv p0) (upd_self f).
Proof.
  intros Hf. apply stable_conj.
  - now apply stable_inv_upd_self.
  - apply stable_frame_upd_self.
Qed.

Lemma swap_inv_tick (p0 : Pair.t num) (r : ref)
      (f : Tick.t num -> Tick.t num) :
  (forall k, tick_core (f k) = tick_core k) ->
  stable (swap_inv p0) (upd_tick r f).
Proof.
  intros Hf. pose proof (tick_core_idx f Hf) as Hi. apply stable_conj.
  - now apply stable_inv_upd_tick.
  - now apply stable_frame_upd_tick.
Qed.

Lemma swap_inv_revert (p0 : Pair.t num) :
  stable (swap_inv p0) (revert_swap p0).
Proof.
  apply stable_upd_self. intros w [_ Hw]. split; exact Hw.
Qed.

Lemma stable_inv_swap (fuel : nat) (token : string) (amount_in limit : num)
      (simulate : bool) :
  stable inv (swap fuel token amount_in limit simulate).
Proof.
  intros w r w' Hw. unfold swap.
  assert (Hs : swap_inv (self w) w).
  { split; trivial. unfold frame_inv. now rewrite world_eta. }
  pose proof (stable_swap_try (swap_inv (self w)) (swap_inv_self _)
                (swap_inv_tick _) fuel (self w) token amount_in limit simulate
                (swap_inv_revert _)) as Htry.
  destruct (swap_try fuel (self w) token amount_in limit simulate w)
    as [[a|e|] w1] eqn:E; specialize (Htry _ _ _ Hs E).
  - intros E2. injection E2 as _ <-. apply Htry.
  - intros E2. injection E2 as _ <-. apply Htry.
  - intros E2. injection E2 as _ <-. apply Htry.
Qed.

Lemma init_inv (tx ty : string) (price fee : num) (spacing : Z)
      (w : World num) :
  init tx ty price fee spacing = Ok w -> inv w.
Proof.
  unfold init.
  destruct (sqrt_price_to_tick _ price) as [tick| |]; simpl; try discriminate.
  intros E. injection E as <-.
  constructor; simpl; intros; contradiction.
Qed.

(** Every pool a sequence of calls can lead to satisfies the invariant. *)
Lemma reachable_inv (w : World num) : reachable w -> inv w.
Proof.
  induction 1 as [tx ty price fee spacing w E | w w' Hreach IH Hstep].
  - eapply init_inv, E.
  - destruct Hstep.
    + eapply stable_inv_add_liquidity; eauto.
    + eapply stable_inv_remove_liquidity; eauto.
    + eapply stable_inv_collect_fees; eauto.
    + eapply stable_inv_withdraw_fees; eauto.
    + eapply stable_inv_swap; eauto.
Qed.

(** With its boundaries in all_ticks, the settlement of a position finds
    both ticks. *)
Lemma get_fees_ok (w : World num) (position : ref) :
  inv w -> (position < List.length (position_objs w))%nat ->
  exists fees, get_fees position w = (Ok fees, w).
Proof.
  intros Hw Hp.
  destruct (inv_positions _ Hw (nth position (position_objs w) default_position)
              (nth_In _ _ Hp)) as (_ & _ & Hl & Hu).
  apply dict_get_keys in Hl as [rl El], Hu as [ru Eu].
  unfold tick_idx_at in El, Eu.
  unfold get_fees, boundary_ticks, fee_within_range, bind, position_obj,
    tick_obj, all_ticks_item, get_self, ret. simpl.
  rewrite El. simpl. rewrite Eu. simpl. eexists. reflexivity.
Qed.

Lemma collect_fees_ok (w : World num) (position : ref) :
  inv w -> (position < List.length (position_objs w))%nat ->
  exists fees w', collect_fees position w = (Ok fees, w').
Proof.
  intros Hw Hp. destruct (get_fees_ok w position Hw Hp) as [[fx fy] Hget].
  destruct (inv_positions _ Hw (nth position (position_objs w) default_position)
              (nth_In _ _ Hp)) as (_ & _ & Hl & Hu).
  apply dict_get_keys in Hl as [rl El], Hu as [ru Eu].
  unfold tick_idx_at in El, Eu.
  unfold collect_fees. unfold bind at 1. rewrite Hget.
  unfold boundary_ticks, fee_within_range, bind, position_obj,
    tick_obj, all_ticks_item, get_self, upd_position, ret. simpl.
  rewrite El. simpl. rewrite Eu. simpl. do 2 eexists. reflexivity.
Qed.

End InvariantSwap.

(** Case analysis on an innermost [match] of the goal. *)
Ltac break_match :=
  match goal with
  | |- context [match ?x with _ => _ end] =>
      lazymatch x with
      | context [match _ with _ => _ end] => fail
      | _ => destruct x eqn:?
      end
  end.

Section Claims.
Context {num : Type} `{PyNum num}.

(** C9.  In every reachable pool state, every active tick is a key of
    all_ticks, every registered position is a Position object of the pool,
    and both boundary ticks of every Position object are keys of all_ticks;
    get_fees on such a position returns, writing nothing, and collect_fees
    returns: neither fails on a missing key. *)
Theorem settlement_finds_boundary_ticks (w : World num) :
  reachable w ->
  (forall i, In i (dict_keys (Pair.ticks (self w))) ->
             In i (dict_keys (Pair.all_ticks (self w))))
  /\ (forall key position, In (key, position) (Pair.positions (self w)) ->
        (position < List.length (position_objs w))%nat)
  /\ (forall position, (position < List.length (position_objs w))%nat ->
        let pos := nth position (position_objs w) default_position in
        In (tick_idx_at w (Position.lower_tick pos))
           (dict_keys (Pair.all_ticks (self w)))
        /\ In (tick_idx_at w (Position.upper_tick pos))
              (dict_keys (Pair.all_ticks (self w)))
        /\ (exists fees, get_fees position w = (Ok fees, w))
        /\ (exists fees w', collect_fees position w = (Ok fees, w'))).
Proof.
  intros Hw%reachable_inv. split; [|split].
  - apply (inv_subset _ Hw).
  - apply (inv_positions_dict _ Hw).
  - intros position Hp pos.
    destruct (inv_positions _ Hw pos (nth_In _ _ Hp)) as (_ & _ & Hl & Hu).
    repeat split; trivial.
    + now apply get_fees_ok.
    + now apply collect_fees_ok.
Qed.

(** ** C1 *)

Lemma store_frame_self (w0 : World num) (f : Pair.t num -> Pair.t num) :
  stable (store_frame w0) (upd_self f).
Proof. apply stable_upd_self. intros w Hw. exact Hw. Qed.

Lemma store_frame_tick (w0 : World num) (r : ref)
      (f : Tick.t num -> Tick.t num) :
  (forall k, tick_core (f k) = tick_core k) ->
  stable (store_frame w0) (upd_tick r f).
Proof.
  intros Hf. apply stable_upd_tick. intros w [Hp Ht]. split; simpl; trivial.
  now rewrite store_upd_map.
Qed.

Lemma swap_catches_every_exception (fuel : nat) (token : string)
      (amount_in limit : num) (simulate : bool) (w : World num) (e : exn) :
  fst (swap fuel token amount_in limit simulate w) <> Raise e.
Proof.
  unfold swap.
  destruct (swap_try fuel (self w) token amount_in limit simulate w)
    as [[a|e'|] w1]; simpl; discriminate.
Qed.

(** C1 (amended).  When the body of swap raises an exception, whichever
    it is, swap returns None over the attributes saved at entry: it raises
    nothing, and the caller sees a normal return.  The Position objects
    are as before the call, and so are the index, liquidity_net and
    liquidity_gross of every Tick object. *)
Theorem failed_swap_returns_None (fuel : nat) (token : string)
        (amount_in limit : num) (simulate : bool) (w w1 : World num)
        (e : exn) :
  swap_try fuel (self w) token amount_in limit simulate w = (Raise e, w1) ->
  swap fuel token amount_in limit simulate w
  = (Ok None, mkWorld (self w) (tick_objs w1) (position_objs w1))
  /\ store_frame w w1
  /\ fst (swap fuel token amount_in limit simulate w) <> Raise e.
Proof.
  intros E. split; [|split].
  - unfold swap. rewrite E. reflexivity.
  - eapply (stable_swap_try (store_frame w)); eauto.
    + intros f _. apply store_frame_self.
    + apply store_frame_tick.
    + apply store_frame_self.
    + split; reflexivity.
  - apply swap_catches_every_exception.
Qed.

(** C5 (amended).  With sqrt-prices pa and pb of the range edges,
    liquidity_to_tokens at the sqrt-price p returns
    max(L * (pb - p) / (pb * p), 0) and max(L * (p - pa), 0), with p as it
    is given; when pa <= p <= pb this is the result of the formula with
    the clamp. *)
Theorem liquidity_to_tokens_unclamped (w : World num) (liquidity : num)
        (lower upper : Z) (p pa pb pa' pb' : num) :
  tick_to_sqrt_price (self w) lower = Ok (pa, pa') ->
  tick_to_sqrt_price (self w) upper = Ok (pb, pb') ->
  (forall dx, ndiv (nmul liquidity (nsub pb p)) (nmul pb p) = Some dx ->
     liquidity_to_tokens liquidity lower upper (Some p) w
     = (Ok (nmax dx (of_int 0),
            nmax (nmul liquidity (nsub p pa)) (of_int 0)), w))
  /\ (nltb p pa = false -> nltb pb p = false ->
      liquidity_to_tokens liquidity lower upper (Some p) w
      = liquidity_to_tokens_spec liquidity lower upper p w).
Proof.
  intros Ha Hb. split.
  - intros dx Hdx.
    unfold liquidity_to_tokens, bind, get_self, lift, div, ret. simpl.
    rewrite Hb, Ha, Hdx. reflexivity.
  - intros Hlo Hhi.
    unfold liquidity_to_tokens, liquidity_to_tokens_spec, bind, get_self,
      lift. simpl.
    rewrite Hb, Ha. unfold clamp. rewrite Hlo, Hhi. reflexivity.
Qed.

(** C6 (amended).  In either direction, when the tentative sqrt-price
    equals the sqrt-price of the target tick, or stops short of it, the
    step of the loop writes no Tick object and changes neither the active
    liquidity nor the active ticks; when it returns, the pool is at the
    tentative sqrt-price and nothing remains to be swapped. *)
Theorem price_at_target_ends_within_cell (w : World num) (limit : num)
        (amount_out amount_remaining : num) (next_tick : Z)
        (target updated : num) (fees : Z) :
  (x_updated_sqrt_price amount_remaining w = (Ok (fees, updated), w) ->
   nleb target updated = true ->
   forall r w',
     x_body limit (amount_out, amount_remaining, next_tick, target) w = (r, w') ->
     tick_objs w' = tick_objs w
     /\ Pair.liquidity (self w') = Pair.liquidity (self w)
     /\ Pair.ticks (self w') = Pair.ticks (self w)
     /\ forall v, r = Ok v ->
          Pair.curr_sqrt_price (self w') = updated
          /\ snd (fst (fst v)) = of_int 0)
  /\ (y_updated_sqrt_price amount_remaining w = (Ok (fees, updated), w) ->
      nleb updated target = true ->
      forall r w',
        y_body limit (amount_out, amount_remaining, next_tick, target) w
        = (r, w') ->
        tick_objs w' = tick_objs w
        /\ Pair.liquidity (self w') = Pair.liquidity (self w)
        /\ Pair.ticks (self w') = Pair.ticks (self w)
        /\ forall v, r = Ok v ->
             Pair.curr_sqrt_price (self w') = updated
             /\ snd (fst (fst v)) = of_int 0).
Proof.
  split; intros Hup Hcmp r w'.
  - unfold x_body. unfold bind at 1. rewrite Hup, Hcmp.
    unfold x_within, bind, get_self, upd_self, lift, div, ret, raise. simpl.
    repeat break_match; intros E; injection E as <- <-;
      (split; [|split; [|split]]); simpl; try reflexivity;
      intros v Ev; try discriminate; injection Ev as <-; split; reflexivity.
  - unfold y_body. unfold bind at 1. rewrite Hup, Hcmp.
    unfold y_within, bind, get_self, upd_self, lift, div, ret, raise. simpl.
    repeat break_match; intros E; injection E as <- <-;
      (split; [|split; [|split]]); simpl; try reflexivity;
      intros v Ev; try discriminate; injection Ev as <-; split; reflexivity.
Qed.

End Claims.

Section Rules2.
Context {num : Type} `{PyNum num}.

Lemma stable_new_tick (P : World num -> Prop) (k : Tick.t num) :
  (forall w, P w ->
     P (mkWorld (self w) (tick_objs w ++ [k]) (position_objs w))) ->
  stable P (new_tick k).
Proof. intros Hk w r w' HP E. injection E as _ <-. now apply Hk. Qed.

Lemma stable_new_position (P : World num -> Prop) (pos : Position.t num) :
  (forall w, P w ->
     P (mkWorld (self w) (tick_objs w) (position_objs w ++ [pos]))) ->
  stable P (new_position pos).
Proof. intros Hk w r w' HP E. injection E as _ <-. now apply Hk. Qed.

End Rules2.

(** ** The active liquidity after the first statement of add_liquidity and
    remove_liquidity *)
Section ActiveLiquidity.
Context {num : Type} `{PyNum num}.
Variable v : num.

Ltac liquidity_leaf :=
  first
    [ apply stable_upd_self; intros ? ?; assumption
    | apply stable_upd_tick; intros ? ?; assumption
    | apply stable_upd_position; intros ? ?; assumption
    | apply stable_new_tick; intros ? ?; assumption
    | apply stable_new_position; intros ? ?; assumption ].

Lemma liquidity_is_collect_fees (position : ref) :
  stable (liquidity_is v) (collect_fees position).
Proof. unfold collect_fees. stable_method liquidity_leaf. Qed.

Lemma liquidity_is_bump_tick (i : Z) (net gross : num -> num) :
  stable (liquidity_is v) (bump_tick i net gross).
Proof. unfold bump_tick, ticks_item_upd. stable_method liquidity_leaf. Qed.

Lemma liquidity_is_touch_boundary (b : Z) (liquidity net0 : num)
      (net : num -> num) :
  stable (liquidity_is v) (touch_boundary b liquidity net0 net).
Proof.
  unfold touch_boundary.
  stable_method ltac:(first [liquidity_leaf | apply liquidity_is_bump_tick]).
Qed.

Lemma liquidity_is_update_tick_map (i : Z) :
  stable (liquidity_is v) (update_tick_map i).
Proof.
  unfold update_tick_map, ticks_del, sort_tick_map.
  stable_method liquidity_leaf.
Qed.

End ActiveLiquidity.

Section Claims2.
Context {num : Type} `{PyNum num}.

Ltac liquidity_leaf v :=
  first
    [ apply liquidity_is_collect_fees
    | apply liquidity_is_bump_tick
    | apply liquidity_is_touch_boundary
    | apply liquidity_is_update_tick_map
    | apply stable_upd_self; intros ? ?; assumption
    | apply stable_upd_tick; intros ? ?; assumption
    | apply stable_upd_position; intros ? ?; assumption
    | apply stable_new_tick; intros ? ?; assumption
    | apply stable_new_position; intros ? ?; assumption ].

(** ** C3 *)

Lemma swap_other_token (fuel : nat) (token token' : string)
      (amount_in limit : num) (simulate : bool) (w : World num) :
  String.eqb token (Pair.token_x (self w)) = false ->
  String.eqb token' (Pair.token_x (self w)) = false ->
  swap fuel token amount_in limit simulate w
  = swap fuel token' amount_in limit simulate w.
Proof.
  intros E E'.
  assert (Htry : swap_try fuel (self w) token amount_in limit simulate w
                 = swap_try fuel (self w) token' amount_in limit simulate w).
  { unfold swap_try.
    repeat match goal with
    | |- context [bind get_self ?k w] =>
        change (bind get_self k w) with (k (self w) w)
    end.
    cbv beta. rewrite E, E'. reflexivity. }
  unfold swap. rewrite Htry. reflexivity.
Qed.

Lemma bind_get_self {A : Type} (k : Pair.t num -> M num A) (w : World num) :
  bind get_self k w = k (self w) w.
Proof. reflexivity. Qed.

Lemma bind_upd_self {A : Type} (f : Pair.t num -> Pair.t num)
      (k : unit -> M num A) (w : World num) :
  bind (upd_self f) k w
  = k tt (mkWorld (f (self w)) (tick_objs w) (position_objs w)).
Proof. reflexivity. Qed.

Lemma stable_run {A : Type} (P : World num -> Prop) (m : M num A)
      (w : World num) (r : Res A) (w' : World num) :
  m w = (r, w') -> stable P m -> P w -> P w'.
Proof. intros E Hm HP. eapply Hm; eauto. Qed.

Lemma add_liquidity_active (owner : string) (liquidity : num)
      (lower upper : Z) (w : World num) (r : Res ref) (w' : World num) :
  lower <= Pair.curr_tick_idx (self w) < upper ->
  add_liquidity owner liquidity lower upper w = (r, w') ->
  Pair.liquidity (self w') = nadd (Pair.liquidity (self w)) liquidity.
Proof.
  intros [Hlo Hup]. unfold add_liquidity.
  rewrite bind_get_self.
  apply Z.leb_le in Hlo. apply Z.ltb_lt in Hup. rewrite Hlo, Hup. simpl.
  rewrite bind_upd_self. intros E.
  apply (stable_run
           (liquidity_is (nadd (Pair.liquidity (self w)) liquidity))
           _ _ _ _ E); [|reflexivity].
  unfold sort_tick_map, positions_del.
  stable_method ltac:(liquidity_leaf (nadd (Pair.liquidity (self w)) liquidity)).
Qed.

Lemma remove_liquidity_active (position : ref) (liquidity : num)
      (w : World num) (r : Res unit) (w' : World num) :
  let pos := nth position (position_objs w) default_position in
  tick_idx_at w (Position.lower_tick pos) <= Pair.curr_tick_idx (self w)
  < tick_idx_at w (Position.upper_tick pos) ->
  remove_liquidity position liquidity w = (r, w') ->
  Pair.liquidity (self w') = nsub (Pair.liquidity (self w)) liquidity.
Proof.
  intros pos [Hlo Hup]. unfold remove_liquidity.
  assert (Hkey : forall A (k : pos_key -> M num A),
             bind (key_of position) k w
             = k (Position.owner pos, tick_idx_at w (Position.lower_tick pos),
                  tick_idx_at w (Position.upper_tick pos)) w)
    by reflexivity.
  rewrite Hkey, bind_get_self.
  apply Z.leb_le in Hlo. apply Z.ltb_lt in Hup. rewrite Hlo, Hup. simpl.
  rewrite bind_upd_self. intros E.
  apply (stable_run
           (liquidity_is (nsub (Pair.liquidity (self w)) liquidity))
           _ _ _ _ E); [|reflexivity].
  unfold sort_tick_map, positions_del.
  stable_method ltac:(liquidity_leaf (nsub (Pair.liquidity (self w)) liquidity)).
Qed.

(** C3 (amended).  The arguments are not checked.  Whatever the owner,
    liquidity and ticks, and whatever its outcome, add_liquidity over a
    range holding the current tick adds the given liquidity to the active
    liquidity; whatever the amount, and whatever its outcome,
    remove_liquidity on a position whose range holds the current tick
    takes the amount from the active liquidity; and swap does the same for
    any two token addresses other than token_x. *)
Theorem no_argument_is_validated :
  (forall (owner : string) (liquidity : num) (lower upper : Z)
          (w : World num) (r : Res ref) (w' : World num),
      lower <= Pair.curr_tick_idx (self w) < upper ->
      add_liquidity owner liquidity lower upper w = (r, w') ->
      Pair.liquidity (self w') = nadd (Pair.liquidity (self w)) liquidity)
  /\ (forall (position : ref) (liquidity : num)
             (w : World num) (r : Res unit) (w' : World num),
        let pos := nth position (position_objs w) default_position in
        tick_idx_at w (Position.lower_tick pos) <= Pair.curr_tick_idx (self w)
        < tick_idx_at w (Position.upper_tick pos) ->
        remove_liquidity position liquidity w = (r, w') ->
        Pair.liquidity (self w') = nsub (Pair.liquidity (self w)) liquidity)
  /\ (forall (fuel : nat) (token token' : string) (amount_in limit : num)
             (simulate : bool) (w : World num),
        String.eqb token (Pair.token_x (self w)) = false ->
        String.eqb token' (Pair.token_x (self w)) = false ->
        swap fuel token amount_in limit simulate w
        = swap fuel token' amount_in limit simulate w).
Proof.
  split; [|split].
  - exact add_liquidity_active.
  - exact remove_liquidity_active.
  - exact swap_other_token.
Qed.

End Claims2.

Section Withdraw.
Context {num : Type} `{PyNum num}.




End Withdraw.

(** ** The tick codec on doubles *)

(** *** The tabulated functions compute what the methods compute *)

Lemma tabulated_int (f : float) :
  PyNumber.int (PyNumber.PyFloat f) = Tabulated.int f.
Proof.
  unfold PyNumber.int, Tabulated.int.
  destruct (Prim2SF f) as [s|s| |s m e]; trivial.
  destruct (Z.leb_spec 0 e).
  - now rewrite Z.shiftl_mul_pow2.
  - now rewrite Z.shiftr_div_pow2 by lia.
Qed.


Lemma tabulated_float_of_Z (z : Z) :
  Tabulated.float_of_Z z = PyNumber.float_of_Z z.
Proof.
  unfold Tabulated.float_of_Z, PyNumber.float_of_Z.
  destruct (Z.leb_spec 0 z); cbn [andb]; trivial.
  destruct (Z.ltb_spec z 4611686018427387904); trivial.
  rewrite <- (SF2Prim_Prim2SF (of_uint63 (Uint63.of_Z z))).
  rewrite of_uint63_spec, Uint63.of_Z_spec, Z.mod_small; trivial.
  change Uint63.wB with 9223372036854775808. lia.
Qed.

Lemma tabulated_to_float (a : PyNumber.t) :
  Tabulated.to_float a = PyNumber.to_float a.
Proof. destruct a; cbn; trivial. apply tabulated_float_of_Z. Qed.

Lemma tabulated_add (a b : PyNumber.t) : Tabulated.add a b = PyNumber.add a b.
Proof.
  unfold Tabulated.add, PyNumber.add.
  now rewrite !tabulated_to_float.
Qed.

Lemma tabulated_sub (a b : PyNumber.t) : Tabulated.sub a b = PyNumber.sub a b.
Proof.
  unfold Tabulated.sub, PyNumber.sub.
  now rewrite !tabulated_to_float.
Qed.

Lemma tabulated_mul (a b : PyNumber.t) : Tabulated.mul a b = PyNumber.mul a b.
Proof.
  unfold Tabulated.mul, PyNumber.mul.
  now rewrite !tabulated_to_float.
Qed.

Lemma pow10_table_eq :
  Tabulated.pow10_table
  = map (fun i => PyNumber.pow10 (Z.of_nat i - 64)) (seq 0 128).
Proof. vm_compute. reflexivity. Qed.

Lemma tabulated_pow10 (e : Z) : Tabulated.pow10 e = PyNumber.pow10 e.
Proof.
  unfold Tabulated.pow10.
  destruct (Z.leb_spec (-64) e); cbn [andb]; trivial.
  destruct (Z.ltb_spec e 64); trivial.
  rewrite pow10_table_eq.
  rewrite (nth_indep _ _ (PyNumber.pow10 (Z.of_nat 0 - 64)))
    by (rewrite length_map, length_seq; lia).
  rewrite (map_nth (fun i => PyNumber.pow10 (Z.of_nat i - 64))).
  rewrite seq_nth by lia.
  f_equal. lia.
Qed.








Section Constants.
Variable p : Pair.t PyNumber.t.
Hypothesis p_distance : Pair.std_increment_distance p = 9000000.
Hypothesis p_exp : Pair.exp_at_price_one p = -6.

Lemma tabulated_tick_to_sqrt_price {A : Type} (tick : Z)
      (k : PyNumber.t -> Res A) :
  res_bind (tick_to_sqrt_price p tick) (fun sp => k (fst sp))
  = res_bind (Tabulated.tick_to_sqrt_price tick)
             (fun s => k (PyNumber.PyFloat s)).
Proof.
  unfold tick_to_sqrt_price, Tabulated.tick_to_sqrt_price.
  rewrite p_distance, p_exp.
  cbv [of_int nadd nsub nmul ndiv nabs nint npow10 nsqrt PyNumber_PyNum
       rdiv PyNumber.truediv PyNumber.is_zero PyNumber.abs PyNumber.sqrt].
  change (9000000 =? 0) with false. cbv iota.
  cbn [of_option res_bind PyNumber.to_float].
  change (PyNumber.float_of_Z 9000000) with 9000000%float.
  rewrite tabulated_int, tabulated_float_of_Z.
  destruct (Tabulated.int _) as [e|lvl]; cbn [of_sum res_bind]; trivial.
  rewrite !tabulated_pow10.
  destruct (0 <? tick); cbn [res_bind fst];
    now rewrite tabulated_to_float, ?tabulated_add, ?tabulated_sub,
                tabulated_mul.
Qed.




(** The first component of [tick_to_sqrt_price], when the tabulated
    function has a result. *)
Lemma tabulated_sqrt_price (tick : Z) (s : float) :
  Tabulated.tick_to_sqrt_price tick = Ok s ->
  exists sp, tick_to_sqrt_price p tick = Ok sp
             /\ fst sp = PyNumber.PyFloat s.
Proof.
  intros E.
  pose proof (tabulated_tick_to_sqrt_price tick (fun x => Ok x)) as T.
  rewrite E in T. cbn [res_bind] in T.
  destruct (tick_to_sqrt_price p tick) as [sp| |]; cbn [res_bind] in T;
    try discriminate.
  exists sp. split; [reflexivity|congruence].
Qed.

End Constants.

(** *** The codec over a grid of ticks *)

Lemma checks_nth (n : nat) (prev : float) (tick step : Z) :
  Tabulated.checks n prev tick step = true ->
  forall i : nat, (i < n)%nat ->
    exists s,
      Tabulated.tick_to_sqrt_price (tick + Z.of_nat i * step) = Ok s
      /\ PrimFloat.ltb 0 s = true
      /\ Tabulated.sqrt_price_to_tick s = Ok (tick + Z.of_nat i * step).
Proof.
  revert prev tick. induction n as [|n IH]; intros prev tick Hn i Hi; [lia|].
  cbn [Tabulated.checks] in Hn.
  destruct (Tabulated.tick_to_sqrt_price tick) as [s| |] eqn:E;
    try discriminate.
  apply andb_prop in Hn as [Hn Hrest]. apply andb_prop in Hn as [Hn Hback].
  apply andb_prop in Hn as [Hpos Hprev].
  destruct i as [|i].
  - replace (tick + Z.of_nat 0 * step) with tick by lia.
    exists s. repeat split; trivial.
    destruct (Tabulated.sqrt_price_to_tick s) as [tick'| |];
      try discriminate.
    f_equal. now apply Z.eqb_eq.
  - replace (tick + Z.of_nat (S i) * step)
      with (tick + step + Z.of_nat i * step) by lia.
    apply (IH s); [exact Hrest|lia].
Qed.

Lemma checks_next (n : nat) (prev : float) (tick step : Z) :
  Tabulated.checks n prev tick step = true ->
  forall i : nat, (S i < n)%nat ->
    exists s s',
      Tabulated.tick_to_sqrt_price (tick + Z.of_nat i * step) = Ok s
      /\ Tabulated.tick_to_sqrt_price (tick + Z.of_nat i * step + step)
         = Ok s'
      /\ PrimFloat.ltb s s' = true.
Proof.
  revert prev tick. induction n as [|n IH]; intros prev tick Hn i Hi; [lia|].
  cbn [Tabulated.checks] in Hn.
  destruct (Tabulated.tick_to_sqrt_price tick) as [s| |] eqn:E;
    try discriminate.
  apply andb_prop in Hn as [_ Hrest].
  destruct i as [|i].
  - replace (tick + Z.of_nat 0 * step) with tick by lia.
    destruct n as [|n]; [lia|]. cbn [Tabulated.checks] in Hrest.
    destruct (Tabulated.tick_to_sqrt_price (tick + step)) as [s'| |];
      try discriminate.
    apply andb_prop in Hrest as [Hn _]. apply andb_prop in Hn as [Hn _].
    apply andb_prop in Hn as [_ Hprev].
    exists s, s'. repeat split; trivial.
  - replace (tick + Z.of_nat (S i) * step)
      with (tick + step + Z.of_nat i * step) by lia.
    apply (IH s); [exact Hrest|lia].
Qed.

(** Every multiple of 10000 from -441000000 to 441000000, 88201 ticks. *)
Lemma checks_in_range :
  Tabulated.checks (Z.to_nat 88201) 0 (-441000000) 10000 = true.
Proof. vm_compute. reflexivity. Qed.

Lemma grid_index (t : Z) :
  t mod 10000 = 0 ->
  -441000000 <= t ->
  t = -441000000 + Z.of_nat (Z.to_nat ((t + 441000000) / 10000)) * 10000.
Proof.
  intros Hm Ht.
  pose proof (Z.div_mod (t + 441000000) 10000 ltac:(lia)) as Hd.
  assert (Hr : (t + 441000000) mod 10000 = 0).
  { replace (t + 441000000) with (t + 44100 * 10000) by lia.
    now rewrite Z.mod_add by lia. }
  assert (0 <= (t + 441000000) / 10000) by (apply Z.div_pos; lia).
  rewrite Z2Nat.id by trivial. lia.
Qed.

(** ** C7: the round trip of the tick codec *)


(** ** The concrete pools are the ones the calls return *)

Lemma pool0_created :
init "X" "Y" (PyNumber.PyFloat 1000) (PyNumber.PyFloat 0.5) 250000
= Ok Scenario.pool0.
Proof. vm_compute. reflexivity. Qed.

Lemma pool_A_added :
fst (add_liquidity "A" (PyNumber.PyInt 2) 54000000 62000000 Scenario.pool0)
= Ok Scenario.position_A.
Proof. vm_compute. reflexivity. Qed.

Lemma pool_AB_added :
fst (add_liquidity "B" (PyNumber.PyInt 6) 55250000 59250000 Scenario.pool_A)
= Ok Scenario.position_B.
Proof. vm_compute. reflexivity. Qed.

Lemma run_after {A : Type} (m : M PyNumber.t A) (w : World PyNumber.t) :
m w = (fst (m w), Scenario.after m w).
Proof. unfold Scenario.after. destruct (m w); reflexivity. Qed.

Lemma pool_AB_reachable : reachable Scenario.pool_AB.
Proof.
apply reachable_step with (w := Scenario.pool_A).
- apply reachable_step with (w := Scenario.pool0).
  + exact (reachable_init _ _ _ _ _ _ pool0_created).
  + exact (step_add_liquidity _ _ _ _ _ _ _
             (run_after (add_liquidity "A" (PyNumber.PyInt 2)
                                       54000000 62000000)
                        Scenario.pool0)).
- exact (step_add_liquidity _ _ _ _ _ _ _
           (run_after (add_liquidity "B" (PyNumber.PyInt 6)
                                     55250000 59250000)
                      Scenario.pool_A)).
Qed.

Lemma pool_at_boundary_swapped :
exists amount_out,
  fst (swap 10 "Y" (PyNumber.PyInt 2000) (PyNumber.PyFloat 1000000000) false
            Scenario.pool_AB) = Ok (Some amount_out).
Proof. vm_compute. eexists. reflexivity. Qed.

Lemma pool_at_boundary_reachable : reachable Scenario.pool_at_boundary.
Proof.
apply reachable_step with (w := Scenario.pool_AB).
- exact pool_AB_reachable.
- refine (step_swap _ _ _ _ _ _ _ _
            (run_after (swap 10 "Y" (PyNumber.PyInt 2000)
                             (PyNumber.PyFloat 1000000000) false)
                       Scenario.pool_AB) _).
  destruct pool_at_boundary_swapped as [amount_out ->]. discriminate.
Qed.

Lemma position_B_exists :
(Scenario.position_B
 < List.length (position_objs Scenario.pool_at_boundary))%nat.
Proof. vm_compute. lia. Qed.

Lemma pool_B_removed_reachable : reachable Scenario.pool_B_removed.
Proof.
apply reachable_step with (w := Scenario.pool_at_boundary).
- exact pool_at_boundary_reachable.
- exact (step_remove_liquidity _ _ _ _ _ position_B_exists
           (run_after (remove_liquidity Scenario.position_B
                                        (PyNumber.PyInt 6))
                      Scenario.pool_at_boundary)).
Qed.

Lemma pool_last_swapped :
exists amount_out,
  fst (swap 10 "Y" (PyNumber.PyInt 2) (PyNumber.PyFloat 1000000000) false
            Scenario.pool_B_removed) = Ok (Some amount_out).
Proof. vm_compute. eexists. reflexivity. Qed.

Lemma pool_last_reachable : reachable Scenario.pool_last.
Proof.
apply reachable_step with (w := Scenario.pool_B_removed).
- exact pool_B_removed_reachable.
- refine (step_swap _ _ _ _ _ _ _ _
            (run_after (swap 10 "Y" (PyNumber.PyInt 2)
                             (PyNumber.PyFloat 1000000000) false)
                       Scenario.pool_B_removed) _).
  destruct pool_last_swapped as [amount_out ->]. discriminate.
Qed.

(** ** C1: a failed swap does not reach the caller as an exception *)

(** C1, counterexample.  On the new pool, which has no tick, the body of
  swap("X", 100, 0) raises InsufficientLiquidityException, and the call
  returns None: the caller sees a normal return, not the error. *)
Lemma swap_failure_returns_None :
let w := Scenario.pool0 in
fst (swap_try 10 (self w) "X" (PyNumber.PyInt 100) (PyNumber.PyInt 0) false w)
= Raise InsufficientLiquidityException
/\ fst (swap 10 "X" (PyNumber.PyInt 100) (PyNumber.PyInt 0) false w) = Ok None
/\ fst (swap 10 "X" (PyNumber.PyInt 100) (PyNumber.PyInt 0) false w)
   <> Raise InsufficientLiquidityException.
Proof. vm_compute. repeat split; discriminate. Qed.

(** C1, the amended claim at the pool with positions A and B:
  swap("Y", 3000, 1500) crosses tick 55250000 and then fails the slippage
  check; the call returns None over the attributes of the pool before the
  call. *)
Lemma failed_swap_returns_None_witness :
let w := Scenario.pool_AB in
let w1 :=
  snd (swap_try 10 (self w) "Y" (PyNumber.PyInt 3000) (PyNumber.PyFloat 1500)
                false w) in
swap 10 "Y" (PyNumber.PyInt 3000) (PyNumber.PyFloat 1500) false w
= (Ok None, mkWorld (self w) (tick_objs w1) (position_objs w1))
/\ store_frame w w1
/\ fst (swap 10 "Y" (PyNumber.PyInt 3000) (PyNumber.PyFloat 1500) false w)
   <> Raise SlippageTooHighException.
Proof.
intros w w1.
assert (E : swap_try 10 (self w) "Y" (PyNumber.PyInt 3000)
                     (PyNumber.PyFloat 1500) false w
            = (Raise SlippageTooHighException, w1))
  by (vm_compute; reflexivity).
exact (failed_swap_returns_None 10 "Y" (PyNumber.PyInt 3000)
         (PyNumber.PyFloat 1500) false w w1 SlippageTooHighException E).
Defined.

(** ** C2: what a reverted swap leaves behind *)

(** C2.  In the pool with positions A = [54000000, 62000000) of liquidity 2
  and B = [55250000, 59250000) of liquidity 6, at sqrt-price 1000,
  swap("Y", 3000, 1e9, simulate=True) crosses tick 55250000 and
  completes.  Afterwards every attribute of the pool is as before, but
  the Tick object of tick 55250000, still in [ticks], has
  fee_growth_outside_y 500 where it had 0.  The same holds for the swap
  that fails: with sqrt_price_limit 1500 and simulate=False the body
  raises SlippageTooHighException after the crossing. *)
Theorem reverted_swap_keeps_tick_write :
let w := Scenario.pool_AB in
let outside_y (w : World PyNumber.t) :=
  Tick.fee_growth_outside_y
    (nth Scenario.tick_55250000 (tick_objs w) default_tick) in
let simulated :=
  swap 10 "Y" (PyNumber.PyInt 3000) (PyNumber.PyFloat 1000000000) true in
let failed :=
  swap 10 "Y" (PyNumber.PyInt 3000) (PyNumber.PyFloat 1500) false in
dict_get Z.eqb 55250000 (Pair.ticks (self w)) = Some Scenario.tick_55250000
/\ outside_y w = PyNumber.PyInt 0
/\ (exists amount_out, fst (simulated w) = Ok (Some amount_out))
/\ self (snd (simulated w)) = self w
/\ outside_y (snd (simulated w)) = PyNumber.PyFloat 500
/\ fst (swap_try 10 (self w) "Y" (PyNumber.PyInt 3000)
                 (PyNumber.PyFloat 1500) false w)
   = Raise SlippageTooHighException
/\ self (snd (failed w)) = self w
/\ outside_y (snd (failed w)) = PyNumber.PyFloat 500.
Proof.
vm_compute. repeat split; try reflexivity.
eexists. reflexivity.
Qed.

(** ** C3: arguments are taken as they come *)

(** C3, counterexample.  No call fails, and each one changes the pool:
  add_liquidity("A", -5, 7, 3) on the new pool (negative liquidity, ticks
  off the spacing of 250000, lower above upper) returns the new position,
  of liquidity -5, and registers ticks 3 and 7;
  remove_liquidity(position_A, 5), with 2 held, returns and leaves the
  position and the pool at liquidity -3;
  swap("Z", 2000, 1e9), where the tokens are "X" and "Y", returns an
  amount and moves the price to 1500. *)
Lemma invalid_arguments_are_accepted :
let added :=
  add_liquidity "A" (PyNumber.PyInt (-5)) 7 3 Scenario.pool0 in
let removed :=
  remove_liquidity Scenario.position_A (PyNumber.PyInt 5) Scenario.pool_AB in
let swapped :=
  swap 10 "Z" (PyNumber.PyInt 2000) (PyNumber.PyFloat 1000000000) false
       Scenario.pool_AB in
7 mod Pair.tick_spacing (self Scenario.pool0) <> 0
/\ fst added = Ok 0%nat
/\ Position.liquidity (nth 0 (position_objs (snd added)) default_position)
   = PyNumber.PyInt (-5)
/\ Pair.ticks (self Scenario.pool0) = []
/\ Pair.ticks (self (snd added)) = [(3, 1%nat); (7, 0%nat)]
/\ Position.liquidity
     (nth Scenario.position_A (position_objs Scenario.pool_AB)
          default_position) = PyNumber.PyInt 2
/\ fst removed = Ok tt
/\ Position.liquidity
     (nth Scenario.position_A (position_objs (snd removed))
          default_position) = PyNumber.PyInt (-3)
/\ Pair.liquidity (self (snd removed)) = PyNumber.PyInt (-3)
/\ Pair.token_x (self Scenario.pool_AB) = "X"%string
/\ Pair.token_y (self Scenario.pool_AB) = "Y"%string
/\ (exists amount_out, fst swapped = Ok (Some amount_out))
/\ Pair.curr_sqrt_price (self Scenario.pool_AB) = PyNumber.PyFloat 1000
/\ Pair.curr_sqrt_price (self (snd swapped)) = PyNumber.PyFloat 1500.
Proof.
vm_compute. repeat split; try reflexivity; try discriminate.
eexists. reflexivity.
Qed.

(** C3, the amended claim at the pool with positions A and B:
  add_liquidity("C", -7, 53999999, 54000001) adds -7 to the active
  liquidity 2. *)
Lemma no_argument_is_validated_witness :
53999999 <= Pair.curr_tick_idx (self Scenario.pool_AB) < 54000001
/\ Pair.liquidity
     (self (Scenario.after
              (add_liquidity "C" (PyNumber.PyInt (-7)) 53999999 54000001)
              Scenario.pool_AB))
   = nadd (Pair.liquidity (self Scenario.pool_AB)) (PyNumber.PyInt (-7)).
Proof.
assert (Hin : 53999999 <= Pair.curr_tick_idx (self Scenario.pool_AB)
              < 54000001)
  by (vm_compute; split; [discriminate | reflexivity]).
split; [exact Hin|].
exact (proj1 (@no_argument_is_validated PyNumber.t _) "C"%string
         (PyNumber.PyInt (-7)) 53999999 54000001 Scenario.pool_AB
         (fst (add_liquidity "C" (PyNumber.PyInt (-7)) 53999999 54000001
                             Scenario.pool_AB))
         _ Hin
         (run_after (add_liquidity "C" (PyNumber.PyInt (-7))
                                   53999999 54000001)
                    Scenario.pool_AB)).
Defined.

(** ** C4: the neighbour of an extreme key *)

(** C4.  The active ticks of the pool with positions A and B are 54000000,
  55250000, 59250000 and 62000000.  Asked for the tick below the smallest
  one, find_next_tick(54000000, False) returns 62000000, a tick above it,
  where no tick below exists; asked for the tick above the largest one,
  find_next_tick(62000000, True) raises IndexError.  With the single key
  0, the tick below 0 is 0 itself. *)
Theorem find_next_tick_wrong_at_extreme_keys :
dict_keys (Pair.ticks (self Scenario.pool_AB))
= [54000000; 55250000; 59250000; 62000000]
/\ fst (find_next_tick 54000000 false Scenario.pool_AB) = Ok (Some 62000000)
/\ fst (find_next_tick 62000000 true Scenario.pool_AB) = Raise IndexError
/\ find_next_tick_keys [0] 0 false = Ok (Some 0)
/\ find_next_tick_keys [0] 0 true = Raise IndexError.
Proof. vm_compute. repeat split; reflexivity. Qed.

(** ** C5: the price is not clamped *)

(** C5, counterexample.  For liquidity 2 over [54000000, 55250000), whose
  edges have sqrt-prices 1000 and 1500, and the sqrt-price 2000 above the
  range, liquidity_to_tokens returns delta_y = 2 * (2000 - 1000) = 2000,
  where the value at the nearer edge is 2 * (1500 - 1000) = 1000; for the
  sqrt-price 500 below the range it returns delta_x = 2 * 1000 / 750000,
  where the value at the nearer edge is 2 * 500 / 1500000. *)
Lemma liquidity_to_tokens_outside_range :
let w := Scenario.pool0 in
res_bind (tick_to_sqrt_price (self w) 54000000) (fun sp => Ok (fst sp))
= Ok (PyNumber.PyFloat 1000)
/\ res_bind (tick_to_sqrt_price (self w) 55250000) (fun sp => Ok (fst sp))
   = Ok (PyNumber.PyFloat 1500)
/\ fst (liquidity_to_tokens (PyNumber.PyInt 2) 54000000 55250000
                            (Some (PyNumber.PyFloat 2000)) w)
   = Ok (PyNumber.PyInt 0, PyNumber.PyFloat 2000)
/\ fst (liquidity_to_tokens_spec (PyNumber.PyInt 2) 54000000 55250000
                                 (PyNumber.PyFloat 2000) w)
   = Ok (PyNumber.PyFloat 0, PyNumber.PyFloat 1000)
/\ fst (liquidity_to_tokens (PyNumber.PyInt 2) 54000000 55250000
                            (Some (PyNumber.PyFloat 500)) w)
   = Ok (PyNumber.PyFloat (2000 / 750000), PyNumber.PyInt 0)
/\ fst (liquidity_to_tokens_spec (PyNumber.PyInt 2) 54000000 55250000
                                 (PyNumber.PyFloat 500) w)
   = Ok (PyNumber.PyFloat (1000 / 1500000), PyNumber.PyFloat 0)
/\ PrimFloat.ltb (1000 / 1500000) (2000 / 750000) = true.
Proof. vm_compute. repeat split; reflexivity. Qed.

(** C5, the amended claim at the sqrt-price 1250 inside the range
  [54000000, 55250000): the code and the clamped formula agree. *)
Lemma liquidity_to_tokens_unclamped_witness :
let w := Scenario.pool0 in
nltb (PyNumber.PyFloat 1250) (PyNumber.PyFloat 1000) = false
/\ nltb (PyNumber.PyFloat 1500) (PyNumber.PyFloat 1250) = false
/\ liquidity_to_tokens (PyNumber.PyInt 2) 54000000 55250000
                       (Some (PyNumber.PyFloat 1250)) w
   = liquidity_to_tokens_spec (PyNumber.PyInt 2) 54000000 55250000
                              (PyNumber.PyFloat 1250) w.
Proof.
intros w.
assert (Ha : tick_to_sqrt_price (self w) 54000000
             = Ok (PyNumber.PyFloat 1000,
                   PyNumber.PyFloat 0x1.f40010624d8e4p+9))
  by (vm_compute; reflexivity).
assert (Hb : tick_to_sqrt_price (self w) 55250000
             = Ok (PyNumber.PyFloat 1500,
                   PyNumber.PyFloat 0x1.7700057619e6dp+10))
  by (vm_compute; reflexivity).
assert (Hlo : nltb (PyNumber.PyFloat 1250) (PyNumber.PyFloat 1000) = false)
  by (vm_compute; reflexivity).
assert (Hhi : nltb (PyNumber.PyFloat 1500) (PyNumber.PyFloat 1250) = false)
  by (vm_compute; reflexivity).
split; [exact Hlo|]. split; [exact Hhi|].
exact (proj2 (liquidity_to_tokens_unclamped w (PyNumber.PyInt 2)
                54000000 55250000 (PyNumber.PyFloat 1250) _ _ _ _ Ha Hb)
             Hlo Hhi).
Defined.

(** ** C6: a price that lands on the boundary *)

(** C6, counterexample.  In the pool with positions A and B at sqrt-price
  1000 and tick 54000000, the next tick above is 55250000, of sqrt-price
  1500 and liquidity_net 6.  swap("Y", 2000, 1e9) keeps 1000 as fees and
  moves the sqrt-price by 1000 / 2 to exactly 1500.  The swap ends there:
  the active liquidity is still 2, not 8, and fee_growth_outside_y of tick
  55250000 is still 0, while fee_growth_global_y is 500. *)
Lemma boundary_price_not_crossed :
let w := Scenario.pool_AB in
let w' := Scenario.pool_at_boundary in
let tick (w : World PyNumber.t) :=
  nth Scenario.tick_55250000 (tick_objs w) default_tick in
fst (find_next_tick (Pair.curr_tick_idx (self w)) true w)
= Ok (Some 55250000)
/\ fst (y_updated_sqrt_price (PyNumber.PyInt 2000) w)
   = Ok (1000, PyNumber.PyFloat 1500)
/\ res_bind (tick_to_sqrt_price (self w) 55250000) (fun sp => Ok (fst sp))
   = Ok (PyNumber.PyFloat 1500)
/\ Pair.liquidity (self w) = PyNumber.PyInt 2
/\ Tick.liquidity_net (tick w) = PyNumber.PyInt 6
/\ Pair.curr_sqrt_price (self w') = PyNumber.PyFloat 1500
/\ Pair.curr_tick_idx (self w') = 55250000
/\ Pair.liquidity (self w') = PyNumber.PyInt 2
/\ Pair.fee_growth_global_y (self w') = PyNumber.PyFloat 500
/\ Tick.fee_growth_outside_y (tick w') = PyNumber.PyInt 0
/\ tick_objs w' = tick_objs w.
Proof. vm_compute. repeat split; reflexivity. Qed.

(** C6, the amended claim at the same swap: the step of the loop that
  reaches the sqrt-price 1500 of the target writes no Tick object and does
  not change the active liquidity. *)
Lemma price_at_target_ends_within_cell_witness :
let w := Scenario.pool_AB in
let v := (PyNumber.PyInt 0, PyNumber.PyInt 2000, 55250000,
          PyNumber.PyFloat 1500) in
let w' := snd (y_body (PyNumber.PyFloat 1000000000) v w) in
tick_objs w' = tick_objs w
/\ Pair.liquidity (self w') = Pair.liquidity (self w)
/\ Pair.ticks (self w') = Pair.ticks (self w)
/\ forall v', fst (y_body (PyNumber.PyFloat 1000000000) v w) = Ok v' ->
     Pair.curr_sqrt_price (self w') = PyNumber.PyFloat 1500
     /\ snd (fst (fst v')) = of_int 0.
Proof.
intros w v w'.
assert (Hup : y_updated_sqrt_price (PyNumber.PyInt 2000) w
              = (Ok (1000, PyNumber.PyFloat 1500), w))
  by (vm_compute; reflexivity).
assert (Hcmp : nleb (PyNumber.PyFloat 1500) (PyNumber.PyFloat 1500) = true)
  by (vm_compute; reflexivity).
exact (proj2 (price_at_target_ends_within_cell w
                (PyNumber.PyFloat 1000000000) (PyNumber.PyInt 0)
                (PyNumber.PyInt 2000) 55250000 (PyNumber.PyFloat 1500)
                (PyNumber.PyFloat 1500) 1000)
             Hup Hcmp _ _
             (surjective_pairing
                (y_body (PyNumber.PyFloat 1000000000) v w))).
Defined.

(** ** C7: beyond the table of price levels *)



(** ** C8: fee growth that goes down *)

(** C8.  The pool is Pair("X", "Y", 1000, 0.5, 250000) with positions
  A = [54000000, 62000000) of liquidity 2 and B = [55250000, 59250000) of
  liquidity 6.  swap("Y", 2000, 1e9) takes the sqrt-price to 1500, the
  sqrt-price of tick 55250000, without crossing that tick: the active
  liquidity stays 2 while curr_tick_idx becomes 55250000, inside B's
  range.  remove_liquidity(position_B, 6) then takes 6 from the active
  liquidity, which becomes -4.  The next swap("Y", 2, 1e9), with fee 1,
  adds 1 / -4 to fee_growth_global_y: it goes from 500 down to 499.75.
  Each state is reachable, each call returns normally, the amounts are
  positive and the fee tier is 0.5. *)
Theorem fee_growth_global_decreases :
reachable Scenario.pool_B_removed
/\ reachable Scenario.pool_last
/\ Pair.fee_tier (self Scenario.pool0) = PyNumber.PyFloat 0.5
/\ Pair.liquidity (self Scenario.pool_at_boundary) = PyNumber.PyInt 2
/\ Pair.curr_tick_idx (self Scenario.pool_at_boundary) = 55250000
/\ fst (remove_liquidity Scenario.position_B (PyNumber.PyInt 6)
                         Scenario.pool_at_boundary) = Ok tt
/\ Pair.liquidity (self Scenario.pool_B_removed) = PyNumber.PyInt (-4)
/\ Pair.fee_growth_global_y (self Scenario.pool_B_removed)
   = PyNumber.PyFloat 500
/\ (exists amount_out,
      fst (swap 10 "Y" (PyNumber.PyInt 2) (PyNumber.PyFloat 1000000000) false
               Scenario.pool_B_removed) = Ok (Some amount_out))
/\ Pair.fee_growth_global_y (self Scenario.pool_last)
   = PyNumber.PyFloat 499.75
/\ PyNumber.ltb (Pair.fee_growth_global_y (self Scenario.pool_last))
                (Pair.fee_growth_global_y (self Scenario.pool_B_removed))
   = true.
Proof.
split; [exact pool_B_removed_reachable|].
split; [exact pool_last_reachable|].
vm_compute. repeat split; try reflexivity.
eexists. reflexivity.
Qed.

(** ** C9 and C10 at a pool that dropped a boundary tick *)

(** C9, at the pool after remove_liquidity(position_B, 6): tick 55250000,
  the lower boundary of position B, is no longer an active tick, and
  get_fees(position_B) returns. *)
Lemma settlement_finds_boundary_ticks_witness :
let w := Scenario.pool_B_removed in
dict_mem Z.eqb 55250000 (Pair.ticks (self w)) = false
/\ tick_idx_at w (Position.lower_tick
                    (nth Scenario.position_B (position_objs w)
                         default_position)) = 55250000
/\ (exists fees, get_fees Scenario.position_B w = (Ok fees, w))
/\ (exists fees w', collect_fees Scenario.position_B w = (Ok fees, w')).
Proof.
intros w. split; [vm_compute; reflexivity|].
split; [vm_compute; reflexivity|].
assert (Hp : (Scenario.position_B < List.length (position_objs w))%nat)
  by (vm_compute; lia).
exact (proj2 (proj2 (proj2 (proj2 (settlement_finds_boundary_ticks
                                     w pool_B_removed_reachable))
                           Scenario.position_B Hp))).
Defined.


(** * Further properties of the methods *)

(** ** Pair.tick_by_tick_spacing *)

Section TickSpacing.
Context {num : Type} `{PyNum num}.

(** X1.  The branch [(tick_step - 1) * self.tick_spacing] is never taken: for
    every argument, of either sign, the result is
    [int(precise_tick / tick_spacing) * tick_spacing]. *)
Theorem tick_by_tick_spacing_truncates (p : Pair.t num) (precise_tick : num) :
  tick_by_tick_spacing p precise_tick
  = (q <~ rdiv precise_tick (of_int (Pair.tick_spacing p)) ;;
     tick_step <~ of_sum (nint q) ;;
     Ok (tick_step * Pair.tick_spacing p)).
Proof.
  unfold tick_by_tick_spacing.
  destruct (rdiv precise_tick _) as [q| |]; cbn [res_bind]; trivial.
  destruct (of_sum (nint q)) as [s| |]; cbn [res_bind]; trivial.
  rewrite Z.mod_1_r. cbn [Z.eqb negb].
  destruct (nleb _ _); reflexivity.
Qed.

End TickSpacing.

(** X2.  tick_by_tick_spacing can return a tick above its argument: with a
    tick spacing of 11, the quotient 2^55 / 11 rounds up to the double
    3275345183542179.0, and the tick returned for 2^55, 36028797018963969,
    is 2^55 + 1. *)
Theorem tick_by_tick_spacing_exceeds_argument :
  let p :=
    Pair.mk "X" "Y" (PyNumber.PyInt 0) (PyNumber.PyInt 1)
            (PyNumber.PyFloat 0.5) 9000000 (-6) 11
            (PyNumber.PyInt 1) 0 [] [] []
            (PyNumber.PyInt 0) (PyNumber.PyInt 0)
            (PyNumber.PyInt 0) (PyNumber.PyInt 0) in
  init "X" "Y" (PyNumber.PyInt 1) (PyNumber.PyFloat 0.5) 11
  = Ok (mkWorld p [] [])
  /\ tick_by_tick_spacing p (PyNumber.PyInt (2 ^ 55)) = Ok (2 ^ 55 + 1)
  /\ tick_by_tick_spacing p (PyNumber.PyFloat 0x1p+55) = Ok (2 ^ 55 + 1).
Proof. vm_compute. repeat split; reflexivity. Qed.

(** X3.  With a tick spacing of 0 the division raises ZeroDivisionError,
    whatever the argument. *)
Theorem tick_by_tick_spacing_zero_spacing (p : Pair.t PyNumber.t)
        (precise_tick : PyNumber.t) :
  Pair.tick_spacing p = 0 ->
  tick_by_tick_spacing p precise_tick = Raise ZeroDivisionError.
Proof.
  intros E. unfold tick_by_tick_spacing. rewrite E. reflexivity.
Qed.

(** ** Pair.swap *)

Section SwapFacts.
Context {num : Type} `{PyNum num}.

(** X4.  A pool without active ticks: every swap, of any token, amount, limit
    and mode, returns None and leaves the pool as it is. *)
Theorem swap_without_ticks (fuel : nat) (token : string)
        (amount_in limit : num) (simulate : bool) (w : World num) :
  Pair.ticks (self w) = [] ->
  swap fuel token amount_in limit simulate w = (Ok None, w).
Proof.
  intros E. destruct w as [p ts ps]. cbn in E.
  assert (Hx : forall l, swap_x_for_y fuel amount_in l (mkWorld p ts ps)
                         = (Raise InsufficientLiquidityException,
                            mkWorld p ts ps)).
  { intros l. unfold swap_x_for_y, find_next_tick, bind, get_self, lift.
    cbn. rewrite E. reflexivity. }
  assert (Hy : forall l, swap_y_for_x fuel amount_in l (mkWorld p ts ps)
                         = (Raise InsufficientLiquidityException,
                            mkWorld p ts ps)).
  { intros l. unfold swap_y_for_x, find_next_tick, bind, get_self, lift.
    cbn. rewrite E. reflexivity. }
  unfold swap, swap_try. unfold bind at 1. cbn [get_self self].
  unfold bind at 1.
  destruct (String.eqb token (Pair.token_x p)); unfold bind at 1.
  - rewrite Hx. reflexivity.
  - rewrite Hy. reflexivity.
Qed.

Lemma revert_after {A : Type} (m : M num A) (original_state : Pair.t num)
      (w w1 : World num) (a : A) :
  (a0 <- m ;; revert_swap original_state ;; ret a0) w = (Ok a, w1) ->
  self w1 = original_state.
Proof.
  unfold bind, revert_swap, upd_self, ret.
  destruct (m w) as [[a0|e|] w0]; try discriminate.
  intros E. injection E as _ <-. reflexivity.
Qed.

(** X5.  The attributes of the pool after a swap that was simulated, and after
    one that returned None, are the attributes before the call. *)
Theorem swap_restores_attributes (fuel : nat) (token : string)
        (amount_in limit : num) (simulate : bool) (w : World num) :
  (simulate = true
   \/ fst (swap fuel token amount_in limit simulate w) = Ok None) ->
  fst (swap fuel token amount_in limit simulate w) <> Diverge ->
  self (snd (swap fuel token amount_in limit simulate w)) = self w.
Proof.
  unfold swap.
  destruct (swap_try fuel (self w) token amount_in limit simulate w)
    as [[a|e|] w1] eqn:E; cbn.
  - intros [->|E']; [|discriminate]. intros _.
    unfold swap_try in E. rewrite bind_get_self in E.
    cbv iota in E. now apply revert_after in E.
  - intros _ _. reflexivity.
  - intros _ Hd. now elim Hd.
Qed.

(** X6.  Whatever its outcome, a swap leaves the two tick maps and the
    position map as they are, writes no Position object, and changes no
    index, liquidity_net or liquidity_gross of a Tick object. *)
Theorem swap_keeps_registry (fuel : nat) (token : string)
        (amount_in limit : num) (simulate : bool) (w : World num) :
  let w' := snd (swap fuel token amount_in limit simulate w) in
  Pair.ticks (self w') = Pair.ticks (self w)
  /\ Pair.all_ticks (self w') = Pair.all_ticks (self w)
  /\ Pair.positions (self w') = Pair.positions (self w)
  /\ position_objs w' = position_objs w
  /\ map tick_core (tick_objs w') = map tick_core (tick_objs w).
Proof.
  set (P := fun w1 : World num =>
              Pair.ticks (self w1) = Pair.ticks (self w)
              /\ Pair.all_ticks (self w1) = Pair.all_ticks (self w)
              /\ Pair.positions (self w1) = Pair.positions (self w)
              /\ position_objs w1 = position_objs w
              /\ map tick_core (tick_objs w1) = map tick_core (tick_objs w)).
  assert (P_self : forall f : Pair.t num -> Pair.t num,
             (forall p, Pair.ticks (f p) = Pair.ticks p
                        /\ Pair.all_ticks (f p) = Pair.all_ticks p
                        /\ Pair.positions (f p) = Pair.positions p) ->
             stable P (upd_self f)).
  { intros f Hf. apply stable_upd_self. intros w1 (H1 & H2 & H3 & H4 & H5).
    destruct (Hf (self w1)) as (F1 & F2 & F3).
    unfold P. cbn. rewrite F1, F2, F3. auto. }
  assert (P_tick : forall (r : ref) (f : Tick.t num -> Tick.t num),
             (forall k, tick_core (f k) = tick_core k) ->
             stable P (upd_tick r f)).
  { intros r f Hf. apply stable_upd_tick. intros w1 (H1 & H2 & H3 & H4 & H5).
    unfold P. cbn. rewrite store_upd_map by exact Hf. auto. }
  assert (P_rev : stable P (revert_swap (self w))).
  { unfold revert_swap. apply stable_upd_self.
    intros w1 (H1 & H2 & H3 & H4 & H5). unfold P. cbn. auto. }
  assert (P_w : P w) by (unfold P; auto).
  pose proof (stable_swap_try P P_self P_tick fuel (self w) token amount_in
                limit simulate P_rev) as Htry.
  intros w'. subst w'. unfold swap.
  destruct (swap_try fuel (self w) token amount_in limit simulate w)
    as [[a|e|] w1] eqn:E; specialize (Htry _ _ _ P_w E); cbn.
  - exact Htry.
  - destruct Htry as (H1 & H2 & H3 & H4 & H5). auto.
  - exact Htry.
Qed.

End SwapFacts.

(** ** Queries *)

Section Queries.
Context {num : Type} `{PyNum num}.

(** X8.  find_next_tick, fee_growth_outside, fee_within_range, get_fees and
    liquidity_to_tokens write nothing: whatever they return or raise, the
    pool and its objects are as before the call. *)
Theorem queries_write_nothing :
  (forall (i : Z) (higher : bool), readonly (@find_next_tick num i higher))
  /\ (forall i : Z, readonly (fee_growth_outside i))
  /\ (forall lower upper : ref, readonly (fee_within_range lower upper))
  /\ (forall position : ref, readonly (get_fees position))
  /\ (forall (liquidity : num) (lower upper : Z) (sqrt_price : option num),
        readonly (liquidity_to_tokens liquidity lower upper sqrt_price)).
Proof.
  split; [|split; [|split; [|split]]]; intros.
  - apply readonly_find_next_tick.
  - apply readonly_fee_growth_outside.
  - apply readonly_fee_within_range.
  - apply readonly_get_fees.
  - apply readonly_liquidity_to_tokens.
Qed.

End Queries.

(** ** Pair.find_next_tick on a sorted tick map *)

Lemma filter_all {A : Type} (f : A -> bool) (l : list A) :
  (forall x, In x l -> f x = true) -> filter f l = l.
Proof.
  induction l as [|a l IH]; intros Hl; cbn; trivial.
  rewrite (Hl a) by now left. f_equal. apply IH. intros x Hx. apply Hl. now right.
Qed.

Lemma filter_none {A : Type} (f : A -> bool) (l : list A) :
  (forall x, In x l -> f x = false) -> filter f l = [].
Proof.
  induction l as [|a l IH]; intros Hl; cbn; trivial.
  rewrite (Hl a) by now left. apply IH. intros x Hx. apply Hl. now right.
Qed.

Lemma existsb_none (t : Z) (l : list Z) :
  (forall x, In x l -> x <> t) -> existsb (Z.eqb t) l = false.
Proof.
  induction l as [|a l IH]; intros Hl; cbn; trivial.
  rewrite IH by (intros x Hx; apply Hl; now right).
  assert (a <> t) by (apply Hl; now left).
  destruct (Z.eqb_spec t a); [congruence|reflexivity].
Qed.

Lemma sorted_suffix (pre l : list Z) :
  StronglySorted Z.lt (pre ++ l) -> StronglySorted Z.lt l.
Proof.
  induction pre as [|a pre IH]; cbn; trivial.
  intros Hs. apply IH. now apply StronglySorted_inv in Hs.
Qed.

Lemma sorted_after (pre : list Z) (key : Z) (l : list Z) :
  StronglySorted Z.lt (pre ++ key :: l) -> forall x, In x l -> key < x.
Proof.
  intros Hs%sorted_suffix. apply StronglySorted_inv in Hs as [_ Hf].
  now apply Forall_forall.
Qed.

Lemma list_index_app (t : Z) (pre post : list Z) :
  (forall x, In x pre -> x <> t) ->
  list_index t (pre ++ t :: post) = Some (Z.of_nat (List.length pre)).
Proof.
  induction pre as [|a pre IH]; intros Hp; cbn [app list_index List.length].
  - now rewrite Z.eqb_refl.
  - assert (a <> t) by (apply Hp; now left).
    destruct (Z.eqb_spec t a); [congruence|].
    rewrite IH by (intros x Hx; apply Hp; now right).
    f_equal. lia.
Qed.

Lemma list_item_nth (l : list Z) (n : nat) (x : Z) :
  nth_error l n = Some x -> list_item l (Z.of_nat n) = Ok x.
Proof.
  intros E. unfold list_item.
  assert (Hn : (n < List.length l)%nat) by (apply nth_error_Some; congruence).
  destruct (Z.leb_spec 0 (Z.of_nat n)); [|lia].
  destruct (Z.ltb_spec (Z.of_nat n) (Z.of_nat (List.length l))); [|lia].
  cbn [andb]. rewrite Nat2Z.id, E. reflexivity.
Qed.

Lemma list_item_end (l : list Z) :
  list_item l (Z.of_nat (List.length l)) = Raise IndexError.
Proof.
  unfold list_item.
  destruct (Z.ltb_spec (Z.of_nat (List.length l)) (Z.of_nat (List.length l)));
    [lia|].
  rewrite andb_false_r.
  destruct (Z.ltb_spec (Z.of_nat (List.length l)) 0); [lia|].
  now rewrite andb_false_r.
Qed.

Lemma list_item_last (l : list Z) :
  l <> [] -> list_item l (-1) = Ok (last l 0).
Proof.
  intros Hl. unfold list_item.
  change (0 <=? -1) with false. cbn [andb].
  change (-1 <? 0) with true. rewrite andb_true_r.
  assert (Hn : (0 < List.length l)%nat) by (destruct l; cbn; [congruence|lia]).
  destruct (Z.leb_spec (- Z.of_nat (List.length l)) (-1)); [|lia].
  destruct (exists_last Hl) as (l' & a & ->).
  rewrite last_last, length_app. cbn [List.length].
  replace (Z.of_nat (List.length l' + 1) + -1)
    with (Z.of_nat (List.length l')) by lia.
  rewrite Nat2Z.id.
  rewrite nth_error_app2 by lia. rewrite Nat.sub_diag. reflexivity.
Qed.

(** Upward: the loop stops at the first key that is not below [t]. *)
Lemma find_next_loop_higher (keys : list Z) (t : Z) (rest pre : list Z) :
  keys = pre ++ rest ->
  StronglySorted Z.lt keys ->
  (forall x, In x pre -> x < t) ->
  find_next_loop keys t true rest None
  = match filter (fun k => t <? k) keys with
    | k :: _ => Ok (Some k)
    | [] => if existsb (Z.eqb t) keys then Raise IndexError else Ok None
    end.
Proof.
  revert pre. induction rest as [|key rest IH]; intros pre -> Hs Hp.
  - rewrite app_nil_r. cbn [find_next_loop].
    rewrite filter_none
      by (intros x Hx; apply Z.ltb_ge; specialize (Hp x Hx); lia).
    rewrite existsb_none by (intros x Hx; specialize (Hp x Hx); lia).
    reflexivity.
  - cbn [find_next_loop]. rewrite andb_false_r.
    pose proof (sorted_after _ _ _ Hs) as Hafter.
    assert (Hpre : filter (fun k => t <? k) pre = [])
      by (apply filter_none; intros x Hx; apply Z.ltb_ge;
          specialize (Hp x Hx); lia).
    destruct (Z.eqb_spec key t) as [->|Hne].
    + rewrite list_index_app by (intros x Hx; specialize (Hp x Hx); lia).
      cbn [of_option res_bind].
      rewrite filter_app, Hpre. cbn [app filter]. rewrite Z.ltb_irrefl.
      rewrite filter_all by (intros x Hx; apply Z.ltb_lt; now apply Hafter).
      destruct rest as [|k' rest'].
      * replace (Z.of_nat (List.length pre) + 1)
          with (Z.of_nat (List.length (pre ++ [t])))
          by (rewrite length_app; cbn; lia).
        rewrite list_item_end. cbn [res_bind].
        rewrite existsb_app. cbn [existsb]. rewrite Z.eqb_refl.
        now rewrite orb_true_r.
      * replace (Z.of_nat (List.length pre) + 1)
          with (Z.of_nat (S (List.length pre))) by lia.
        rewrite (list_item_nth _ _ k'); [reflexivity|].
        rewrite nth_error_app2 by lia.
        replace (S (List.length pre) - List.length pre)%nat with 1%nat by lia.
        reflexivity.
    + destruct (Z.ltb_spec t key) as [Hlt|Hge]; cbn [andb].
      * rewrite filter_app, Hpre. cbn [app filter].
        destruct (Z.ltb_spec t key); [reflexivity|lia].
      * apply (IH (pre ++ [key])).
        -- now rewrite <- app_assoc.
        -- exact Hs.
        -- intros x [Hx|[->|[]]]%in_app_or; [now apply Hp|lia].
Qed.

(** Downward, past [t]: the keys above [t] change nothing. *)
Lemma find_next_loop_lower_above (keys : list Z) (t : Z) (rest : list Z)
      (next : option Z) :
  (forall x, In x rest -> t < x) ->
  find_next_loop keys t false rest next = Ok next.
Proof.
  induction rest as [|key rest IH]; intros Hr; cbn [find_next_loop]; trivial.
  assert (t < key) by (apply Hr; now left).
  destruct (Z.ltb_spec key t); [lia|]. cbn [andb].
  destruct (Z.eqb_spec key t); [lia|].
  rewrite andb_false_r. apply IH. intros x Hx. apply Hr. now right.
Qed.

Lemma nil_or_snoc (l : list Z) : l = [] \/ exists l' a, l = l' ++ [a].
Proof.
  destruct l as [|x l]; [now left|right].
  destruct (@exists_last _ (x :: l)) as (l' & a & E); [discriminate|].
  eauto.
Qed.

Lemma hd_rev_snoc (l : list Z) (a : Z) : hd_error (rev (l ++ [a])) = Some a.
Proof. rewrite rev_app_distr. reflexivity. Qed.

(** Downward: the loop remembers the last key below [t]. *)
Lemma find_next_loop_lower (keys : list Z) (t : Z) (rest pre : list Z) :
  keys = pre ++ rest ->
  StronglySorted Z.lt keys ->
  (forall x, In x pre -> x < t) ->
  find_next_loop keys t false rest (hd_error (rev pre))
  = match rev (filter (fun k => k <? t) keys) with
    | k :: _ => Ok (Some k)
    | [] => if existsb (Z.eqb t) keys then Ok (Some (last keys 0))
            else Ok None
    end.
Proof.
  revert pre. induction rest as [|key rest IH]; intros pre -> Hs Hp.
  - rewrite app_nil_r. cbn [find_next_loop].
    rewrite filter_all
      by (intros x Hx; apply Z.ltb_lt; now apply Hp).
    destruct (rev pre) as [|k l] eqn:E; cbn [hd_error]; trivial.
    assert (pre = []) as -> by (apply (f_equal (@rev Z)) in E;
                                now rewrite rev_involutive in E).
    reflexivity.
  - cbn [find_next_loop].
    pose proof (sorted_after _ _ _ Hs) as Hafter.
    assert (Hpre : filter (fun k => k <? t) pre = pre)
      by (apply filter_all; intros x Hx; apply Z.ltb_lt; now apply Hp).
    destruct (Z.ltb_spec key t) as [Hlt|Hge]; cbn [andb negb].
    + rewrite <- (hd_rev_snoc pre key).
      apply (IH (pre ++ [key])).
      * now rewrite <- app_assoc.
      * exact Hs.
      * intros x [Hx|[->|[]]]%in_app_or; [now apply Hp|lia].
    + assert (Hrest : filter (fun k => k <? t) (key :: rest) = []).
      { apply filter_none. intros x [->|Hx]; apply Z.ltb_ge; [lia|].
        specialize (Hafter x Hx). lia. }
      rewrite filter_app, Hpre, Hrest, app_nil_r.
      destruct (Z.eqb_spec key t) as [->|Hne].
      * rewrite list_index_app by (intros x Hx; specialize (Hp x Hx); lia).
        cbn [of_option res_bind].
        destruct (nil_or_snoc pre) as [->|(pre' & a & ->)].
        -- cbn [app List.length Z.of_nat Z.add rev].
           change (0 - 1) with (-1).
           rewrite list_item_last by discriminate. cbn [res_bind].
           cbn [existsb]. rewrite Z.eqb_refl. reflexivity.
        -- rewrite rev_app_distr. cbn [rev app].
           rewrite length_app. cbn [List.length].
           replace (Z.of_nat (List.length pre' + 1) - 1)
             with (Z.of_nat (List.length pre')) by lia.
           rewrite (list_item_nth _ _ a); [reflexivity|].
           rewrite <- app_assoc. rewrite nth_error_app2 by lia.
           rewrite Nat.sub_diag. reflexivity.
      * rewrite andb_false_r.
        rewrite find_next_loop_lower_above
          by (intros x Hx; specialize (Hafter x Hx); lia).
        destruct (rev pre) as [|k l] eqn:E; cbn [hd_error]; trivial.
        assert (pre = []) as -> by (apply (f_equal (@rev Z)) in E;
                                    now rewrite rev_involutive in E).
        cbn [app]. rewrite existsb_none; trivial.
        intros x [->|Hx]; [lia|]. specialize (Hafter x Hx). lia.
Qed.

Section FindNextTick.
Context {num : Type} `{PyNum num}.

(** X9.  Upward, on a tick map whose keys increase: find_next_tick returns the
    smallest active tick above [t] when there is one; when there is none
    it returns None if [t] is not an active tick, and raises IndexError if
    it is one (the largest). *)
Theorem find_next_tick_higher_sorted (t : Z) (w : World num) :
  ticks_sorted w ->
  find_next_tick t true w
  = (match filter (fun k => t <? k) (dict_keys (Pair.ticks (self w))) with
     | k :: _ => Ok (Some k)
     | [] =>
         if existsb (Z.eqb t) (dict_keys (Pair.ticks (self w)))
         then Raise IndexError
         else Ok None
     end, w).
Proof.
  intros Hs. unfold find_next_tick, bind, get_self, lift, find_next_tick_keys.
  f_equal. apply (find_next_loop_higher _ t _ []); trivial.
  intros x [].
Qed.

(** X10.  Downward, on a tick map whose keys increase: find_next_tick returns the
    largest active tick below [t] when there is one; when there is none it
    returns None if [t] is not an active tick, and the largest active tick
    of all if it is one (the smallest). *)
Theorem find_next_tick_lower_sorted (t : Z) (w : World num) :
  ticks_sorted w ->
  find_next_tick t false w
  = (match rev (filter (fun k => k <? t) (dict_keys (Pair.ticks (self w)))) with
     | k :: _ => Ok (Some k)
     | [] =>
         if existsb (Z.eqb t) (dict_keys (Pair.ticks (self w)))
         then Ok (Some (last (dict_keys (Pair.ticks (self w))) 0))
         else Ok None
     end, w).
Proof.
  intros Hs. unfold find_next_tick, bind, get_self, lift, find_next_tick_keys.
  f_equal. apply (find_next_loop_lower _ t _ []); trivial.
  intros x [].
Qed.

End FindNextTick.

(** ** Pair.sort_tick_map *)

Lemma insert_sorted_perm {V : Type} (kv : Z * V) (d : list (Z * V)) :
  Permutation (kv :: d) (insert_sorted kv d).
Proof.
  induction d as [|kv' d IH]; cbn [insert_sorted]; [reflexivity|].
  destruct (fst kv <=? fst kv'); [reflexivity|].
  rewrite perm_swap. now apply perm_skip.
Qed.

Lemma sort_items_perm {V : Type} (d : list (Z * V)) :
  Permutation d (sort_items d).
Proof.
  induction d as [|kv d IH]; cbn; [reflexivity|].
  rewrite <- insert_sorted_perm. now apply perm_skip.
Qed.

Lemma insert_sorted_sorted {V : Type} (kv : Z * V) (d : list (Z * V)) :
  StronglySorted Z.le (dict_keys d) ->
  StronglySorted Z.le (dict_keys (insert_sorted kv d)).
Proof.
  induction d as [|kv' d IH]; cbn [insert_sorted dict_keys map]; intros Hs.
  - repeat constructor.
  - apply StronglySorted_inv in Hs as [Hs Hall].
    destruct (Z.leb_spec (fst kv) (fst kv')) as [Hle|Hgt];
      cbn [dict_keys map].
    + constructor; [now constructor|].
      constructor; trivial.
      eapply Forall_impl; [|exact Hall]. intros x Hx. cbn beta in Hx. lia.
    + constructor; [now apply IH|].
      apply Forall_forall. intros x Hx.
      apply (in_map_iff fst) in Hx as (y & <- & Hy).
      apply In_insert_sorted in Hy as [->|Hy]; [lia|].
      rewrite Forall_forall in Hall. apply Hall. now apply in_map.
Qed.

Lemma sort_items_sorted {V : Type} (d : list (Z * V)) :
  StronglySorted Z.le (dict_keys (sort_items d)).
Proof.
  induction d as [|kv d IH]; cbn; [constructor|].
  now apply insert_sorted_sorted.
Qed.

Lemma sorted_distinct (l : list Z) :
  StronglySorted Z.le l -> NoDup l -> StronglySorted Z.lt l.
Proof.
  induction 1 as [|a l Hs IH Hall]; intros Hnd; [constructor|].
  apply NoDup_cons_iff in Hnd as [Hni Hnd].
  constructor; [now apply IH|].
  rewrite Forall_forall in *. intros x Hx.
  specialize (Hall x Hx).
  assert (a <> x) by (intros ->; contradiction). lia.
Qed.

Lemma sort_items_strict {V : Type} (d : list (Z * V)) :
  NoDup (dict_keys d) -> StronglySorted Z.lt (dict_keys (sort_items d)).
Proof.
  intros Hnd. apply sorted_distinct; [apply sort_items_sorted|].
  eapply Permutation_NoDup; [|exact Hnd].
  unfold dict_keys. apply Permutation_map, sort_items_perm.
Qed.

Section SortTickMap.
Context {num : Type} `{PyNum num}.

(** X11.  sort_tick_map returns, leaving in [ticks] the same items in the order
    of their keys, and nothing else changed. *)
Theorem sort_tick_map_sorts (w : World num) :
  exists w',
    sort_tick_map w = (Ok tt, w')
    /\ Permutation (Pair.ticks (self w)) (Pair.ticks (self w'))
    /\ StronglySorted Z.le (dict_keys (Pair.ticks (self w')))
    /\ Pair.set_ticks (Pair.ticks (self w)) (self w') = self w
    /\ tick_objs w' = tick_objs w
    /\ position_objs w' = position_objs w.
Proof.
  eexists. split; [reflexivity|]. cbn.
  split; [apply sort_items_perm|]. split; [apply sort_items_sorted|].
  destruct w as [[] ? ?]; cbn. repeat split.
Qed.

End SortTickMap.

(** ** The order of the active tick map *)

Lemma keys_dict_del_sub {V : Type} (k : Z) (d : list (Z * V)) :
  forall x, In x (dict_keys (dict_del Z.eqb k d)) -> In x (dict_keys d).
Proof. intros x. apply keys_dict_del. Qed.

Lemma distinct_dict_del {V : Type} (k : Z) (d : list (Z * V)) :
  NoDup (dict_keys d) -> NoDup (dict_keys (dict_del Z.eqb k d)).
Proof.
  induction d as [|[k' v'] d IH]; cbn; trivial.
  intros Hnd. apply NoDup_cons_iff in Hnd as [Hni Hnd].
  destruct (Z.eqb k k'); trivial.
  cbn. apply NoDup_cons; [|now apply IH].
  intros Hin. apply Hni. now apply keys_dict_del_sub in Hin.
Qed.

Lemma distinct_dict_set {V : Type} (k : Z) (v : V) (d : list (Z * V)) :
  NoDup (dict_keys d) -> NoDup (dict_keys (dict_set Z.eqb k v d)).
Proof.
  induction d as [|[k' v'] d IH]; cbn.
  - intros _. repeat constructor. intros [].
  - intros Hnd. apply NoDup_cons_iff in Hnd as [Hni Hnd].
    destruct (Z.eqb_spec k k') as [->|Hne]; cbn.
    + now apply NoDup_cons.
    + apply NoDup_cons; [|now apply IH].
      intros [E|Hin]%keys_dict_set_Z; [congruence|contradiction].
Qed.

Lemma distinct_sort_items {V : Type} (d : list (Z * V)) :
  NoDup (dict_keys d) -> NoDup (dict_keys (sort_items d)).
Proof.
  intros Hnd. eapply Permutation_NoDup; [|exact Hnd].
  unfold dict_keys. apply Permutation_map, sort_items_perm.
Qed.

Lemma sorted_is_distinct (l : list Z) : StronglySorted Z.lt l -> NoDup l.
Proof.
  induction 1 as [|a l Hs IH Hall]; constructor; trivial.
  intros Hin. rewrite Forall_forall in Hall. specialize (Hall a Hin). lia.
Qed.

Lemma sorted_dict_del {V : Type} (k : Z) (d : list (Z * V)) :
  StronglySorted Z.lt (dict_keys d) ->
  StronglySorted Z.lt (dict_keys (dict_del Z.eqb k d)).
Proof.
  induction d as [|[k' v'] d IH]; cbn; trivial.
  intros Hs. apply StronglySorted_inv in Hs as [Hs Hall].
  destruct (Z.eqb k k'); trivial.
  cbn. constructor; [now apply IH|].
  rewrite Forall_forall in *. intros x Hx. apply Hall.
  now apply keys_dict_del_sub in Hx.
Qed.

Lemma sorted_sort_items {V : Type} (d : list (Z * V)) :
  StronglySorted Z.lt (dict_keys d) ->
  StronglySorted Z.lt (dict_keys (sort_items d)).
Proof. intros Hs. now apply sort_items_strict, sorted_is_distinct. Qed.

Section OnTicks.
Context {num : Type} `{PyNum num}.
Variable T : list (Z * ref) -> Prop.

Lemma on_ticks_self (f : Pair.t num -> Pair.t num) :
  (forall p, Pair.ticks (f p) = Pair.ticks p) ->
  stable (on_ticks T) (upd_self f).
Proof.
  intros Hf. apply stable_upd_self. intros w Hw.
  unfold on_ticks in *. cbn. now rewrite Hf.
Qed.

Lemma on_ticks_tick (r : ref) (f : Tick.t num -> Tick.t num) :
  stable (on_ticks T) (upd_tick r f).
Proof. apply stable_upd_tick. intros w Hw. exact Hw. Qed.

Lemma on_ticks_position (r : ref) (f : Position.t num -> Position.t num) :
  stable (on_ticks T) (upd_position r f).
Proof. apply stable_upd_position. intros w Hw. exact Hw. Qed.

Lemma on_ticks_new_tick (k : Tick.t num) : stable (on_ticks T) (new_tick k).
Proof. apply stable_new_tick. intros w Hw. exact Hw. Qed.

Lemma on_ticks_new_position (pos : Position.t num) :
  stable (on_ticks T) (new_position pos).
Proof. apply stable_new_position. intros w Hw. exact Hw. Qed.

Lemma on_ticks_positions_del (k : pos_key) :
  stable (on_ticks T) (@positions_del num k).
Proof.
  unfold positions_del.
  stable_method ltac:(apply on_ticks_self; solve [intros; reflexivity]).
Qed.

Ltac ticks_leaf :=
  first
    [ apply on_ticks_self; solve [intros; reflexivity]
    | apply on_ticks_tick
    | apply on_ticks_position
    | apply on_ticks_new_tick
    | apply on_ticks_new_position
    | apply on_ticks_positions_del ].

Lemma on_ticks_collect_fees (position : ref) :
  stable (on_ticks T) (collect_fees position).
Proof. unfold collect_fees. stable_method ticks_leaf. Qed.

Lemma on_ticks_withdraw_fees (position : ref) :
  stable (on_ticks T) (withdraw_fees position).
Proof.
  unfold withdraw_fees.
  stable_method ltac:(first [ticks_leaf | apply on_ticks_collect_fees]).
Qed.

Lemma on_ticks_bump_tick (i : Z) (net gross : num -> num) :
  stable (on_ticks T) (bump_tick i net gross).
Proof. unfold bump_tick, ticks_item_upd. stable_method ticks_leaf. Qed.

Lemma on_ticks_swap (fuel : nat) (token : string) (amount_in limit : num)
      (simulate : bool) :
  stable (on_ticks T) (swap fuel token amount_in limit simulate).
Proof.
  intros w r w' Hw. unfold swap.
  assert (P_self : forall f : Pair.t num -> Pair.t num,
             (forall p, Pair.ticks (f p) = Pair.ticks p
                        /\ Pair.all_ticks (f p) = Pair.all_ticks p
                        /\ Pair.positions (f p) = Pair.positions p) ->
             stable (on_ticks T) (upd_self f)).
  { intros f Hf. apply on_ticks_self. intros p. apply Hf. }
  assert (P_tick : forall (r : ref) (f : Tick.t num -> Tick.t num),
             (forall k, tick_core (f k) = tick_core k) ->
             stable (on_ticks T) (upd_tick r f)).
  { intros r0 f _. apply on_ticks_tick. }
  assert (P_rev : stable (on_ticks T) (revert_swap (self w))).
  { unfold revert_swap. apply stable_upd_self. intros w1 _. exact Hw. }
  pose proof (stable_swap_try (on_ticks T) P_self P_tick fuel (self w) token
                amount_in limit simulate P_rev) as Htry.
  destruct (swap_try fuel (self w) token amount_in limit simulate w)
    as [[a|e|] w1] eqn:E; specialize (Htry _ _ _ Hw E);
    intros E2; injection E2 as _ <-; first [exact Htry | exact Hw].
Qed.

Hypothesis T_del : forall i d, T d -> T (dict_del Z.eqb i d).
Hypothesis T_sort : forall d, T d -> T (sort_items d).

Lemma on_ticks_ticks_del (i : Z) : stable (on_ticks T) (@ticks_del num i).
Proof.
  intros w r w' Hw. unfold ticks_del, bind, get_self, upd_self, raise.
  destruct (dict_mem Z.eqb i (Pair.ticks (self w)));
    intros E; injection E as _ <-; trivial.
  unfold on_ticks in *. cbn. now apply T_del.
Qed.

Lemma on_ticks_sort_tick_map : stable (on_ticks T) (@sort_tick_map num).
Proof.
  intros w r w' Hw E. injection E as _ <-.
  unfold on_ticks in *. cbn. now apply T_sort.
Qed.

Lemma on_ticks_update_tick_map (i : Z) :
  stable (on_ticks T) (update_tick_map i).
Proof.
  unfold update_tick_map.
  stable_method ltac:(first [ ticks_leaf | apply on_ticks_ticks_del
                            | apply on_ticks_sort_tick_map ]).
Qed.

Lemma on_ticks_remove_liquidity (position : ref) (liquidity : num) :
  stable (on_ticks T) (remove_liquidity position liquidity).
Proof.
  unfold remove_liquidity.
  stable_method ltac:(first [ ticks_leaf | apply on_ticks_collect_fees
                            | apply on_ticks_bump_tick
                            | apply on_ticks_update_tick_map ]).
Qed.

Hypothesis T_set : forall i r d, T d -> T (dict_set Z.eqb i r d).

Lemma on_ticks_set (b : Z) (r : ref) :
  stable (on_ticks T)
    (upd_self (fun p : Pair.t num =>
                 Pair.set_ticks (dict_set Z.eqb b r (Pair.ticks p)) p)).
Proof.
  intros w x w' Hw E. injection E as _ <-.
  unfold on_ticks in *. cbn. now apply T_set.
Qed.

Lemma on_ticks_touch_boundary (b : Z) (liquidity net0 : num)
      (net : num -> num) :
  stable (on_ticks T) (touch_boundary b liquidity net0 net).
Proof.
  unfold touch_boundary.
  stable_method ltac:(first [ ticks_leaf | apply on_ticks_set
                            | apply on_ticks_bump_tick ]).
Qed.

(** The part of add_liquidity before the call of sort_tick_map. *)
Lemma on_ticks_add_liquidity (owner : string) (liquidity : num)
      (lower upper : Z) :
  stable (on_ticks T) (add_liquidity owner liquidity lower upper).
Proof.
  unfold add_liquidity.
  stable_method ltac:(first [ ticks_leaf | apply on_ticks_collect_fees
                            | apply on_ticks_bump_tick
                            | apply on_ticks_touch_boundary
                            | apply on_ticks_sort_tick_map ]).
Qed.

End OnTicks.

Section TickOrder.
Context {num : Type} `{PyNum num}.

Ltac ticks_leaf :=
  first
    [ apply on_ticks_self; solve [intros; reflexivity]
    | apply on_ticks_tick
    | apply on_ticks_position
    | apply on_ticks_new_tick
    | apply on_ticks_new_position
    | apply on_ticks_positions_del ].

Lemma hoare_stable_any {A : Type} (P : World num -> Prop) (m : M num A) :
  stable P m -> hoare P m (fun _ => P) (fun _ => True).
Proof. intros Hm w r w' HP E. destruct r; trivial. eapply Hm; eauto. Qed.

Lemma distinct_add_liquidity (owner : string) (liquidity : num)
      (lower upper : Z) :
  stable ticks_distinct (add_liquidity owner liquidity lower upper).
Proof.
  apply on_ticks_add_liquidity.
  - intros d Hd. now apply distinct_sort_items.
  - intros i r d Hd. now apply distinct_dict_set.
Qed.

Lemma distinct_remove_liquidity (position : ref) (liquidity : num) :
  stable ticks_distinct (remove_liquidity position liquidity).
Proof.
  apply on_ticks_remove_liquidity.
  - intros i d Hd. now apply distinct_dict_del.
  - intros d Hd. now apply distinct_sort_items.
Qed.

(** The keys of the active tick map stay distinct, so that sorting its
    items never has to compare two Tick objects. *)
Lemma reachable_ticks_distinct (w : World num) :
  reachable w -> ticks_distinct w.
Proof.
  induction 1 as [tx ty price fee spacing w E | w w' Hreach IH Hstep].
  - unfold init in E.
    destruct (sqrt_price_to_tick _ price) as [tick| |]; cbn in E;
      try discriminate.
    injection E as <-. constructor.
  - destruct Hstep.
    + eapply distinct_add_liquidity; eauto.
    + eapply distinct_remove_liquidity; eauto.
    + eapply on_ticks_collect_fees; eauto.
    + eapply on_ticks_withdraw_fees; eauto.
    + eapply on_ticks_swap; eauto.
Qed.

Lemma sorted_after_add_liquidity (owner : string) (liquidity : num)
      (lower upper : Z) :
  hoare ticks_distinct (add_liquidity owner liquidity lower upper)
        (fun _ => ticks_sorted) (fun _ => True).
Proof.
  unfold add_liquidity.
  eapply hoare_bind with (Q := fun _ => ticks_distinct).
  { apply hoare_stable_any. apply stable_readonly. auto with readonly. }
  intros p.
  eapply hoare_bind with (Q := fun _ => ticks_distinct).
  { apply hoare_stable_any. stable_method ticks_leaf. }
  intros _.
  eapply hoare_bind with (Q := fun _ => ticks_distinct).
  { apply hoare_stable_any. apply stable_readonly. auto with readonly. }
  intros p'.
  eapply hoare_bind with (Q := fun _ => ticks_distinct).
  { apply hoare_stable_any.
    assert (T_set : forall (i : Z) (r : ref) (d : list (Z * ref)),
               NoDup (dict_keys d) -> NoDup (dict_keys (dict_set Z.eqb i r d)))
      by (intros; now apply distinct_dict_set).
    stable_method ltac:(first [ ticks_leaf | apply on_ticks_collect_fees
                              | apply on_ticks_bump_tick
                              | apply on_ticks_touch_boundary; exact T_set ]). }
  intros position.
  eapply hoare_bind with (Q := fun _ => ticks_sorted).
  { intros w r w' Hw E. injection E as <- <-.
    unfold ticks_sorted, ticks_distinct, on_ticks in *. cbn.
    now apply sort_items_strict. }
  intros _.
  apply hoare_stable_any. stable_method ticks_leaf.
Qed.

(** X12.  After an add_liquidity that returns, on a pool reached by calls of
    the methods, the active ticks are in increasing order. *)
Theorem add_liquidity_sorts_ticks (owner : string) (liquidity : num)
        (lower upper : Z) (w w' : World num) (position : ref) :
  reachable w ->
  add_liquidity owner liquidity lower upper w = (Ok position, w') ->
  ticks_sorted w'.
Proof.
  intros Hw%reachable_ticks_distinct E.
  exact (sorted_after_add_liquidity owner liquidity lower upper _ _ _ Hw E).
Qed.

(** X13.  remove_liquidity, collect_fees, withdraw_fees and swap keep the active
    ticks in increasing order, whatever their arguments and their
    outcome. *)
Theorem ticks_stay_sorted :
  (forall (position : ref) (liquidity : num),
      stable ticks_sorted (remove_liquidity position liquidity))
  /\ (forall position : ref, stable ticks_sorted (collect_fees position))
  /\ (forall position : ref, stable ticks_sorted (withdraw_fees position))
  /\ (forall (fuel : nat) (token : string) (amount_in limit : num)
             (simulate : bool),
        stable ticks_sorted (swap fuel token amount_in limit simulate)).
Proof.
  split; [|split; [|split]]; intros.
  - apply on_ticks_remove_liquidity.
    + intros i d Hd. now apply sorted_dict_del.
    + intros d Hd. now apply sorted_sort_items.
  - apply on_ticks_collect_fees.
  - apply on_ticks_withdraw_fees.
  - apply on_ticks_swap.
Qed.

End TickOrder.

(** ** Fees *)

(** X14.  deduct_fees on an int: the fee is an int, and what is left is the int
    amount less the fee, so that the two results add up to the amount.  The
    call raises only when the product of the amount and the fee tier is
    infinite (OverflowError) or not a number (ValueError). *)
Theorem deduct_fees_of_an_int (p : Pair.t PyNumber.t) (amount_in : Z) :
  match deduct_fees p (PyNumber.PyInt amount_in) with
  | Ok (amount_leftover, fees_deducted) =>
      amount_leftover = PyNumber.PyInt (amount_in - fees_deducted)
  | Raise e => e = OverflowError \/ e = ValueError
  | Diverge => False
  end.
Proof.
  unfold deduct_fees. cbv [nint nmul nsub of_int PyNumber_PyNum].
  destruct (Pair.fee_tier p) as [z|f]; cbn [PyNumber.mul PyNumber.int];
    [reflexivity|].
  destruct (Prim2SF _); cbn [of_sum res_bind PyNumber.sub]; auto.
Qed.

(** X15.  The fees on doubles.  In the pool Pair("X", "Y", 1, fee_tier, 250000):
    with the fee tier 3 * 2^-54, deduct_fees(2.0**54) takes the fee 3 and
    leaves 2^54 - 4, not 2^54 - 3; with the fee tier 3 / 1000,
    add_fees(1000) charges 1000 / (1 - 3 / 1000) and returns a fee that is
    not the fee-tier share of the charge; with the fee tier 5 / 10000,
    add_fees on the amount 33541221.000000004 returns the charge 33558000.0
    and a fee below 16779, and deduct_fees on that charge takes the fee
    16779 and leaves 33541221.0, less than the amount. *)
Theorem fees_round_on_doubles :
  let pool (fee_tier : float) : Pair.t PyNumber.t :=
    Pair.mk "X" "Y" (PyNumber.PyInt 0) (PyNumber.PyInt 1)
            (PyNumber.PyFloat fee_tier) 9000000 (-6) 250000
            (PyNumber.PyInt 1) 0 [] [] []
            (PyNumber.PyInt 0) (PyNumber.PyInt 0)
            (PyNumber.PyInt 0) (PyNumber.PyInt 0) in
  (forall fee_tier,
      init "X" "Y" (PyNumber.PyInt 1) (PyNumber.PyFloat fee_tier) 250000
      = Ok (mkWorld (pool fee_tier) [] []))
  /\ deduct_fees (pool 0x1.8p-53%float) (PyNumber.PyFloat 0x1p+54)
     = Ok (PyNumber.PyFloat (0x1p+54 - 4), 3)
  /\ (exists amount_used fees,
        add_fees (pool (3 / 1000)%float) (PyNumber.PyInt 1000)
        = Ok (amount_used, fees)
        /\ amount_used = PyNumber.PyFloat (1000 / (1 - 3 / 1000))
        /\ neqb fees (nmul amount_used (PyNumber.PyFloat (3 / 1000))) = false)
  /\ (exists fees,
        add_fees (pool (5 / 10000)%float)
                 (PyNumber.PyFloat 0x1.ffcc650000001p+24)
        = Ok (PyNumber.PyFloat 33558000, fees)
        /\ nltb fees (of_int 16779) = true
        /\ deduct_fees (pool (5 / 10000)%float) (PyNumber.PyFloat 33558000)
           = Ok (PyNumber.PyFloat 33541221, 16779)
        /\ nltb (PyNumber.PyFloat 33541221)
                (PyNumber.PyFloat 0x1.ffcc650000001p+24) = true).
Proof.
  cbv zeta. split; [|split; [|split]].
  - intros fee_tier. reflexivity.
  - vm_compute. reflexivity.
  - eexists _, _. split; [vm_compute; reflexivity|].
    split; vm_compute; reflexivity.
  - eexists. split; [vm_compute; reflexivity|].
    repeat split; vm_compute; reflexivity.
Qed.

(** ** Prices along the grid of ticks *)

(** X17.  On Python's numbers, with the constants of the constructor: along the
    multiples of 10000 from -441000000 to 441000000, the sqrt-price that
    tick_to_sqrt_price gives a tick is above 0, and below the sqrt-price
    of the next tick of the grid. *)
Theorem tick_to_sqrt_price_increasing (p : Pair.t PyNumber.t) (t : Z) :
  Pair.std_increment_distance p = 9000000 ->
  Pair.exp_at_price_one p = -6 ->
  t mod 10000 = 0 ->
  -441000000 <= t < 441000000 ->
  exists sp sp',
    tick_to_sqrt_price p t = Ok sp
    /\ tick_to_sqrt_price p (t + 10000) = Ok sp'
    /\ nltb (of_int 0) (fst sp) = true
    /\ nltb (fst sp) (fst sp') = true.
Proof.
  intros HD HE Hm [Hlo Hhi].
  assert (Hq : (t + 441000000) / 10000 < 88200).
  { apply Z.div_lt_upper_bound; lia. }
  assert (H0 : 0 <= (t + 441000000) / 10000) by (apply Z.div_pos; lia).
  assert (Hi : (S (Z.to_nat ((t + 441000000) / 10000)) < Z.to_nat 88201)%nat)
    by lia.
  destruct (checks_next _ _ _ _ checks_in_range _ Hi)
    as (s & s' & Es & Es' & Hlt).
  destruct (checks_nth _ _ _ _ checks_in_range
                       (Z.to_nat ((t + 441000000) / 10000)) ltac:(lia))
    as (s0 & Es0 & Hpos & _).
  rewrite <- (grid_index t Hm Hlo) in Es, Es', Es0.
  assert (s0 = s) as -> by congruence.
  destruct (tabulated_sqrt_price p HD HE _ _ Es) as (sp & Ep & Fp).
  destruct (tabulated_sqrt_price p HD HE _ _ Es') as (sp' & Ep' & Fp').
  exists sp, sp'. rewrite Fp, Fp'. repeat split; trivial.
Qed.

(** ** Collecting fees *)

(** X18.  collect_fees twice in a row.  After swap("Y", 2000, 1e9) in the pool
    with positions A and B, collect_fees on position A returns (0, 1000.0)
    and books the 1000.0 on the position; a second collect_fees returns
    (0, 0.0) and leaves the pool and its objects as they are. *)
Theorem collect_fees_twice :
  let w := Scenario.pool_at_boundary in
  let w' := Scenario.after (collect_fees Scenario.position_A) w in
  fst (collect_fees Scenario.position_A w)
  = Ok (PyNumber.PyInt 0, PyNumber.PyFloat 1000)
  /\ Position.fees_y (nth Scenario.position_A (position_objs w')
                          default_position)
     = PyNumber.PyFloat 1000
  /\ collect_fees Scenario.position_A w'
     = (Ok (PyNumber.PyInt 0, PyNumber.PyFloat 0), w').
Proof. vm_compute. repeat split; reflexivity. Qed.

(** ** A swap of nothing *)

Section SwapNothing.
Context {num : Type} `{PyNum num}.

(** X19.  When the amount is not above 0 the loop is not entered: with a next
    tick in the direction of the swap, the call returns 0 without a fee, a
    price move or a slippage test, and books the amount as it is given. *)
Theorem swap_without_amount (fuel : nat) (token : string)
        (amount_in limit : num) (w : World num) (next : Z)
        (target target' : num) :
  nltb (of_int 0) amount_in = false ->
  fst (find_next_tick (Pair.curr_tick_idx (self w))
                      (negb (String.eqb token (Pair.token_x (self w)))) w)
  = Ok (Some next) ->
  tick_to_sqrt_price (self w) next = Ok (target, target') ->
  swap fuel token amount_in limit false w
  = (Ok (Some (of_int 0)),
     mkWorld
       (if String.eqb token (Pair.token_x (self w))
        then Pair.set_token_y_balance
               (nsub (Pair.token_y_balance (self w)) (of_int 0))
               (Pair.set_token_x_balance
                  (nadd (Pair.token_x_balance (self w)) amount_in) (self w))
        else Pair.set_token_x_balance
               (nsub (Pair.token_x_balance (self w)) (of_int 0))
               (Pair.set_token_y_balance
                  (nadd (Pair.token_y_balance (self w)) amount_in) (self w)))
       (tick_objs w) (position_objs w)).
Proof.
  intros Hamt Hnext Htick.
  assert (Hloop : forall body,
             while_remaining body fuel (of_int 0, amount_in, next, target) w
             = (Ok (of_int 0), w)).
  { intros body. destruct fuel; cbn [while_remaining]; now rewrite Hamt. }
  unfold swap, swap_try. rewrite bind_get_self.
  destruct (String.eqb token (Pair.token_x (self w))); cbn [negb] in Hnext.
  - assert (Hx : swap_x_for_y fuel amount_in limit w = (Ok (of_int 0), w)).
    { unfold swap_x_for_y. rewrite bind_get_self. unfold bind at 1.
      rewrite (readonly_run _ w (readonly_find_next_tick _ false)), Hnext.
      unfold bind at 1. unfold lift. rewrite Htick. apply Hloop. }
    unfold bind at 1. unfold bind at 1. rewrite Hx. reflexivity.
  - assert (Hy : swap_y_for_x fuel amount_in limit w = (Ok (of_int 0), w)).
    { unfold swap_y_for_x. rewrite bind_get_self. unfold bind at 1.
      rewrite (readonly_run _ w (readonly_find_next_tick _ true)), Hnext.
      unfold bind at 1. unfold lift. rewrite Htick. apply Hloop. }
    unfold bind at 1. unfold bind at 1. rewrite Hy. reflexivity.
Qed.

End SwapNothing.

(** ** The methods on the pools of the scenario *)

(** X20.  remove_liquidity is not all or nothing.  Position B has been removed
    in full, and its lower tick 55250000 dropped from the active ticks.
    remove_liquidity(position_B, 1) raises KeyError at the lookup of that
    tick, after it has taken 1 from the active liquidity (-4 to -5) and
    from the liquidity of the position (0 to -1). *)
Theorem remove_liquidity_raises_midway :
  let w := Scenario.pool_B_removed in
  let w' :=
    snd (remove_liquidity Scenario.position_B (PyNumber.PyInt 1) w) in
  let liquidity_B (w : World PyNumber.t) :=
    Position.liquidity
      (nth Scenario.position_B (position_objs w) default_position) in
  dict_mem Z.eqb 55250000 (Pair.ticks (self w)) = false
  /\ fst (remove_liquidity Scenario.position_B (PyNumber.PyInt 1) w)
     = Raise KeyError
  /\ Pair.liquidity (self w) = PyNumber.PyInt (-4)
  /\ Pair.liquidity (self w') = PyNumber.PyInt (-5)
  /\ liquidity_B w = PyNumber.PyInt 0
  /\ liquidity_B w' = PyNumber.PyInt (-1).
Proof. vm_compute. repeat split; reflexivity. Qed.

(** X21.  The constructor computes the current tick from the initial sqrt-price,
    and fails when the price is off the table of price levels: IndexError
    for the sqrt-price 0.0 and for 2^84, UnboundLocalError for a NaN.  With
    the sqrt-price 1 the pool starts at tick 0. *)
Theorem constructor_needs_a_price_on_the_table :
  init "X" "Y" (PyNumber.PyFloat 0) (PyNumber.PyFloat 0.5) 250000
  = Raise IndexError
  /\ init "X" "Y" (PyNumber.PyFloat 0x1p+84) (PyNumber.PyFloat 0.5) 250000
     = Raise IndexError
  /\ init "X" "Y" (PyNumber.PyFloat nan) (PyNumber.PyFloat 0.5) 250000
     = Raise UnboundLocalError
  /\ (exists w,
        init "X" "Y" (PyNumber.PyInt 1) (PyNumber.PyFloat 0.5) 250000 = Ok w
        /\ Pair.curr_tick_idx (self w) = 0).
Proof.
  vm_compute. repeat split; try reflexivity.
  eexists. split; reflexivity.
Qed.

(** X22.  A swap that runs past the largest active tick.  In the pool with
    position A alone, swap("Y", 100000, 1e9) reaches tick 62000000; there
    find_next_tick raises IndexError, which the swap turns into None.  The
    pool and its Tick objects are as before the call. *)
Theorem swap_past_the_largest_tick :
  let w := Scenario.pool_A in
  dict_keys (Pair.ticks (self w)) = [54000000; 62000000]
  /\ fst (swap_try 10 (self w) "Y" (PyNumber.PyInt 100000)
                   (PyNumber.PyFloat 1000000000) false w)
     = Raise IndexError
  /\ swap 10 "Y" (PyNumber.PyInt 100000) (PyNumber.PyFloat 1000000000) false w
     = (Ok None, w).
Proof. vm_compute. repeat split; reflexivity. Qed.

(** X23.  The roundings of tick_by_tick_spacing with a spacing of 250000: -1.0
    goes to 0 and -250001 to -250000, toward zero; 250001 goes to
    250000. *)
Theorem tick_by_tick_spacing_examples :
  let p := self Scenario.pool0 in
  tick_by_tick_spacing p (PyNumber.PyFloat (-1)) = Ok 0
  /\ tick_by_tick_spacing p (PyNumber.PyInt (-250001)) = Ok (-250000)
  /\ tick_by_tick_spacing p (PyNumber.PyInt 250001) = Ok 250000
  /\ tick_by_tick_spacing p (PyNumber.PyFloat 499999.5) = Ok 250000.
Proof. vm_compute. repeat split; reflexivity. Qed.

(** X24.  add_liquidity for a key that has a position: with position A of
    liquidity 2 in place, add_liquidity("A", 3, 54000000, 62000000) returns
    the same Position object, now of liquidity 5, and creates no object;
    the active liquidity goes from 2 to 5. *)
Theorem add_liquidity_updates_position :
  let w := Scenario.pool_AB in
  let w' :=
    snd (add_liquidity "A" (PyNumber.PyInt 3) 54000000 62000000 w) in
  fst (add_liquidity "A" (PyNumber.PyInt 3) 54000000 62000000 w)
  = Ok Scenario.position_A
  /\ List.length (position_objs w') = List.length (position_objs w)
  /\ List.length (tick_objs w') = List.length (tick_objs w)
  /\ Pair.positions (self w') = Pair.positions (self w)
  /\ Position.liquidity
       (nth Scenario.position_A (position_objs w') default_position)
     = PyNumber.PyInt 5
  /\ Pair.liquidity (self w) = PyNumber.PyInt 2
  /\ Pair.liquidity (self w') = PyNumber.PyInt 5.
Proof. vm_compute. repeat split; reflexivity. Qed.

(** X25.  add_liquidity on the new pool builds the objects of Position and
    Tick.  add_liquidity("A", 2, 54000000, 62000000) creates the Tick of
    54000000 with liquidity_net 2 and the Tick of 62000000 with
    liquidity_net -2, both of liquidity_gross 2 and fee growth outside 0,
    puts them in [ticks] and [all_ticks], creates the Position with pending
    fees 0 over these two Ticks, registers it under its key, and, the
    current tick being in the range, takes the active liquidity to 2.  The
    pool is credited 2 * (3000 - 1000) / (3000 * 1000) of token X and 0.0
    of token Y. *)
Theorem add_liquidity_creates_objects :
  let w := Scenario.pool0 in
  let w' := snd (add_liquidity "A" (PyNumber.PyInt 2) 54000000 62000000 w) in
  tick_objs w = [] /\ position_objs w = []
  /\ fst (add_liquidity "A" (PyNumber.PyInt 2) 54000000 62000000 w) = Ok 0%nat
  /\ tick_objs w'
     = [Tick.mk 54000000 (PyNumber.PyInt 2) (PyNumber.PyInt 2)
                (PyNumber.PyInt 0) (PyNumber.PyInt 0);
        Tick.mk 62000000 (PyNumber.PyInt (-2)) (PyNumber.PyInt 2)
                (PyNumber.PyInt 0) (PyNumber.PyInt 0)]
  /\ position_objs w'
     = [Position.mk "A" (PyNumber.PyInt 2) 0%nat 1%nat
                    (PyNumber.PyInt 0) (PyNumber.PyInt 0)
                    (PyNumber.PyInt 0) (PyNumber.PyInt 0)]
  /\ Pair.ticks (self w') = [(54000000, 0%nat); (62000000, 1%nat)]
  /\ Pair.all_ticks (self w') = [(54000000, 0%nat); (62000000, 1%nat)]
  /\ Pair.positions (self w') = [(("A"%string, 54000000, 62000000), 0%nat)]
  /\ Pair.liquidity (self w') = PyNumber.PyInt 2
  /\ Pair.token_x_balance (self w') = PyNumber.PyFloat (4000 / 3000000)
  /\ Pair.token_y_balance (self w') = PyNumber.PyFloat 0.
Proof. vm_compute. repeat split; reflexivity. Qed.

(** X26.  A swap of token X in a pool whose current tick is its smallest active
    tick.  In the pool with position A alone (ticks 54000000 and 62000000,
    sqrt-prices 1000 and 3000, liquidity 2, at sqrt-price 1000),
    find_next_tick(54000000, False) returns 62000000, so that
    swap("X", 2^-10, 0) takes the price from 1000 to 3000 and back to 1000,
    and returns 4000 of token Y, taken from token_y_balance. *)
Theorem swap_x_at_the_smallest_tick :
  let w := Scenario.pool_A in
  let w' :=
    snd (swap 5 "X" (PyNumber.PyFloat 0x1p-10) (PyNumber.PyInt 0) false w) in
  Pair.curr_tick_idx (self w) = 54000000
  /\ fst (find_next_tick 54000000 false w) = Ok (Some 62000000)
  /\ fst (swap 5 "X" (PyNumber.PyFloat 0x1p-10) (PyNumber.PyInt 0) false w)
     = Ok (Some (PyNumber.PyInt 4000))
  /\ Pair.curr_sqrt_price (self w') = PyNumber.PyFloat 1000
  /\ Pair.liquidity (self w') = PyNumber.PyInt 2
  /\ Pair.token_y_balance (self w) = PyNumber.PyFloat 0
  /\ Pair.token_y_balance (self w') = PyNumber.PyFloat (-4000).
Proof. vm_compute. repeat split; reflexivity. Qed.

(** ** The general properties at the pools of the scenario *)

Lemma tick_by_tick_spacing_zero_spacing_witness :
  let p :=
    self (Scenario.created
            (init "X" "Y" (PyNumber.PyFloat 1000) (PyNumber.PyFloat 0.5) 0)) in
  tick_by_tick_spacing p (PyNumber.PyInt 5) = Raise ZeroDivisionError.
Proof.
  intros p.
  assert (E : Pair.tick_spacing p = 0) by (vm_compute; reflexivity).
  exact (tick_by_tick_spacing_zero_spacing p (PyNumber.PyInt 5) E).
Defined.

Lemma swap_without_ticks_witness :
  swap 10 "X" (PyNumber.PyInt 100) (PyNumber.PyInt 0) false Scenario.pool0
  = (Ok None, Scenario.pool0).
Proof.
  assert (E : Pair.ticks (self Scenario.pool0) = [])
    by (vm_compute; reflexivity).
  exact (swap_without_ticks 10 "X" (PyNumber.PyInt 100) (PyNumber.PyInt 0)
           false Scenario.pool0 E).
Defined.

Lemma swap_restores_attributes_witness :
  self (snd (swap 10 "Y" (PyNumber.PyInt 3000) (PyNumber.PyFloat 1000000000)
                  true Scenario.pool_AB))
  = self Scenario.pool_AB.
Proof.
  assert (Hd : fst (swap 10 "Y" (PyNumber.PyInt 3000)
                         (PyNumber.PyFloat 1000000000) true Scenario.pool_AB)
               <> Diverge)
    by (vm_compute; discriminate).
  exact (swap_restores_attributes 10 "Y" (PyNumber.PyInt 3000)
           (PyNumber.PyFloat 1000000000) true Scenario.pool_AB
           (or_introl eq_refl) Hd).
Defined.

Lemma swap_without_amount_witness :
  let w := Scenario.pool_AB in
  swap 10 "Y" (PyNumber.PyInt (-5)) (PyNumber.PyFloat 1000000000) false w
  = (Ok (Some (of_int 0)),
     mkWorld
       (if String.eqb "Y" (Pair.token_x (self w))
        then Pair.set_token_y_balance
               (nsub (Pair.token_y_balance (self w)) (of_int 0))
               (Pair.set_token_x_balance
                  (nadd (Pair.token_x_balance (self w)) (PyNumber.PyInt (-5)))
                  (self w))
        else Pair.set_token_x_balance
               (nsub (Pair.token_x_balance (self w)) (of_int 0))
               (Pair.set_token_y_balance
                  (nadd (Pair.token_y_balance (self w)) (PyNumber.PyInt (-5)))
                  (self w)))
       (tick_objs w) (position_objs w)).
Proof.
  intros w.
  assert (Hamt : nltb (of_int 0) (PyNumber.PyInt (-5)) = false)
    by (vm_compute; reflexivity).
  assert (Hnext : fst (find_next_tick (Pair.curr_tick_idx (self w))
                         (negb (String.eqb "Y" (Pair.token_x (self w)))) w)
                  = Ok (Some 55250000))
    by (vm_compute; reflexivity).
  assert (Htick : tick_to_sqrt_price (self w) 55250000
                  = Ok (PyNumber.PyFloat 1500,
                        PyNumber.PyFloat 0x1.7700057619e6dp+10))
    by (vm_compute; reflexivity).
  exact (swap_without_amount 10 "Y" (PyNumber.PyInt (-5))
           (PyNumber.PyFloat 1000000000) w 55250000 _ _ Hamt Hnext Htick).
Defined.

Lemma pool_AB_sorted : ticks_sorted Scenario.pool_AB.
Proof.
  unfold ticks_sorted, on_ticks. vm_compute. repeat constructor.
Qed.

Lemma find_next_tick_higher_sorted_witness :
  let w := Scenario.pool_AB in
  find_next_tick 55250000 true w
  = (match filter (fun k => 55250000 <? k)
                  (dict_keys (Pair.ticks (self w))) with
     | k :: _ => Ok (Some k)
     | [] =>
         if existsb (Z.eqb 55250000) (dict_keys (Pair.ticks (self w)))
         then Raise IndexError
         else Ok None
     end, w).
Proof.
  exact (find_next_tick_higher_sorted 55250000 Scenario.pool_AB pool_AB_sorted).
Defined.

Lemma find_next_tick_lower_sorted_witness :
  let w := Scenario.pool_AB in
  find_next_tick 55250000 false w
  = (match rev (filter (fun k => k <? 55250000)
                       (dict_keys (Pair.ticks (self w)))) with
     | k :: _ => Ok (Some k)
     | [] =>
         if existsb (Z.eqb 55250000) (dict_keys (Pair.ticks (self w)))
         then Ok (Some (last (dict_keys (Pair.ticks (self w))) 0))
         else Ok None
     end, w).
Proof.
  exact (find_next_tick_lower_sorted 55250000 Scenario.pool_AB pool_AB_sorted).
Defined.

Lemma pool0_reachable : reachable Scenario.pool0.
Proof. exact (reachable_init _ _ _ _ _ _ pool0_created). Qed.

Lemma add_liquidity_sorts_ticks_witness :
  ticks_sorted
    (Scenario.after (add_liquidity "A" (PyNumber.PyInt 2) 54000000 62000000)
                    Scenario.pool0).
Proof.
  exact (add_liquidity_sorts_ticks "A" (PyNumber.PyInt 2) 54000000 62000000
           Scenario.pool0 _ Scenario.position_A pool0_reachable
           (eq_trans
              (run_after (add_liquidity "A" (PyNumber.PyInt 2)
                                        54000000 62000000) Scenario.pool0)
              (f_equal
                 (fun r =>
                    (r, Scenario.after
                          (add_liquidity "A" (PyNumber.PyInt 2)
                                         54000000 62000000) Scenario.pool0))
                 pool_A_added))).
Defined.

Lemma tick_to_sqrt_price_increasing_witness :
  let p := self Scenario.pool0 in
  exists sp sp',
    tick_to_sqrt_price p 54000000 = Ok sp
    /\ tick_to_sqrt_price p (54000000 + 10000) = Ok sp'
    /\ nltb (of_int 0) (fst sp) = true
    /\ nltb (fst sp) (fst sp') = true.
Proof.
  assert (HD : Pair.std_increment_distance (self Scenario.pool0) = 9000000)
    by (vm_compute; reflexivity).
  assert (HE : Pair.exp_at_price_one (self Scenario.pool0) = -6)
    by (vm_compute; reflexivity).
  assert (Hm : 54000000 mod 10000 = 0) by reflexivity.
  assert (Ht : -441000000 <= 54000000 < 441000000) by lia.
  exact (tick_to_sqrt_price_increasing (self Scenario.pool0) 54000000
           HD HE Hm Ht).
Defined.
